(** * discordmcp: the Discord tool server of [src/index.ts]

    A shallow embedding of the guild and channel resolvers, the
    conversation scanner, the three zod schemas and the tool-call handler,
    followed by the properties of the specification that concern them.

    Conventions of the embedding.
    - JavaScript strings are [string], holding their UTF-8 bytes;
      [toLowerCase] lowers them by the Unicode default case conversion.
    - JavaScript numbers that the program handles are message counts and
      millisecond timestamps; they are integers of [Z].
    - An [async] function is a computation in [Async]: it yields the list of
      platform calls it awaited, in order, and either a value or the thrown
      value.
    - The Discord client is a snapshot [Client]: what the caches hold and
      what each platform call answers during one tool invocation. *)

From Stdlib Require Import String Ascii List ZArith Bool Lia.
From Stdlib Require Import Sorted Permutation DecimalString.
Import ListNotations.

Set Warnings "-register-all".

Local Open Scope Z_scope.
Local Open Scope list_scope.

Declare Scope js_scope.
Delimit Scope js_scope with js.
Infix "+++" := String.append (right associativity, at level 60) : js_scope.
Local Open Scope js_scope.

(* ================================================================= *)
(** ** JavaScript built-ins used by the program *)

Module JS.

Definition chr (n : nat) : string := String (ascii_of_nat n) EmptyString.

(** The characters the program's templates spell out. *)
Definition dquote : string := chr 34.
Definition newline : string := chr 10.
Definition hash : ascii := ascii_of_nat 35.

(** *** Text

    A string holds the UTF-8 bytes of a JavaScript string. The program
    compares, joins and copies strings, which is the same on the bytes;
    [toLowerCase] alone looks at the characters, so it decodes the bytes to
    code points, lowers them and encodes the result. *)

Definition byteOf (c : ascii) : Z := Z.of_N (N_of_ascii c).

Definition asciiOf (b : Z) : ascii := ascii_of_N (Z.to_N b).

Fixpoint bytesOf (s : string) : list Z :=
  match s with
  | EmptyString => []
  | String c r => byteOf c :: bytesOf r
  end.

Fixpoint stringOf (bs : list Z) : string :=
  match bs with
  | [] => EmptyString
  | b :: r => String (asciiOf b) (stringOf r)
  end.

(** What the bytes decode to: a code point, or a byte that is part of no
    well-formed sequence and is kept as it is. *)
Inductive Element :=
| Scalar (c : Z)
| Stray (b : Z).

Definition continuation (b : Z) : bool := (0x80 <=? b) && (b <=? 0xBF).

(** A decoded value is accepted when it needs the length it was written in
    and is a Unicode scalar value. *)
Definition scalarValue (least c : Z) : bool :=
  (least <=? c) && (c <=? 0x10FFFF)
  && negb ((0xD800 <=? c) && (c <=? 0xDFFF)).

Definition value2 (b0 b1 : Z) : Z := (b0 - 0xC0) * 64 + (b1 - 0x80).

Definition value3 (b0 b1 b2 : Z) : Z :=
  ((b0 - 0xE0) * 64 + (b1 - 0x80)) * 64 + (b2 - 0x80).

Definition value4 (b0 b1 b2 b3 : Z) : Z :=
  (((b0 - 0xF0) * 64 + (b1 - 0x80)) * 64 + (b2 - 0x80)) * 64 + (b3 - 0x80).

Definition accept2 (b0 b1 : Z) : bool :=
  (0xC0 <=? b0) && (b0 <? 0xE0) && continuation b1
  && scalarValue 0x80 (value2 b0 b1).

Definition accept3 (b0 b1 b2 : Z) : bool :=
  (0xE0 <=? b0) && (b0 <? 0xF0) && continuation b1 && continuation b2
  && scalarValue 0x800 (value3 b0 b1 b2).

Definition accept4 (b0 b1 b2 b3 : Z) : bool :=
  (0xF0 <=? b0) && (b0 <? 0xF8) && continuation b1 && continuation b2
  && continuation b3 && scalarValue 0x10000 (value4 b0 b1 b2 b3).

Fixpoint decode (bs : list Z) : list Element :=
  match bs with
  | [] => []
  | b0 :: r =>
      if b0 <? 0x80 then Scalar b0 :: decode r
      else
        match r with
        | [] => [Stray b0]
        | b1 :: r1 =>
            if accept2 b0 b1 then Scalar (value2 b0 b1) :: decode r1
            else
              match r1 with
              | [] => Stray b0 :: decode r
              | b2 :: r2 =>
                  if accept3 b0 b1 b2
                  then Scalar (value3 b0 b1 b2) :: decode r2
                  else
                    match r2 with
                    | [] => Stray b0 :: decode r
                    | b3 :: r3 =>
                        if accept4 b0 b1 b2 b3
                        then Scalar (value4 b0 b1 b2 b3) :: decode r3
                        else Stray b0 :: decode r
                    end
              end
        end
  end.

Definition encodeElement (u : Element) : list Z :=
  match u with
  | Stray b => [b]
  | Scalar c =>
      if (0 <=? c) && (c <? 0x80) then [c]
      else if (0x80 <=? c) && (c <? 0x800)
      then [0xC0 + c / 64; 0x80 + c mod 64]
      else if (0x800 <=? c) && (c <? 0x10000)
      then [0xE0 + c / 4096; 0x80 + c / 64 mod 64; 0x80 + c mod 64]
      else if (0x10000 <=? c) && (c <? 0x110000)
      then [0xF0 + c / 262144; 0x80 + c / 4096 mod 64;
            0x80 + c / 64 mod 64; 0x80 + c mod 64]
      else [0xEF; 0xBF; 0xBD]
  end.

Definition encode (l : list Element) : list Z := flat_map encodeElement l.

(** The simple lowercase mappings of the Unicode Character Database
    (version 14.0), in runs: the code points of [first .. last] that lie a
    multiple of [step] after [first] map to themselves plus [shift]. The
    runs are in the order of their first code point. *)
Definition lowercaseRuns : list (Z * Z * Z * Z) :=
  [
    (0x41, 0x5a, 1, 32); (0xc0, 0xd6, 1, 32); (0xd8, 0xde, 1, 32);
    (0x100, 0x12e, 2, 1); (0x132, 0x136, 2, 1); (0x139, 0x147, 2, 1);
    (0x14a, 0x176, 2, 1); (0x178, 0x178, 1, -121); (0x179, 0x17d, 2, 1);
    (0x181, 0x181, 1, 210); (0x182, 0x184, 2, 1); (0x186, 0x186, 1, 206);
    (0x187, 0x187, 1, 1); (0x189, 0x18a, 1, 205); (0x18b, 0x18b, 1, 1);
    (0x18e, 0x18e, 1, 79); (0x18f, 0x18f, 1, 202); (0x190, 0x190, 1, 203);
    (0x191, 0x191, 1, 1); (0x193, 0x193, 1, 205); (0x194, 0x194, 1, 207);
    (0x196, 0x196, 1, 211); (0x197, 0x197, 1, 209); (0x198, 0x198, 1, 1);
    (0x19c, 0x19c, 1, 211); (0x19d, 0x19d, 1, 213); (0x19f, 0x19f, 1, 214);
    (0x1a0, 0x1a4, 2, 1); (0x1a6, 0x1a6, 1, 218); (0x1a7, 0x1a7, 1, 1);
    (0x1a9, 0x1a9, 1, 218); (0x1ac, 0x1ac, 1, 1); (0x1ae, 0x1ae, 1, 218);
    (0x1af, 0x1af, 1, 1); (0x1b1, 0x1b2, 1, 217); (0x1b3, 0x1b5, 2, 1);
    (0x1b7, 0x1b7, 1, 219); (0x1b8, 0x1b8, 1, 1); (0x1bc, 0x1bc, 1, 1);
    (0x1c4, 0x1c4, 1, 2); (0x1c5, 0x1c5, 1, 1); (0x1c7, 0x1c7, 1, 2);
    (0x1c8, 0x1c8, 1, 1); (0x1ca, 0x1ca, 1, 2); (0x1cb, 0x1db, 2, 1);
    (0x1de, 0x1ee, 2, 1); (0x1f1, 0x1f1, 1, 2); (0x1f2, 0x1f4, 2, 1);
    (0x1f6, 0x1f6, 1, -97); (0x1f7, 0x1f7, 1, -56); (0x1f8, 0x21e, 2, 1);
    (0x220, 0x220, 1, -130); (0x222, 0x232, 2, 1); (0x23a, 0x23a, 1, 10795);
    (0x23b, 0x23b, 1, 1); (0x23d, 0x23d, 1, -163); (0x23e, 0x23e, 1, 10792);
    (0x241, 0x241, 1, 1); (0x243, 0x243, 1, -195); (0x244, 0x244, 1, 69);
    (0x245, 0x245, 1, 71); (0x246, 0x24e, 2, 1); (0x370, 0x372, 2, 1);
    (0x376, 0x376, 1, 1); (0x37f, 0x37f, 1, 116); (0x386, 0x386, 1, 38);
    (0x388, 0x38a, 1, 37); (0x38c, 0x38c, 1, 64); (0x38e, 0x38f, 1, 63);
    (0x391, 0x3a1, 1, 32); (0x3a3, 0x3ab, 1, 32); (0x3cf, 0x3cf, 1, 8);
    (0x3d8, 0x3ee, 2, 1); (0x3f4, 0x3f4, 1, -60); (0x3f7, 0x3f7, 1, 1);
    (0x3f9, 0x3f9, 1, -7); (0x3fa, 0x3fa, 1, 1); (0x3fd, 0x3ff, 1, -130);
    (0x400, 0x40f, 1, 80); (0x410, 0x42f, 1, 32); (0x460, 0x480, 2, 1);
    (0x48a, 0x4be, 2, 1); (0x4c0, 0x4c0, 1, 15); (0x4c1, 0x4cd, 2, 1);
    (0x4d0, 0x52e, 2, 1); (0x531, 0x556, 1, 48); (0x10a0, 0x10c5, 1, 7264);
    (0x10c7, 0x10c7, 1, 7264); (0x10cd, 0x10cd, 1, 7264); (0x13a0, 0x13ef, 1, 38864);
    (0x13f0, 0x13f5, 1, 8); (0x1c90, 0x1cba, 1, -3008); (0x1cbd, 0x1cbf, 1, -3008);
    (0x1e00, 0x1e94, 2, 1); (0x1e9e, 0x1e9e, 1, -7615); (0x1ea0, 0x1efe, 2, 1);
    (0x1f08, 0x1f0f, 1, -8); (0x1f18, 0x1f1d, 1, -8); (0x1f28, 0x1f2f, 1, -8);
    (0x1f38, 0x1f3f, 1, -8); (0x1f48, 0x1f4d, 1, -8); (0x1f59, 0x1f5f, 2, -8);
    (0x1f68, 0x1f6f, 1, -8); (0x1f88, 0x1f8f, 1, -8); (0x1f98, 0x1f9f, 1, -8);
    (0x1fa8, 0x1faf, 1, -8); (0x1fb8, 0x1fb9, 1, -8); (0x1fba, 0x1fbb, 1, -74);
    (0x1fbc, 0x1fbc, 1, -9); (0x1fc8, 0x1fcb, 1, -86); (0x1fcc, 0x1fcc, 1, -9);
    (0x1fd8, 0x1fd9, 1, -8); (0x1fda, 0x1fdb, 1, -100); (0x1fe8, 0x1fe9, 1, -8);
    (0x1fea, 0x1feb, 1, -112); (0x1fec, 0x1fec, 1, -7); (0x1ff8, 0x1ff9, 1, -128);
    (0x1ffa, 0x1ffb, 1, -126); (0x1ffc, 0x1ffc, 1, -9); (0x2126, 0x2126, 1, -7517);
    (0x212a, 0x212a, 1, -8383); (0x212b, 0x212b, 1, -8262); (0x2132, 0x2132, 1, 28);
    (0x2160, 0x216f, 1, 16); (0x2183, 0x2183, 1, 1); (0x24b6, 0x24cf, 1, 26);
    (0x2c00, 0x2c2f, 1, 48); (0x2c60, 0x2c60, 1, 1); (0x2c62, 0x2c62, 1, -10743);
    (0x2c63, 0x2c63, 1, -3814); (0x2c64, 0x2c64, 1, -10727); (0x2c67, 0x2c6b, 2, 1);
    (0x2c6d, 0x2c6d, 1, -10780); (0x2c6e, 0x2c6e, 1, -10749); (0x2c6f, 0x2c6f, 1, -10783);
    (0x2c70, 0x2c70, 1, -10782); (0x2c72, 0x2c72, 1, 1); (0x2c75, 0x2c75, 1, 1);
    (0x2c7e, 0x2c7f, 1, -10815); (0x2c80, 0x2ce2, 2, 1); (0x2ceb, 0x2ced, 2, 1);
    (0x2cf2, 0x2cf2, 1, 1); (0xa640, 0xa66c, 2, 1); (0xa680, 0xa69a, 2, 1);
    (0xa722, 0xa72e, 2, 1); (0xa732, 0xa76e, 2, 1); (0xa779, 0xa77b, 2, 1);
    (0xa77d, 0xa77d, 1, -35332); (0xa77e, 0xa786, 2, 1); (0xa78b, 0xa78b, 1, 1);
    (0xa78d, 0xa78d, 1, -42280); (0xa790, 0xa792, 2, 1); (0xa796, 0xa7a8, 2, 1);
    (0xa7aa, 0xa7aa, 1, -42308); (0xa7ab, 0xa7ab, 1, -42319); (0xa7ac, 0xa7ac, 1, -42315);
    (0xa7ad, 0xa7ad, 1, -42305); (0xa7ae, 0xa7ae, 1, -42308); (0xa7b0, 0xa7b0, 1, -42258);
    (0xa7b1, 0xa7b1, 1, -42282); (0xa7b2, 0xa7b2, 1, -42261); (0xa7b3, 0xa7b3, 1, 928);
    (0xa7b4, 0xa7c2, 2, 1); (0xa7c4, 0xa7c4, 1, -48); (0xa7c5, 0xa7c5, 1, -42307);
    (0xa7c6, 0xa7c6, 1, -35384); (0xa7c7, 0xa7c9, 2, 1); (0xa7d0, 0xa7d0, 1, 1);
    (0xa7d6, 0xa7d8, 2, 1); (0xa7f5, 0xa7f5, 1, 1); (0xff21, 0xff3a, 1, 32);
    (0x10400, 0x10427, 1, 40); (0x104b0, 0x104d3, 1, 40); (0x10570, 0x1057a, 1, 39);
    (0x1057c, 0x1058a, 1, 39); (0x1058c, 0x10592, 1, 39); (0x10594, 0x10595, 1, 39);
    (0x10c80, 0x10cb2, 1, 64); (0x118a0, 0x118bf, 1, 32); (0x16e40, 0x16e5f, 1, 32);
    (0x1e900, 0x1e921, 1, 34) ].

(** The case-ignorable code points, and the cased code points that are not
    case-ignorable, as intervals in increasing order. *)
Definition caseIgnorableRanges : list (Z * Z) :=
  [
    (0x27, 0x27); (0x2e, 0x2e); (0x3a, 0x3a);
    (0x5e, 0x5e); (0x60, 0x60); (0xa8, 0xa8);
    (0xad, 0xad); (0xaf, 0xaf); (0xb4, 0xb4);
    (0xb7, 0xb8); (0x2b0, 0x36f); (0x374, 0x375);
    (0x37a, 0x37a); (0x384, 0x385); (0x387, 0x387);
    (0x483, 0x489); (0x559, 0x559); (0x55f, 0x55f);
    (0x591, 0x5bd); (0x5bf, 0x5bf); (0x5c1, 0x5c2);
    (0x5c4, 0x5c5); (0x5c7, 0x5c7); (0x5f4, 0x5f4);
    (0x600, 0x605); (0x610, 0x61a); (0x61c, 0x61c);
    (0x640, 0x640); (0x64b, 0x65f); (0x670, 0x670);
    (0x6d6, 0x6dd); (0x6df, 0x6e8); (0x6ea, 0x6ed);
    (0x70f, 0x70f); (0x711, 0x711); (0x730, 0x74a);
    (0x7a6, 0x7b0); (0x7eb, 0x7f5); (0x7fa, 0x7fa);
    (0x7fd, 0x7fd); (0x816, 0x82d); (0x859, 0x85b);
    (0x888, 0x888); (0x890, 0x891); (0x898, 0x89f);
    (0x8c9, 0x902); (0x93a, 0x93a); (0x93c, 0x93c);
    (0x941, 0x948); (0x94d, 0x94d); (0x951, 0x957);
    (0x962, 0x963); (0x971, 0x971); (0x981, 0x981);
    (0x9bc, 0x9bc); (0x9c1, 0x9c4); (0x9cd, 0x9cd);
    (0x9e2, 0x9e3); (0x9fe, 0x9fe); (0xa01, 0xa02);
    (0xa3c, 0xa3c); (0xa41, 0xa42); (0xa47, 0xa48);
    (0xa4b, 0xa4d); (0xa51, 0xa51); (0xa70, 0xa71);
    (0xa75, 0xa75); (0xa81, 0xa82); (0xabc, 0xabc);
    (0xac1, 0xac5); (0xac7, 0xac8); (0xacd, 0xacd);
    (0xae2, 0xae3); (0xafa, 0xaff); (0xb01, 0xb01);
    (0xb3c, 0xb3c); (0xb3f, 0xb3f); (0xb41, 0xb44);
    (0xb4d, 0xb4d); (0xb55, 0xb56); (0xb62, 0xb63);
    (0xb82, 0xb82); (0xbc0, 0xbc0); (0xbcd, 0xbcd);
    (0xc00, 0xc00); (0xc04, 0xc04); (0xc3c, 0xc3c);
    (0xc3e, 0xc40); (0xc46, 0xc48); (0xc4a, 0xc4d);
    (0xc55, 0xc56); (0xc62, 0xc63); (0xc81, 0xc81);
    (0xcbc, 0xcbc); (0xcbf, 0xcbf); (0xcc6, 0xcc6);
    (0xccc, 0xccd); (0xce2, 0xce3); (0xd00, 0xd01);
    (0xd3b, 0xd3c); (0xd41, 0xd44); (0xd4d, 0xd4d);
    (0xd62, 0xd63); (0xd81, 0xd81); (0xdca, 0xdca);
    (0xdd2, 0xdd4); (0xdd6, 0xdd6); (0xe31, 0xe31);
    (0xe34, 0xe3a); (0xe46, 0xe4e); (0xeb1, 0xeb1);
    (0xeb4, 0xebc); (0xec6, 0xec6); (0xec8, 0xecd);
    (0xf18, 0xf19); (0xf35, 0xf35); (0xf37, 0xf37);
    (0xf39, 0xf39); (0xf71, 0xf7e); (0xf80, 0xf84);
    (0xf86, 0xf87); (0xf8d, 0xf97); (0xf99, 0xfbc);
    (0xfc6, 0xfc6); (0x102d, 0x1030); (0x1032, 0x1037);
    (0x1039, 0x103a); (0x103d, 0x103e); (0x1058, 0x1059);
    (0x105e, 0x1060); (0x1071, 0x1074); (0x1082, 0x1082);
    (0x1085, 0x1086); (0x108d, 0x108d); (0x109d, 0x109d);
    (0x10fc, 0x10fc); (0x135d, 0x135f); (0x1712, 0x1714);
    (0x1732, 0x1733); (0x1752, 0x1753); (0x1772, 0x1773);
    (0x17b4, 0x17b5); (0x17b7, 0x17bd); (0x17c6, 0x17c6);
    (0x17c9, 0x17d3); (0x17d7, 0x17d7); (0x17dd, 0x17dd);
    (0x180b, 0x180f); (0x1843, 0x1843); (0x1885, 0x1886);
    (0x18a9, 0x18a9); (0x1920, 0x1922); (0x1927, 0x1928);
    (0x1932, 0x1932); (0x1939, 0x193b); (0x1a17, 0x1a18);
    (0x1a1b, 0x1a1b); (0x1a56, 0x1a56); (0x1a58, 0x1a5e);
    (0x1a60, 0x1a60); (0x1a62, 0x1a62); (0x1a65, 0x1a6c);
    (0x1a73, 0x1a7c); (0x1a7f, 0x1a7f); (0x1aa7, 0x1aa7);
    (0x1ab0, 0x1ace); (0x1b00, 0x1b03); (0x1b34, 0x1b34);
    (0x1b36, 0x1b3a); (0x1b3c, 0x1b3c); (0x1b42, 0x1b42);
    (0x1b6b, 0x1b73); (0x1b80, 0x1b81); (0x1ba2, 0x1ba5);
    (0x1ba8, 0x1ba9); (0x1bab, 0x1bad); (0x1be6, 0x1be6);
    (0x1be8, 0x1be9); (0x1bed, 0x1bed); (0x1bef, 0x1bf1);
    (0x1c2c, 0x1c33); (0x1c36, 0x1c37); (0x1c78, 0x1c7d);
    (0x1cd0, 0x1cd2); (0x1cd4, 0x1ce0); (0x1ce2, 0x1ce8);
    (0x1ced, 0x1ced); (0x1cf4, 0x1cf4); (0x1cf8, 0x1cf9);
    (0x1d2c, 0x1d6a); (0x1d78, 0x1d78); (0x1d9b, 0x1dff);
    (0x1fbd, 0x1fbd); (0x1fbf, 0x1fc1); (0x1fcd, 0x1fcf);
    (0x1fdd, 0x1fdf); (0x1fed, 0x1fef); (0x1ffd, 0x1ffe);
    (0x200b, 0x200f); (0x2018, 0x2019); (0x2024, 0x2024);
    (0x2027, 0x2027); (0x202a, 0x202e); (0x2060, 0x2064);
    (0x2066, 0x206f); (0x2071, 0x2071); (0x207f, 0x207f);
    (0x2090, 0x209c); (0x20d0, 0x20f0); (0x2c7c, 0x2c7d);
    (0x2cef, 0x2cf1); (0x2d6f, 0x2d6f); (0x2d7f, 0x2d7f);
    (0x2de0, 0x2dff); (0x2e2f, 0x2e2f); (0x3005, 0x3005);
    (0x302a, 0x302d); (0x3031, 0x3035); (0x303b, 0x303b);
    (0x3099, 0x309e); (0x30fc, 0x30fe); (0xa015, 0xa015);
    (0xa4f8, 0xa4fd); (0xa60c, 0xa60c); (0xa66f, 0xa672);
    (0xa674, 0xa67d); (0xa67f, 0xa67f); (0xa69c, 0xa69f);
    (0xa6f0, 0xa6f1); (0xa700, 0xa721); (0xa770, 0xa770);
    (0xa788, 0xa78a); (0xa7f2, 0xa7f4); (0xa7f8, 0xa7f9);
    (0xa802, 0xa802); (0xa806, 0xa806); (0xa80b, 0xa80b);
    (0xa825, 0xa826); (0xa82c, 0xa82c); (0xa8c4, 0xa8c5);
    (0xa8e0, 0xa8f1); (0xa8ff, 0xa8ff); (0xa926, 0xa92d);
    (0xa947, 0xa951); (0xa980, 0xa982); (0xa9b3, 0xa9b3);
    (0xa9b6, 0xa9b9); (0xa9bc, 0xa9bd); (0xa9cf, 0xa9cf);
    (0xa9e5, 0xa9e6); (0xaa29, 0xaa2e); (0xaa31, 0xaa32);
    (0xaa35, 0xaa36); (0xaa43, 0xaa43); (0xaa4c, 0xaa4c);
    (0xaa70, 0xaa70); (0xaa7c, 0xaa7c); (0xaab0, 0xaab0);
    (0xaab2, 0xaab4); (0xaab7, 0xaab8); (0xaabe, 0xaabf);
    (0xaac1, 0xaac1); (0xaadd, 0xaadd); (0xaaec, 0xaaed);
    (0xaaf3, 0xaaf4); (0xaaf6, 0xaaf6); (0xab5b, 0xab5f);
    (0xab69, 0xab6b); (0xabe5, 0xabe5); (0xabe8, 0xabe8);
    (0xabed, 0xabed); (0xfb1e, 0xfb1e); (0xfbb2, 0xfbc2);
    (0xfe00, 0xfe0f); (0xfe13, 0xfe13); (0xfe20, 0xfe2f);
    (0xfe52, 0xfe52); (0xfe55, 0xfe55); (0xfeff, 0xfeff);
    (0xff07, 0xff07); (0xff0e, 0xff0e); (0xff1a, 0xff1a);
    (0xff3e, 0xff3e); (0xff40, 0xff40); (0xff70, 0xff70);
    (0xff9e, 0xff9f); (0xffe3, 0xffe3); (0xfff9, 0xfffb);
    (0x101fd, 0x101fd); (0x102e0, 0x102e0); (0x10376, 0x1037a);
    (0x10780, 0x10785); (0x10787, 0x107b0); (0x107b2, 0x107ba);
    (0x10a01, 0x10a03); (0x10a05, 0x10a06); (0x10a0c, 0x10a0f);
    (0x10a38, 0x10a3a); (0x10a3f, 0x10a3f); (0x10ae5, 0x10ae6);
    (0x10d24, 0x10d27); (0x10eab, 0x10eac); (0x10f46, 0x10f50);
    (0x10f82, 0x10f85); (0x11001, 0x11001); (0x11038, 0x11046);
    (0x11070, 0x11070); (0x11073, 0x11074); (0x1107f, 0x11081);
    (0x110b3, 0x110b6); (0x110b9, 0x110ba); (0x110bd, 0x110bd);
    (0x110c2, 0x110c2); (0x110cd, 0x110cd); (0x11100, 0x11102);
    (0x11127, 0x1112b); (0x1112d, 0x11134); (0x11173, 0x11173);
    (0x11180, 0x11181); (0x111b6, 0x111be); (0x111c9, 0x111cc);
    (0x111cf, 0x111cf); (0x1122f, 0x11231); (0x11234, 0x11234);
    (0x11236, 0x11237); (0x1123e, 0x1123e); (0x112df, 0x112df);
    (0x112e3, 0x112ea); (0x11300, 0x11301); (0x1133b, 0x1133c);
    (0x11340, 0x11340); (0x11366, 0x1136c); (0x11370, 0x11374);
    (0x11438, 0x1143f); (0x11442, 0x11444); (0x11446, 0x11446);
    (0x1145e, 0x1145e); (0x114b3, 0x114b8); (0x114ba, 0x114ba);
    (0x114bf, 0x114c0); (0x114c2, 0x114c3); (0x115b2, 0x115b5);
    (0x115bc, 0x115bd); (0x115bf, 0x115c0); (0x115dc, 0x115dd);
    (0x11633, 0x1163a); (0x1163d, 0x1163d); (0x1163f, 0x11640);
    (0x116ab, 0x116ab); (0x116ad, 0x116ad); (0x116b0, 0x116b5);
    (0x116b7, 0x116b7); (0x1171d, 0x1171f); (0x11722, 0x11725);
    (0x11727, 0x1172b); (0x1182f, 0x11837); (0x11839, 0x1183a);
    (0x1193b, 0x1193c); (0x1193e, 0x1193e); (0x11943, 0x11943);
    (0x119d4, 0x119d7); (0x119da, 0x119db); (0x119e0, 0x119e0);
    (0x11a01, 0x11a0a); (0x11a33, 0x11a38); (0x11a3b, 0x11a3e);
    (0x11a47, 0x11a47); (0x11a51, 0x11a56); (0x11a59, 0x11a5b);
    (0x11a8a, 0x11a96); (0x11a98, 0x11a99); (0x11c30, 0x11c36);
    (0x11c38, 0x11c3d); (0x11c3f, 0x11c3f); (0x11c92, 0x11ca7);
    (0x11caa, 0x11cb0); (0x11cb2, 0x11cb3); (0x11cb5, 0x11cb6);
    (0x11d31, 0x11d36); (0x11d3a, 0x11d3a); (0x11d3c, 0x11d3d);
    (0x11d3f, 0x11d45); (0x11d47, 0x11d47); (0x11d90, 0x11d91);
    (0x11d95, 0x11d95); (0x11d97, 0x11d97); (0x11ef3, 0x11ef4);
    (0x13430, 0x13438); (0x16af0, 0x16af4); (0x16b30, 0x16b36);
    (0x16b40, 0x16b43); (0x16f4f, 0x16f4f); (0x16f8f, 0x16f9f);
    (0x16fe0, 0x16fe1); (0x16fe3, 0x16fe4); (0x1aff0, 0x1aff3);
    (0x1aff5, 0x1affb); (0x1affd, 0x1affe); (0x1bc9d, 0x1bc9e);
    (0x1bca0, 0x1bca3); (0x1cf00, 0x1cf2d); (0x1cf30, 0x1cf46);
    (0x1d167, 0x1d169); (0x1d173, 0x1d182); (0x1d185, 0x1d18b);
    (0x1d1aa, 0x1d1ad); (0x1d242, 0x1d244); (0x1da00, 0x1da36);
    (0x1da3b, 0x1da6c); (0x1da75, 0x1da75); (0x1da84, 0x1da84);
    (0x1da9b, 0x1da9f); (0x1daa1, 0x1daaf); (0x1e000, 0x1e006);
    (0x1e008, 0x1e018); (0x1e01b, 0x1e021); (0x1e023, 0x1e024);
    (0x1e026, 0x1e02a); (0x1e130, 0x1e13d); (0x1e2ae, 0x1e2ae);
    (0x1e2ec, 0x1e2ef); (0x1e8d0, 0x1e8d6); (0x1e944, 0x1e94b);
    (0x1f3fb, 0x1f3ff); (0xe0001, 0xe0001); (0xe0020, 0xe007f);
    (0xe0100, 0xe01ef) ].

Definition casedRanges : list (Z * Z) :=
  [
    (0x41, 0x5a); (0x61, 0x7a); (0xaa, 0xaa);
    (0xb5, 0xb5); (0xba, 0xba); (0xc0, 0xd6);
    (0xd8, 0xf6); (0xf8, 0x1ba); (0x1bc, 0x1bf);
    (0x1c4, 0x293); (0x295, 0x2af); (0x370, 0x373);
    (0x376, 0x377); (0x37b, 0x37d); (0x37f, 0x37f);
    (0x386, 0x386); (0x388, 0x38a); (0x38c, 0x38c);
    (0x38e, 0x3a1); (0x3a3, 0x3f5); (0x3f7, 0x481);
    (0x48a, 0x52f); (0x531, 0x556); (0x560, 0x588);
    (0x10a0, 0x10c5); (0x10c7, 0x10c7); (0x10cd, 0x10cd);
    (0x10d0, 0x10fa); (0x10fd, 0x10ff); (0x13a0, 0x13f5);
    (0x13f8, 0x13fd); (0x1c80, 0x1c88); (0x1c90, 0x1cba);
    (0x1cbd, 0x1cbf); (0x1d00, 0x1d2b); (0x1d6b, 0x1d77);
    (0x1d79, 0x1d9a); (0x1e00, 0x1f15); (0x1f18, 0x1f1d);
    (0x1f20, 0x1f45); (0x1f48, 0x1f4d); (0x1f50, 0x1f57);
    (0x1f59, 0x1f59); (0x1f5b, 0x1f5b); (0x1f5d, 0x1f5d);
    (0x1f5f, 0x1f7d); (0x1f80, 0x1fb4); (0x1fb6, 0x1fbc);
    (0x1fbe, 0x1fbe); (0x1fc2, 0x1fc4); (0x1fc6, 0x1fcc);
    (0x1fd0, 0x1fd3); (0x1fd6, 0x1fdb); (0x1fe0, 0x1fec);
    (0x1ff2, 0x1ff4); (0x1ff6, 0x1ffc); (0x2102, 0x2102);
    (0x2107, 0x2107); (0x210a, 0x2113); (0x2115, 0x2115);
    (0x2119, 0x211d); (0x2124, 0x2124); (0x2126, 0x2126);
    (0x2128, 0x2128); (0x212a, 0x212d); (0x212f, 0x2134);
    (0x2139, 0x2139); (0x213c, 0x213f); (0x2145, 0x2149);
    (0x214e, 0x214e); (0x2160, 0x217f); (0x2183, 0x2184);
    (0x24b6, 0x24e9); (0x2c00, 0x2c7b); (0x2c7e, 0x2ce4);
    (0x2ceb, 0x2cee); (0x2cf2, 0x2cf3); (0x2d00, 0x2d25);
    (0x2d27, 0x2d27); (0x2d2d, 0x2d2d); (0xa640, 0xa66d);
    (0xa680, 0xa69b); (0xa722, 0xa76f); (0xa771, 0xa787);
    (0xa78b, 0xa78e); (0xa790, 0xa7ca); (0xa7d0, 0xa7d1);
    (0xa7d3, 0xa7d3); (0xa7d5, 0xa7d9); (0xa7f5, 0xa7f6);
    (0xa7fa, 0xa7fa); (0xab30, 0xab5a); (0xab60, 0xab68);
    (0xab70, 0xabbf); (0xfb00, 0xfb06); (0xfb13, 0xfb17);
    (0xff21, 0xff3a); (0xff41, 0xff5a); (0x10400, 0x1044f);
    (0x104b0, 0x104d3); (0x104d8, 0x104fb); (0x10570, 0x1057a);
    (0x1057c, 0x1058a); (0x1058c, 0x10592); (0x10594, 0x10595);
    (0x10597, 0x105a1); (0x105a3, 0x105b1); (0x105b3, 0x105b9);
    (0x105bb, 0x105bc); (0x10c80, 0x10cb2); (0x10cc0, 0x10cf2);
    (0x118a0, 0x118df); (0x16e40, 0x16e7f); (0x1d400, 0x1d454);
    (0x1d456, 0x1d49c); (0x1d49e, 0x1d49f); (0x1d4a2, 0x1d4a2);
    (0x1d4a5, 0x1d4a6); (0x1d4a9, 0x1d4ac); (0x1d4ae, 0x1d4b9);
    (0x1d4bb, 0x1d4bb); (0x1d4bd, 0x1d4c3); (0x1d4c5, 0x1d505);
    (0x1d507, 0x1d50a); (0x1d50d, 0x1d514); (0x1d516, 0x1d51c);
    (0x1d51e, 0x1d539); (0x1d53b, 0x1d53e); (0x1d540, 0x1d544);
    (0x1d546, 0x1d546); (0x1d54a, 0x1d550); (0x1d552, 0x1d6a5);
    (0x1d6a8, 0x1d6c0); (0x1d6c2, 0x1d6da); (0x1d6dc, 0x1d6fa);
    (0x1d6fc, 0x1d714); (0x1d716, 0x1d734); (0x1d736, 0x1d74e);
    (0x1d750, 0x1d76e); (0x1d770, 0x1d788); (0x1d78a, 0x1d7a8);
    (0x1d7aa, 0x1d7c2); (0x1d7c4, 0x1d7cb); (0x1df00, 0x1df09);
    (0x1df0b, 0x1df1e); (0x1e900, 0x1e943); (0x1f130, 0x1f149);
    (0x1f150, 0x1f169); (0x1f170, 0x1f189) ].

Fixpoint simpleLowercase (c : Z) (runs : list (Z * Z * Z * Z)) : Z :=
  match runs with
  | [] => c
  | (first, last, step, shift) :: r =>
      if c <? first then c
      else if (c <=? last) && ((c - first) mod step =? 0) then c + shift
      else simpleLowercase c r
  end.

Fixpoint inRanges (c : Z) (ranges : list (Z * Z)) : bool :=
  match ranges with
  | [] => false
  | (first, last) :: r =>
      if c <? first then false
      else if c <=? last then true
      else inRanges c r
  end.

Inductive CaseClass := CaseIgnorable | Cased | Uncased.

Definition caseClass (u : Element) : CaseClass :=
  match u with
  | Stray _ => Uncased
  | Scalar c =>
      if inRanges c caseIgnorableRanges then CaseIgnorable
      else if inRanges c casedRanges then Cased
      else Uncased
  end.

(** Past the case-ignorable elements, the next element is cased. *)
Fixpoint casedNext (l : list Element) : bool :=
  match l with
  | [] => false
  | u :: r =>
      match caseClass u with
      | CaseIgnorable => casedNext r
      | Cased => true
      | Uncased => false
      end
  end.

(** The condition Final_Sigma: a cased letter stands before, and none
    after; [before] is what precedes, nearest first. *)
Definition finalSigma (before after : list Element) : bool :=
  casedNext before && negb (casedNext after).

(** The lowercase of one code point: the capital sigma by its place, the
    capital I with a dot as i and a combining dot, and every other code
    point by its simple mapping. *)
Definition lowerScalar (before after : list Element) (c : Z) : list Z :=
  if c =? 0x3A3
  then if finalSigma before after then [0x3C2] else [0x3C3]
  else if c =? 0x130 then [0x69; 0x307]
  else [simpleLowercase c lowercaseRuns].

Definition lowerElement (before after : list Element) (u : Element)
  : list Element :=
  match u with
  | Scalar c => map Scalar (lowerScalar before after c)
  | Stray _ => [u]
  end.

Fixpoint lowerFrom (before l : list Element) : list Element :=
  match l with
  | [] => []
  | u :: r => lowerElement before r u ++ lowerFrom (u :: before) r
  end.

(** [String.prototype.toLowerCase]. *)
Definition toLowerCase (s : string) : string :=
  stringOf (encode (lowerFrom [] (decode (bytesOf s)))).

(** [replace] of the pattern [#] by the empty string: a string pattern
    replaces its first occurrence only, wherever it stands. *)
Fixpoint replace_hash (s : string) : string :=
  match s with
  | EmptyString => EmptyString
  | String c r => if Ascii.eqb c hash then r else String c (replace_hash r)
  end.

(** [Array.prototype.join]. *)
Fixpoint join (sep : string) (l : list string) : string :=
  match l with
  | [] => EmptyString
  | [x] => x
  | x :: r => x +++ sep +++ join sep r
  end.

(** [String.prototype.startsWith] and [String.prototype.includes], used
    to state what a text contains. *)
Fixpoint startsWith (s sub : string) {struct sub} : bool :=
  match sub with
  | EmptyString => true
  | String c sub' =>
      match s with
      | EmptyString => false
      | String d s' => Ascii.eqb c d && startsWith s' sub'
      end
  end.

Fixpoint includes (s sub : string) : bool :=
  startsWith s sub ||
  match s with
  | EmptyString => false
  | String _ r => includes r sub
  end.

(** [`${n}`] for an integer number. *)
Definition numberToString (n : Z) : string :=
  NilZero.string_of_int (Z.to_int n).

(** [Array.prototype.sort(compare)]: the sort is stable, so for a
    comparator that orders the elements it is the one stable arrangement,
    computed here by insertion. An element goes before the first element
    it does not compare greater than. *)
Section Sort.
Context {A : Type} (compare : A -> A -> Z).

Fixpoint insert (x : A) (l : list A) : list A :=
  match l with
  | [] => [x]
  | y :: r => if compare x y <=? 0 then x :: y :: r else y :: insert x r
  end.

Fixpoint sort (l : list A) : list A :=
  match l with
  | [] => []
  | x :: r => insert x (sort r)
  end.
End Sort.

(** A thrown value: a zod validation error with its issues, or an [Error]
    with its message. *)
Record ZodIssue := { path : list string; message : string }.

Inductive Thrown :=
| ZodError (errors : list ZodIssue)
| Error (msg : string).

(** The decimal digits of [n] in a field of [width] characters, padded
    with zeros on the left: the digits of [n] when [0 <= n < 10 ^ width]. *)
Definition digitChar (n : Z) : ascii :=
  ascii_of_nat (48 + Z.to_nat (n mod 10)).

Fixpoint digits (width : nat) (n : Z) : string :=
  match width with
  | O => EmptyString
  | S w => digits w (n / 10) +++ String (digitChar n) EmptyString
  end.

(** The calendar date of a day number counted from 1970-01-01, in the
    proleptic Gregorian calendar: year, month and day of the month. *)
Definition civilFromDays (days : Z) : Z * Z * Z :=
  let z := days + 719468 in
  let era := z / 146097 in
  let doe := z - era * 146097 in
  let yoe := (doe - doe / 1460 + doe / 36524 - doe / 146096) / 365 in
  let doy := doe - (365 * yoe + yoe / 4 - yoe / 100) in
  let mp := (5 * doy + 2) / 153 in
  let d := doy - (153 * mp + 2) / 5 + 1 in
  let m := if mp <? 10 then mp + 3 else mp - 9 in
  (yoe + era * 400 + (if m <=? 2 then 1 else 0), m, d).

Definition msPerDay : Z := 86400000.

Definition yearString (y : Z) : string :=
  if (0 <=? y) && (y <=? 9999) then digits 4 y
  else (if y <? 0 then "-"%string else "+"%string) +++ digits 6 (Z.abs y).

(** The text of [toISOString] for a time value [t] in milliseconds. *)
Definition isoFormat (t : Z) : string :=
  let '(y, m, d) := civilFromDays (t / msPerDay) in
  let r := t mod msPerDay in
  yearString y +++ "-"%string +++ digits 2 m +++ "-"%string +++ digits 2 d
    +++ "T"%string +++ digits 2 (r / 3600000)
    +++ ":"%string +++ digits 2 (r / 60000 mod 60)
    +++ ":"%string +++ digits 2 (r / 1000 mod 60)
    +++ "."%string +++ digits 3 (r mod 1000) +++ "Z"%string.

(** The time values of a date lie within 100,000,000 days of the epoch; a
    date made of another number is invalid. *)
Definition maxTime : Z := 8640000000000000.

Definition validTime (t : Z) : bool := (- maxTime <=? t) && (t <=? maxTime).

(** [new Date(t).toISOString()]: it throws a [RangeError] when the date is
    invalid. *)
Definition toISOString (t : Z) : Thrown + string :=
  if validTime t then inr (isoFormat t)
  else inl (Error "Invalid time value").

(** [Array.prototype.map] with a function that can throw: the first
    element at which it throws ends the map. *)
Fixpoint mapThrowing {A B} (f : A -> Thrown + B) (l : list A)
  : Thrown + list B :=
  match l with
  | [] => inr []
  | x :: r =>
      match f x with
      | inl e => inl e
      | inr y =>
          match mapThrowing f r with
          | inl e => inl e
          | inr ys => inr (y :: ys)
          end
      end
  end.

(** [JSON.stringify]: a string in quotes, with the quote, the backslash
    and the control characters escaped. *)
Definition backslash : string := chr 92.

Definition hexDigit (n : nat) : string :=
  chr (if (n <? 10)%nat then 48 + n else 87 + n).

Definition quoteChar (c : ascii) : string :=
  let n := nat_of_ascii c in
  if (n =? 34)%nat then backslash +++ dquote
  else if (n =? 92)%nat then backslash +++ backslash
  else if (n =? 8)%nat then backslash +++ "b"%string
  else if (n =? 9)%nat then backslash +++ "t"%string
  else if (n =? 10)%nat then backslash +++ "n"%string
  else if (n =? 12)%nat then backslash +++ "f"%string
  else if (n =? 13)%nat then backslash +++ "r"%string
  else if (n <? 32)%nat
       then backslash +++ "u00"%string
              +++ hexDigit (n / 16) +++ hexDigit (n mod 16)
  else String c EmptyString.

Fixpoint quoteBody (s : string) : string :=
  match s with
  | EmptyString => EmptyString
  | String c r => quoteChar c +++ quoteBody r
  end.

Definition quote (s : string) : string := dquote +++ quoteBody s +++ dquote.

(** An object whose properties hold strings, in the order of its literal. *)
Definition StringRecord : Type := list (string * string).

(** [JSON.stringify(value, null, 2)] for an array of such objects. *)
Definition stringifyProperty (indent : string) (kv : string * string)
  : string :=
  indent +++ quote (fst kv) +++ ": "%string +++ quote (snd kv).

Definition stringifyObject (indent : string) (o : StringRecord) : string :=
  match o with
  | [] => "{}"%string
  | _ => "{"%string +++ newline
           +++ join (","%string +++ newline)
                    (map (stringifyProperty (indent +++ "  "%string)) o)
           +++ newline +++ indent +++ "}"%string
  end.

Definition stringifyArray (l : list StringRecord) : string :=
  match l with
  | [] => "[]"%string
  | _ => "["%string +++ newline
           +++ join (","%string +++ newline)
                    (map (fun o => "  "%string
                                     +++ stringifyObject "  "%string o) l)
           +++ newline +++ "]"%string
  end.

End JS.

(* ================================================================= *)
(** ** The platform: discord.js objects as the program reads them *)

Module Discord.

Record User := {
  user_id : string;
  username : string;
  tag : string;
  bot : bool
}.

Record Message := {
  message_id : string;
  author : User;
  content : string;
  createdTimestamp : Z
}.

(** The classes of channel [client.channels.fetch] can answer with;
    [instanceof TextChannel] holds of the first only. *)
Inductive ChannelClass :=
| TextChannel
| VoiceChannel
| CategoryChannel
| NewsChannel
| DMChannel.

(** [channel_guild_id] and [channel_guild_name] are [channel.guild.id] and
    [channel.guild.name]. *)
Record Channel := {
  channel_id : string;
  channel_name : string;
  channel_class : ChannelClass;
  channel_guild_id : string;
  channel_guild_name : string
}.

Definition instanceofTextChannel (c : Channel) : bool :=
  match channel_class c with TextChannel => true | _ => false end.

(** [channels_cache] is [guild.channels.cache] in enumeration order. *)
Record Guild := {
  guild_id : string;
  guild_name : string;
  channels_cache : list Channel
}.

(** The platform calls a tool invocation can make. *)
Inductive Event :=
| GuildsFetch (id : string)
| ChannelsFetch (id : string)
| MessagesFetch (channel : Channel) (limit : Z)
| ChannelSend (channel : Channel) (text : string)
| MessageReply (target : Message) (text : string).

Inductive Outcome (A : Type) :=
| Resolved (a : A)
| Rejected (e : JS.Thrown).
Arguments Resolved {A} a.
Arguments Rejected {A} e.

(** The client during one invocation. A fetch that resolves may resolve
    to a null value ([Resolved None]). [client_user] is [client.user]. *)
Record Client := {
  guilds_cache : list Guild;
  guilds_fetch : string -> Outcome (option Guild);
  channels_fetch : string -> Outcome (option Channel);
  client_user : option User;
  messages_fetch : Channel -> Z -> Outcome (list Message);
  channel_send : Channel -> string -> Outcome Message;
  message_reply : Message -> string -> Outcome Message
}.

End Discord.

Import JS Discord.

(* ================================================================= *)
(** ** Asynchronous computations *)

Definition Async (A : Type) : Type := (list Event * Outcome A)%type.

Definition ret {A} (a : A) : Async A := ([], Resolved a).

Definition throw {A} (e : Thrown) : Async A := ([], Rejected e).

Definition bind {A B} (m : Async A) (k : A -> Async B) : Async B :=
  match m with
  | (t, Resolved a) => let (t', r) := k a in (t ++ t', r)
  | (t, Rejected e) => (t, Rejected e)
  end.

(** [await] of a platform call: the call is recorded and its outcome is the
    outcome of the computation. *)
Definition await {A} (e : Event) (o : Outcome A) : Async A := ([e], o).

(** [try { m } catch { h }]. *)
Definition try_catch {A} (m : Async A) (h : Thrown -> Async A) : Async A :=
  match m with
  | (t, Resolved a) => (t, Resolved a)
  | (t, Rejected e) => let (t', r) := h e in (t ++ t', r)
  end.

Definition trace {A} (m : Async A) : list Event := fst m.
Definition outcome {A} (m : Async A) : Outcome A := snd m.

Notation "x <- m ;; k" := (bind m (fun x => k))
  (at level 61, m at next level, right associativity) : js_scope.

(* ================================================================= *)
(** ** The resolvers *)

(** [Collection.first()]. *)
Definition first {A} (l : list A) : option A := hd_error l.

(** [async function findGuild(guildIdentifier?: string)].
    [!guildIdentifier] holds of [undefined] and of the empty string. *)
Definition findGuild (client : Client) (guildIdentifier : option string)
  : Async (option Guild) :=
  match guildIdentifier with
  | None | Some EmptyString =>
      if (length (guilds_cache client) =? 1)%nat
      then ret (first (guilds_cache client))
      else ret None
  | Some guildIdentifier =>
      try_catch
        (guild <- await (GuildsFetch guildIdentifier)
                        (guilds_fetch client guildIdentifier) ;;
         match guild with
         | Some g => ret (Some g)
         | None => ret None
         end)
        (fun _ =>
           let guilds :=
             filter (fun g => String.eqb (toLowerCase (guild_name g))
                                         (toLowerCase guildIdentifier))
                    (guilds_cache client) in
           if (length guilds =? 0)%nat then ret None
           else if (length guilds =? 1)%nat then ret (first guilds)
           else ret (first guilds))
  end.

(** The predicate of the name search of [findChannel]. *)
Definition channelNameMatches (channelIdentifier : string) (channel : Channel)
  : bool :=
  instanceofTextChannel channel &&
  (String.eqb (toLowerCase (channel_name channel))
              (toLowerCase channelIdentifier)
   || String.eqb (toLowerCase (channel_name channel))
                 (replace_hash (toLowerCase channelIdentifier))).

(** The [catch] block of [findChannel]: the search by name in the guild. *)
Definition searchChannelByName (guild : Guild) (channelIdentifier : string)
  : option Channel :=
  let channels :=
    filter (channelNameMatches channelIdentifier) (channels_cache guild) in
  if (length channels =? 0)%nat then None else first channels.

(** [async function findChannel(channelIdentifier, guildIdentifier?)].
    Past the early return [guild] is not null, so the test
    [!guild || channel.guild.id === guild.id] is the comparison of the
    identifiers. *)
Definition findChannel (client : Client) (channelIdentifier : string)
  (guildIdentifier : option string) : Async (option Channel) :=
  guild <- findGuild client guildIdentifier ;;
  match guild with
  | None => ret None
  | Some guild =>
      try_catch
        (channel <- await (ChannelsFetch channelIdentifier)
                          (channels_fetch client channelIdentifier) ;;
         match channel with
         | Some channel =>
             if instanceofTextChannel channel &&
                String.eqb (channel_guild_id channel) (guild_id guild)
             then ret (Some channel)
             else ret None
         | None => ret None
         end)
        (fun _ => ret (searchChannelByName guild channelIdentifier))
  end.

(* ================================================================= *)
(** ** The conversation scanner *)

Record Conversation := {
  lastUserMessage : option Message;
  conversationContext : list Message
}.

(** [(a, b) => a.createdTimestamp - b.createdTimestamp]. *)
Definition byCreatedTimestamp (a b : Message) : Z :=
  createdTimestamp a - createdTimestamp b.

(** [!msg.author.bot && msg.author.id !== botId]. *)
Definition isUserMessage (botId : string) (msg : Message) : bool :=
  negb (bot (author msg)) && negb (String.eqb (user_id (author msg)) botId).

(** The loop [for (let i = length - 1; i >= 0; i--)] with its [break];
    [n] is [i + 1]. *)
Fixpoint scanFrom (sortedMessages : list Message) (botId : string) (n : nat)
  : option Message :=
  match n with
  | O => None
  | S i =>
      match nth_error sortedMessages i with
      | Some msg =>
          if isUserMessage botId msg then Some msg
          else scanFrom sortedMessages botId i
      | None => None
      end
  end.

(** [async function findLastUserMessage(channel, botId, contextSize)]. *)
Definition findLastUserMessage (client : Client) (channel : Channel)
  (botId : string) (contextSize : Z) : Async Conversation :=
  messages <- await (MessagesFetch channel contextSize)
                    (messages_fetch client channel contextSize) ;;
  let messageArray := messages in
  let sortedMessages := sort byCreatedTimestamp messageArray in
  ret {| lastUserMessage :=
           scanFrom sortedMessages botId (length sortedMessages);
         conversationContext := sortedMessages |}.

(** The line of one message in [formatConversation]. *)
Definition formatLine (msg : Message) : string :=
  let authorType := if bot (author msg) then "BOT"%string else "USER"%string in
  "["%string +++ authorType +++ ":"%string +++ username (author msg)
    +++ "] "%string +++ content msg.

(** [function formatConversation(messages: Message[]): string]. *)
Definition formatConversation (messages : list Message) : string :=
  join newline (map formatLine messages).

(* ================================================================= *)
(** ** Validation: the zod schemas *)

Module Zod.

(** The arguments of a tool call, as the transport decoded them. *)
Inductive JSON :=
| JNull
| JBoolean (b : bool)
| JNumber (n : Z)
| JString (s : string)
| JArray (items : list JSON)
| JObject (fields : list (string * JSON)).

(** A property read: [None] is [undefined]. *)
Fixpoint property (key : string) (fields : list (string * JSON))
  : option JSON :=
  match fields with
  | [] => None
  | (k, v) :: r => if String.eqb k key then Some v else property key r
  end.

(** zod's name for the type of the data it is given. *)
Definition parsedType (data : option JSON) : string :=
  match data with
  | None => "undefined"
  | Some JNull => "null"
  | Some (JBoolean _) => "boolean"
  | Some (JNumber _) => "number"
  | Some (JString _) => "string"
  | Some (JArray _) => "array"
  | Some (JObject _) => "object"
  end%string.

(** The default message of an [invalid_type] issue. *)
Definition invalid_type (expected : string) (data : option JSON)
  (at_path : list string) : ZodIssue :=
  {| path := at_path;
     message :=
       match data with
       | None => "Required"%string
       | Some _ => "Expected "%string +++ expected +++ ", received "%string
                     +++ parsedType data
       end |}.

(** A schema parses the data found at a path into a value or into the
    issues it raises. *)
Definition Parsed (A : Type) : Type := (list ZodIssue + A)%type.
Definition ZodType (A : Type) : Type := list string -> option JSON -> Parsed A.

Definition string_ : ZodType string := fun at_path data =>
  match data with
  | Some (JString s) => inr s
  | _ => inl [invalid_type "string" data at_path]
  end.

(** The checks [.min(n)] and [.max(n)] of a number schema, each with the
    default message of its issue. *)
Inductive NumberCheck := min (value : Z) | max (value : Z).

Definition checkNumber (at_path : list string) (n : Z) (c : NumberCheck)
  : list ZodIssue :=
  match c with
  | min value =>
      if n <? value
      then [ {| path := at_path;
                message := "Number must be greater than or equal to "%string
                             +++ numberToString value |} ]
      else []
  | max value =>
      if n >? value
      then [ {| path := at_path;
                message := "Number must be less than or equal to "%string
                             +++ numberToString value |} ]
      else []
  end.

Definition number (checks : list NumberCheck) : ZodType Z :=
  fun at_path data =>
    match data with
    | Some (JNumber n) =>
        match flat_map (checkNumber at_path n) checks with
        | [] => inr n
        | issues => inl issues
        end
    | _ => inl [invalid_type "number" data at_path]
    end.

Definition optional {A} (t : ZodType A) : ZodType (option A) :=
  fun at_path data =>
    match data with
    | None => inr None
    | Some _ =>
        match t at_path data with
        | inr a => inr (Some a)
        | inl issues => inl issues
        end
    end.

Definition default {A} (t : ZodType A) (value : JSON) : ZodType A :=
  fun at_path data =>
    match data with
    | None => t at_path (Some value)
    | Some _ => t at_path data
    end.

(** The keys of an object schema are parsed in the order of the shape and
    every issue is kept. *)
Definition pure {A} (a : A) : Parsed A := inr a.

Definition ap {A B} (f : Parsed (A -> B)) (x : Parsed A) : Parsed B :=
  match f, x with
  | inr g, inr a => inr (g a)
  | inr _, inl issues => inl issues
  | inl issues, inr _ => inl issues
  | inl issues, inl more => inl (issues ++ more)
  end.

Definition key {A} (at_path : list string) (fields : list (string * JSON))
  (name : string) (t : ZodType A) : Parsed A :=
  t (at_path ++ [name]) (property name fields).

Definition object {A}
  (shape : list string -> list (string * JSON) -> Parsed A) : ZodType A :=
  fun at_path data =>
    match data with
    | Some (JObject fields) => shape at_path fields
    | _ => inl [invalid_type "object" data at_path]
    end.

(** [schema.parse(args)]: the value, or a thrown [ZodError]. *)
Definition parse {A} (schema : ZodType A) (args : option JSON) : Async A :=
  match schema [] args with
  | inr a => ret a
  | inl issues => throw (ZodError issues)
  end.

End Zod.

Import Zod.

Notation "f <*> x" := (ap f x) (at level 62, left associativity) : js_scope.

Record SendMessageArgs := {
  send_server : option string;
  send_channel : string;
  send_message : string
}.

Record ReadMessagesArgs := {
  read_server : option string;
  read_channel : string;
  read_limit : Z
}.

Record ReplyToConversationArgs := {
  reply_server : option string;
  reply_channel : string;
  reply_message : string;
  reply_contextSize : Z
}.

Definition SendMessageSchema : ZodType SendMessageArgs :=
  object (fun p o =>
    pure Build_SendMessageArgs
      <*> key p o "server" (optional string_)
      <*> key p o "channel" string_
      <*> key p o "message" string_).

Definition ReadMessagesSchema : ZodType ReadMessagesArgs :=
  object (fun p o =>
    pure Build_ReadMessagesArgs
      <*> key p o "server" (optional string_)
      <*> key p o "channel" string_
      <*> key p o "limit" (default (number [min 1; max 100]) (JNumber 50))).

Definition ReplyToConversationSchema : ZodType ReplyToConversationArgs :=
  object (fun p o =>
    pure Build_ReplyToConversationArgs
      <*> key p o "server" (optional string_)
      <*> key p o "channel" string_
      <*> key p o "message" string_
      <*> key p o "contextSize" (default (number [min 1; max 50]) (JNumber 25))).

(* ================================================================= *)
(** ** The tool-call handler *)

Inductive ContentItem := TextContent (text : string).

Record CallToolResult := { result_content : list ContentItem }.

Definition textResult (text : string) : CallToolResult :=
  {| result_content := [TextContent text] |}.

Record CallToolRequest := {
  request_name : string;
  request_arguments : option JSON
}.

(** A value of type [string | undefined] in a condition. *)
Definition truthy (s : option string) : bool :=
  match s with
  | None | Some EmptyString => false
  | Some _ => true
  end.

(** [`"${g.name}" (${g.id})`] and [`"#${c.name}" (${c.id})`]. *)
Definition guildEntry (g : Guild) : string :=
  dquote +++ guild_name g +++ dquote +++ " ("%string +++ guild_id g
    +++ ")"%string.

Definition channelEntry (c : Channel) : string :=
  dquote +++ "#"%string +++ channel_name c +++ dquote +++ " ("%string
    +++ channel_id c +++ ")"%string.

Definition guildList (client : Client) : string :=
  join ", "%string (map guildEntry (guilds_cache client)).

(** The block [if (!channel) { ... }], which the three tools repeat with
    their own opening words [errorMsg]. *)
Definition channelNotFound (client : Client) (errorMsg : string)
  (serverIdentifier : option string) (channelIdentifier : string)
  : Async CallToolResult :=
  if negb (truthy serverIdentifier)
     && (1 <? length (guilds_cache client))%nat
  then
    ret (textResult
           (errorMsg +++ "Bot is in multiple servers. Please specify server name or ID. Available servers: "%string
              +++ guildList client))
  else
    match serverIdentifier with
    | Some (String _ _ as server) =>
        guild <- findGuild client serverIdentifier ;;
        match guild with
        | None =>
            ret (textResult
                   (errorMsg +++ "Server "%string +++ dquote +++ server
                      +++ dquote +++ " not found. Available servers: "%string
                      +++ guildList client))
        | Some guild =>
            let availableChannels :=
              join ", "%string
                   (map channelEntry
                        (filter instanceofTextChannel (channels_cache guild))) in
            ret (textResult
                   (errorMsg +++ "Channel "%string +++ dquote
                      +++ channelIdentifier +++ dquote
                      +++ " not found in server "%string +++ dquote
                      +++ guild_name guild +++ dquote
                      +++ ". Available channels: "%string
                      +++ availableChannels))
        end
    | _ =>
        ret (textResult
               (errorMsg +++ "Channel "%string +++ dquote +++ channelIdentifier
                  +++ dquote +++ " not found."%string))
    end.

(** The object built for one message by [read-messages]; [msg.createdAt] is
    the date of [msg.createdTimestamp]. *)
Definition formatMessage (channel : Channel) (msg : Message)
  : Thrown + StringRecord :=
  match toISOString (createdTimestamp msg) with
  | inl e => inl e
  | inr timestamp =>
      inr [ ("channel"%string, "#"%string +++ channel_name channel);
            ("server"%string, channel_guild_name channel);
            ("author"%string, tag (author msg));
            ("content"%string, content msg);
            ("timestamp"%string, timestamp) ]
  end.

Definition sendMessage (client : Client) (args : option JSON)
  : Async CallToolResult :=
  a <- parse SendMessageSchema args ;;
  channel <- findChannel client (send_channel a) (send_server a) ;;
  match channel with
  | None =>
      channelNotFound client "Could not send message: "
                      (send_server a) (send_channel a)
  | Some channel =>
      sent <- await (ChannelSend channel (send_message a))
                    (channel_send client channel (send_message a)) ;;
      ret (textResult
             ("Message sent successfully to #"%string +++ channel_name channel
                +++ " in "%string +++ channel_guild_name channel
                +++ ". Message ID: "%string +++ message_id sent))
  end.

Definition readMessages (client : Client) (args : option JSON)
  : Async CallToolResult :=
  a <- parse ReadMessagesSchema args ;;
  channel <- findChannel client (read_channel a) (read_server a) ;;
  match channel with
  | None =>
      channelNotFound client "Could not read messages: "
                      (read_server a) (read_channel a)
  | Some channel =>
      messages <- await (MessagesFetch channel (read_limit a))
                        (messages_fetch client channel (read_limit a)) ;;
      match mapThrowing (formatMessage channel) messages with
      | inl e => throw e
      | inr formattedMessages =>
          ret (textResult (stringifyArray formattedMessages))
      end
  end.

(** [client.user!.id] throws a [TypeError] when [client.user] is null. *)
Definition clientUserId (client : Client) : Async string :=
  match client_user client with
  | Some u => ret (user_id u)
  | None => throw (Error "Cannot read properties of null (reading 'id')")
  end.

Definition replyToConversation (client : Client) (args : option JSON)
  : Async CallToolResult :=
  a <- parse ReplyToConversationSchema args ;;
  let contextSize := reply_contextSize a in
  channel <- findChannel client (reply_channel a) (reply_server a) ;;
  match channel with
  | None =>
      channelNotFound client "Could not reply to conversation: "
                      (reply_server a) (reply_channel a)
  | Some channel =>
      botId <- clientUserId client ;;
      r <- findLastUserMessage client channel botId contextSize ;;
      match lastUserMessage r with
      | None =>
          ret (textResult
                 ("No non-bot user messages found in the last "%string
                    +++ numberToString contextSize
                    +++ " messages in #"%string +++ channel_name channel
                    +++ "."%string))
      | Some target =>
          let conversationText := formatConversation (conversationContext r) in
          sent <- await (MessageReply target (reply_message a))
                        (message_reply client target (reply_message a)) ;;
          ret (textResult
                 ("Replied to "%string +++ username (author target)
                    +++ " in #"%string +++ channel_name channel
                    +++ ". Message ID: "%string +++ message_id sent
                    +++ newline +++ newline
                    +++ "Conversation Context:"%string +++ newline
                    +++ conversationText))
      end
  end.

(** The text of the error thrown for a [ZodError]. *)
Definition issueText (e : ZodIssue) : string :=
  join "."%string (path e) +++ ": "%string +++ message e.

Definition invalidArguments (errors : list ZodIssue) : string :=
  "Invalid arguments: "%string +++ join ", "%string (map issueText errors).

(** [server.setRequestHandler(CallToolRequestSchema, async (request) => ...)]. *)
Definition callTool (client : Client) (request : CallToolRequest)
  : Async CallToolResult :=
  let name := request_name request in
  let args := request_arguments request in
  try_catch
    (if String.eqb name "send-message" then sendMessage client args
     else if String.eqb name "read-messages" then readMessages client args
     else if String.eqb name "reply-to-conversation"
          then replyToConversation client args
     else throw (Error ("Unknown tool: "%string +++ name)))
    (fun error =>
       match error with
       | ZodError errors => throw (Error (invalidArguments errors))
       | _ => throw error
       end).

(* ================================================================= *)
(** ** A sample platform

    Two servers, Alpha and Beta. Alpha has the text channels general and
    555 and a voice channel whose identifier is 555; Beta has one text
    channel. The sample is used to run the program on concrete requests. *)

Module Sample.

Definition user (id name : string) (automated : bool) : User :=
  {| user_id := id; username := name;
     tag := name +++ "#0001"%string; bot := automated |}.

Definition helper : User := user "900" "helper" true.
Definition relay : User := user "901" "relay" true.
Definition jane : User := user "700" "Jane" false.

Definition text (id : string) (who : User) (body : string) (at_ms : Z)
  : Message :=
  {| message_id := id; author := who; content := body;
     createdTimestamp := at_ms |}.

Definition general : Channel :=
  {| channel_id := "101"; channel_name := "general";
     channel_class := TextChannel;
     channel_guild_id := "1"; channel_guild_name := "Alpha" |}.

Definition lounge : Channel :=
  {| channel_id := "555"; channel_name := "lounge";
     channel_class := VoiceChannel;
     channel_guild_id := "1"; channel_guild_name := "Alpha" |}.

Definition numbered : Channel :=
  {| channel_id := "102"; channel_name := "555";
     channel_class := TextChannel;
     channel_guild_id := "1"; channel_guild_name := "Alpha" |}.

Definition plans : Channel :=
  {| channel_id := "201"; channel_name := "plans";
     channel_class := TextChannel;
     channel_guild_id := "2"; channel_guild_name := "Beta" |}.

Definition alpha : Guild :=
  {| guild_id := "1"; guild_name := "Alpha";
     channels_cache := [general; lounge; numbered] |}.

Definition beta : Guild :=
  {| guild_id := "2"; guild_name := "Beta"; channels_cache := [plans] |}.




(** A fourth server, École, whose names have letters outside ASCII. *)
Definition cafe : Channel :=
  {| channel_id := "401"; channel_name := "CAFÉ";
     channel_class := TextChannel;
     channel_guild_id := "4"; channel_guild_name := "École" |}.

Definition ecole : Guild :=
  {| guild_id := "4"; guild_name := "École"; channels_cache := [cafe] |}.

(** What the client answers when it is joined to [guilds] and the newest
    messages of every channel are [recent], newest first. *)
Definition platform (guilds : list Guild) (recent : list Message) : Client :=
  {| guilds_cache := guilds;
     guilds_fetch := fun id =>
       match find (fun g => String.eqb (guild_id g) id) guilds with
       | Some g => Resolved (Some g)
       | None => Rejected (Error "Unknown Guild")
       end;
     channels_fetch := fun id =>
       match find (fun c => String.eqb (channel_id c) id)
                  (flat_map channels_cache guilds) with
       | Some c => Resolved (Some c)
       | None => Rejected (Error "Unknown Channel")
       end;
     client_user := Some helper;
     messages_fetch := fun _ limit =>
       Resolved (firstn (Z.to_nat limit) recent);
     channel_send := fun _ body =>
       Resolved (text "3001" helper body 1700000100000);
     message_reply := fun _ body =>
       Resolved (text "3002" helper body 1700000100000) |}.

(** Three messages as the platform delivers them, newest first: one of
    the bot, one of another automated author, one of Jane. *)
Definition recent : list Message :=
  [ text "2003" helper "done" 1700000003000;
    text "2002" relay "build passed" 1700000002000;
    text "2001" jane "ok" 1700000001000 ].

Definition automatedOnly : list Message :=
  [ text "2003" helper "done" 1700000003000;
    text "2002" relay "build passed" 1700000002000 ].

(** Two messages of which the older has a time that no [Date] holds. *)
Definition undated : list Message :=
  [ text "2003" helper "done" 1700000003000;
    text "2000" jane "lost" 8640000000000001 ].

Definition request (name : string) (fields : list (string * JSON))
  : CallToolRequest :=
  {| request_name := name; request_arguments := Some (JObject fields) |}.

End Sample.

(* ================================================================= *)
(** ** Vocabulary of the properties *)

(** The reference is the identifier of a text channel the platform knows. *)
Definition knownTextChannel (client : Client) (reference : string)
  (channel : Channel) : Prop :=
  channels_fetch client reference = Resolved (Some channel)
  /\ channel_id channel = reference
  /\ instanceofTextChannel channel = true.

(** The server hint, when one is given, resolves to the guild that owns the
    channel. *)
Definition hintMatches (client : Client) (hint : option string)
  (channel : Channel) : Prop :=
  truthy hint = true ->
  exists t guild,
    findGuild client hint = (t, Resolved (Some guild))
    /\ guild_id guild = channel_guild_id channel.

(** The lookup of the reference as an identifier fails. *)
Definition lookupFails (client : Client) (reference : string) : Prop :=
  exists e, channels_fetch client reference = Rejected e.










(** A text names every joined server, or every text channel of a guild. *)
Definition listsServers (client : Client) (text : string) : Prop :=
  forall g, In g (guilds_cache client) ->
            includes text (guild_name g) = true
            /\ includes text (guild_id g) = true.

Definition listsChannels (guild : Guild) (text : string) : Prop :=
  forall c, In c (channels_cache guild) ->
            instanceofTextChannel c = true ->
            includes text (channel_name c) = true
            /\ includes text (channel_id c) = true.

Definition enumeratesServersOrChannels (client : Client) (text : string)
  : Prop :=
  listsServers client text
  \/ exists g, In g (guilds_cache client) /\ listsChannels g text.

(** The text of a result that holds one text item. *)
Definition resultText (r : CallToolResult) : option string :=
  match result_content r with
  | [TextContent text] => Some text
  | _ => None
  end.

(** The first message was created no later than the second. *)
Definition notNewer (a b : Message) : Prop :=
  createdTimestamp a <= createdTimestamp b.

(** The server and channel references of a request whose arguments its
    tool's schema accepts. *)
Definition requestedChannel (request : CallToolRequest)
  : option (option string * string) :=
  let args := request_arguments request in
  if String.eqb (request_name request) "send-message" then
    match SendMessageSchema [] args with
    | inr a => Some (send_server a, send_channel a)
    | inl _ => None
    end
  else if String.eqb (request_name request) "read-messages" then
    match ReadMessagesSchema [] args with
    | inr a => Some (read_server a, read_channel a)
    | inl _ => None
    end
  else if String.eqb (request_name request) "reply-to-conversation" then
    match ReplyToConversationSchema [] args with
    | inr a => Some (reply_server a, reply_channel a)
    | inl _ => None
    end
  else None.

(** The issues of a request whose arguments its tool's schema refuses. *)
Definition schemaIssues (request : CallToolRequest) : option (list ZodIssue) :=
  let args := request_arguments request in
  let refused {A} (r : Parsed A) :=
    match r with inl issues => Some issues | inr _ => None end in
  if String.eqb (request_name request) "send-message"
  then refused (SendMessageSchema [] args)
  else if String.eqb (request_name request) "read-messages"
  then refused (ReadMessagesSchema [] args)
  else if String.eqb (request_name request) "reply-to-conversation"
  then refused (ReplyToConversationSchema [] args)
  else None.

(** The words a tool's diagnostic opens with. *)
Definition opening (name : string) : string :=
  if String.eqb name "send-message" then "Could not send message: "%string
  else if String.eqb name "read-messages" then "Could not read messages: "%string
  else "Could not reply to conversation: "%string.

(** The platform calls that write to the platform. *)
Definition writes (e : Event) : bool :=
  match e with
  | ChannelSend _ _ | MessageReply _ _ => true
  | _ => false
  end.

(** Reading back a date written as YYYY-MM-DDTHH:mm:ss.sssZ, or with a
    sign and six digits for the year (the expanded years of ISO 8601). *)
Record DateTime := {
  year : Z;
  month : Z;
  day : Z;
  hours : Z;
  minutes : Z;
  seconds : Z;
  milliseconds : Z
}.

Definition digitValue (c : ascii) : option Z :=
  let n := nat_of_ascii c in
  if ((48 <=? n) && (n <=? 57))%nat then Some (Z.of_nat (n - 48)) else None.

Fixpoint readNumber (acc : Z) (cs : list ascii) : option Z :=
  match cs with
  | [] => Some acc
  | c :: r =>
      match digitValue c with
      | Some v => readNumber (10 * acc + v) r
      | None => None
      end
  end.

(** What follows the year. *)
Definition readAfterYear (y : Z) (cs : list ascii) : option DateTime :=
  match cs with
  | [p1; m1; m2; p2; d1; d2; p3; h1; h2; p4; n1; n2; p5;
     s1; s2; p6; f1; f2; f3; p7] =>
      if Ascii.eqb p1 "-" && Ascii.eqb p2 "-" && Ascii.eqb p3 "T"
         && Ascii.eqb p4 ":" && Ascii.eqb p5 ":" && Ascii.eqb p6 "."
         && Ascii.eqb p7 "Z"
      then
        match readNumber 0 [m1; m2], readNumber 0 [d1; d2],
              readNumber 0 [h1; h2], readNumber 0 [n1; n2],
              readNumber 0 [s1; s2], readNumber 0 [f1; f2; f3] with
        | Some m, Some d, Some h, Some n, Some sec, Some f =>
            Some {| year := y; month := m; day := d; hours := h;
                    minutes := n; seconds := sec; milliseconds := f |}
        | _, _, _, _, _, _ => None
        end
      else None
  | _ => None
  end.

Definition readISO (s : string) : option DateTime :=
  match list_ascii_of_string s with
  | c :: y1 :: y2 :: y3 :: r =>
      if Ascii.eqb c "+" || Ascii.eqb c "-" then
        match r with
        | y4 :: y5 :: y6 :: r' =>
            match readNumber 0 [y1; y2; y3; y4; y5; y6] with
            | Some y =>
                if Ascii.eqb c "+" then readAfterYear y r'
                else if y =? 0 then None
                else readAfterYear (- y) r'
            | None => None
            end
        | _ => None
        end
      else
        match readNumber 0 [c; y1; y2; y3] with
        | Some y => readAfterYear y r
        | None => None
        end
  | _ => None
  end.

(** The date is one of the calendar and the time one of the day. *)
Definition validDateTime (dt : DateTime) : bool :=
  (1 <=? month dt) && (month dt <=? 12)
  && (1 <=? day dt) && (day dt <=? 31)
  && (0 <=? hours dt) && (hours dt <=? 23)
  && (0 <=? minutes dt) && (minutes dt <=? 59)
  && (0 <=? seconds dt) && (seconds dt <=? 59)
  && (0 <=? milliseconds dt) && (milliseconds dt <=? 999).

(** A text is an ISO-8601 date and time in UTC, to the millisecond. *)
Definition isISO8601 (s : string) : bool :=
  match readISO s with
  | Some dt => validDateTime dt
  | None => false
  end.

(** Reading back a JSON text that is an array of objects whose properties
    hold strings: first its tokens, then its structure. *)
Inductive Token :=
| LeftBracket
| RightBracket
| LeftBrace
| RightBrace
| Comma
| Colon
| Text (s : string).

(** Where the reader stands: between tokens, within a string, after a
    backslash, or after [\u] with the hexadecimal digits read so far. *)
Inductive Lexing :=
| Between
| Within (read : string)
| Escaped (read : string)
| Hexadecimal (read : string) (digits_ : list Z).

Definition hexValue (c : ascii) : option Z :=
  let n := byteOf c in
  if (48 <=? n) && (n <=? 57) then Some (n - 48)
  else if (97 <=? n) && (n <=? 102) then Some (n - 87)
  else if (65 <=? n) && (n <=? 70) then Some (n - 55)
  else None.

Definition add (read : string) (c : ascii) : string :=
  read +++ String c EmptyString.

(** One character further; the tokens are kept newest first. *)
Definition lexStep (state : Lexing * list Token) (c : ascii)
  : option (Lexing * list Token) :=
  let n := byteOf c in
  match state with
  | (Between, ts) =>
      if (n =? 32) || (n =? 9) || (n =? 10) || (n =? 13) then Some state
      else if n =? 91 then Some (Between, LeftBracket :: ts)
      else if n =? 93 then Some (Between, RightBracket :: ts)
      else if n =? 123 then Some (Between, LeftBrace :: ts)
      else if n =? 125 then Some (Between, RightBrace :: ts)
      else if n =? 44 then Some (Between, Comma :: ts)
      else if n =? 58 then Some (Between, Colon :: ts)
      else if n =? 34 then Some (Within EmptyString, ts)
      else None
  | (Within read, ts) =>
      if n =? 34 then Some (Between, Text read :: ts)
      else if n =? 92 then Some (Escaped read, ts)
      else if n <? 32 then None
      else Some (Within (add read c), ts)
  | (Escaped read, ts) =>
      if (n =? 34) || (n =? 92) || (n =? 47) then Some (Within (add read c), ts)
      else if n =? 98 then Some (Within (add read (asciiOf 8)), ts)
      else if n =? 102 then Some (Within (add read (asciiOf 12)), ts)
      else if n =? 110 then Some (Within (add read (asciiOf 10)), ts)
      else if n =? 114 then Some (Within (add read (asciiOf 13)), ts)
      else if n =? 116 then Some (Within (add read (asciiOf 9)), ts)
      else if n =? 117 then Some (Hexadecimal read [], ts)
      else None
  | (Hexadecimal read ds, ts) =>
      match hexValue c with
      | None => None
      | Some h =>
          match ds with
          | [h1; h2; h3] =>
              let v := ((h1 * 16 + h2) * 16 + h3) * 16 + h in
              if (0xD800 <=? v) && (v <=? 0xDFFF) then None
              else Some (Within (read +++ stringOf (encodeElement (Scalar v))),
                         ts)
          | _ => Some (Hexadecimal read (ds ++ [h]), ts)
          end
      end
  end.

Fixpoint lexFrom (state : Lexing * list Token) (s : string)
  : option (Lexing * list Token) :=
  match s with
  | EmptyString => Some state
  | String c r =>
      match lexStep state c with
      | Some next => lexFrom next r
      | None => None
      end
  end.

(** Where the reader of the structure stands, with the objects that are
    complete and the properties of the object that is open. *)
Inductive Parsing :=
| AtStart
| ArrayOpened
| ObjectOpened (complete : list StringRecord)
| KeyRead (complete : list StringRecord) (open : StringRecord) (k : string)
| ColonRead (complete : list StringRecord) (open : StringRecord) (k : string)
| ValueRead (complete : list StringRecord) (open : StringRecord)
| KeyDue (complete : list StringRecord) (open : StringRecord)
| ObjectClosed (complete : list StringRecord)
| ObjectDue (complete : list StringRecord)
| AtEnd (complete : list StringRecord).

Definition parseStep (state : Parsing) (t : Token) : option Parsing :=
  match state, t with
  | AtStart, LeftBracket => Some ArrayOpened
  | ArrayOpened, RightBracket => Some (AtEnd [])
  | ArrayOpened, LeftBrace => Some (ObjectOpened [])
  | ObjectOpened complete, RightBrace => Some (ObjectClosed (complete ++ [[]]))
  | ObjectOpened complete, Text k => Some (KeyRead complete [] k)
  | KeyRead complete open k, Colon => Some (ColonRead complete open k)
  | ColonRead complete open k, Text v =>
      Some (ValueRead complete (open ++ [(k, v)]))
  | ValueRead complete open, Comma => Some (KeyDue complete open)
  | ValueRead complete open, RightBrace =>
      Some (ObjectClosed (complete ++ [open]))
  | KeyDue complete open, Text k => Some (KeyRead complete open k)
  | ObjectClosed complete, Comma => Some (ObjectDue complete)
  | ObjectClosed complete, RightBracket => Some (AtEnd complete)
  | ObjectDue complete, LeftBrace => Some (ObjectOpened complete)
  | _, _ => None
  end.

Fixpoint parseFrom (state : Parsing) (ts : list Token) : option Parsing :=
  match ts with
  | [] => Some state
  | t :: r =>
      match parseStep state t with
      | Some next => parseFrom next r
      | None => None
      end
  end.

(** The array of objects that a JSON text denotes. *)
Definition readJSON (text : string) : option (list StringRecord) :=
  match lexFrom (Between, []) text with
  | Some (Between, ts) =>
      match parseFrom AtStart (rev ts) with
      | Some (AtEnd complete) => Some complete
      | _ => None
      end
  | _ => None
  end.

(** The tokens of the text that [stringifyArray] writes. *)
Fixpoint joinTokens (sep : list Token) (l : list (list Token)) : list Token :=
  match l with
  | [] => []
  | [x] => x
  | x :: r => x ++ sep ++ joinTokens sep r
  end.

Definition propertyTokens (kv : string * string) : list Token :=
  [Text (fst kv); Colon; Text (snd kv)].

Definition objectTokens (o : StringRecord) : list Token :=
  match o with
  | [] => [LeftBrace; RightBrace]
  | _ => LeftBrace :: joinTokens [Comma] (map propertyTokens o) ++ [RightBrace]
  end.

Definition arrayTokens (l : list StringRecord) : list Token :=
  match l with
  | [] => [LeftBracket; RightBracket]
  | _ => LeftBracket :: joinTokens [Comma] (map objectTokens l)
           ++ [RightBracket]
  end.

(** A text that is read, between tokens, as the tokens [ts]. *)
Definition lexes (text : string) (ts : list Token) : Prop :=
  forall before,
    lexFrom (Between, before) text = Some (Between, rev ts ++ before).

(** The object that [read-messages] builds for a message whose date is
    valid. *)
Definition formatted (channel : Channel) (msg : Message) : StringRecord :=
  [ ("channel"%string, "#"%string +++ channel_name channel);
    ("server"%string, channel_guild_name channel);
    ("author"%string, tag (author msg));
    ("content"%string, content msg);
    ("timestamp"%string, isoFormat (createdTimestamp msg)) ].

Definition validDates (window : list Message) : bool :=
  forallb (fun msg => validTime (createdTimestamp msg)) window.

(* ================================================================= *)
(** ** The list of tools *)

(** A property of an [inputSchema] and a tool as [ListToolsRequestSchema]
    is answered. *)
Record PropertySchema := {
  property_type : string;
  property_description : string;
  property_default : option JSON
}.

Record Tool := {
  tool_name : string;
  tool_description : string;
  tool_properties : list (string * PropertySchema);
  tool_required : list string
}.

Definition serverProperty : string * PropertySchema :=
  ("server"%string,
   {| property_type := "string";
      property_description :=
        "Server name or ID (optional if bot is only in one server)";
      property_default := None |}).

Definition channelProperty : string * PropertySchema :=
  ("channel"%string,
   {| property_type := "string";
      property_description :=
        "Channel name (e.g., "%string +++ dquote +++ "general"%string
          +++ dquote +++ ") or ID"%string;
      property_default := None |}).

(** [server.setRequestHandler(ListToolsRequestSchema, async () => ...)]. *)
Definition listTools : list Tool :=
  [ {| tool_name := "send-message";
       tool_description := "Send a message to a Discord channel";
       tool_properties :=
         [ serverProperty; channelProperty;
           ("message"%string,
            {| property_type := "string";
               property_description := "Message content to send";
               property_default := None |}) ];
       tool_required := ["channel"%string; "message"%string] |};
    {| tool_name := "read-messages";
       tool_description := "Read recent messages from a Discord channel";
       tool_properties :=
         [ serverProperty; channelProperty;
           ("limit"%string,
            {| property_type := "number";
               property_description := "Number of messages to fetch (max 100)";
               property_default := Some (JNumber 50) |}) ];
       tool_required := ["channel"%string] |};
    {| tool_name := "reply-to-conversation";
       tool_description := "Reply to the last non-bot user in the conversation";
       tool_properties :=
         [ serverProperty; channelProperty;
           ("message"%string,
            {| property_type := "string";
               property_description := "Reply message content";
               property_default := None |});
           ("contextSize"%string,
            {| property_type := "number";
               property_description :=
                 "Number of messages to analyze for context (max 50)";
               property_default := Some (JNumber 25) |}) ];
       tool_required := ["channel"%string; "message"%string] |} ].

(* ================================================================= *)
(** ** Startup *)

Module Startup.

(** What the process does to its surroundings while it starts. *)
Inductive Step :=
| Login (token : string)
| Connect
| ConsoleError (text : string) (value : option Thrown)
| Exit (code : Z).

(** The surroundings of [main]: the environment variable, and what the
    login of the client and the connection of the transport answer. *)
Record Process := {
  DISCORD_TOKEN : option string;
  client_login : string -> Outcome string;
  server_connect : Outcome unit
}.

(** How [main] ends: it returns with the server running, the process has
    exited, or its promise is rejected. *)
Inductive Ending :=
| Running
| Exited (code : Z)
| Thrown_ (e : Thrown).

(** The [catch] block of [main]. *)
Definition fatal (error : Thrown) : list Step * Ending :=
  ([ConsoleError "Fatal error in main():" (Some error); Exit 1], Exited 1).

(** [async function main()]. [!token] holds of an unset variable and of
    the empty string; the check stands before the [try]. *)
Definition main (p : Process) : list Step * Ending :=
  match DISCORD_TOKEN p with
  | None | Some EmptyString =>
      ([], Thrown_ (Error "DISCORD_TOKEN environment variable is not set"))
  | Some token =>
      match client_login p token with
      | Rejected error =>
          let (steps, ending) := fatal error in (Login token :: steps, ending)
      | Resolved _ =>
          match server_connect p with
          | Rejected error =>
              let (steps, ending) := fatal error in
              (Login token :: Connect :: steps, ending)
          | Resolved _ =>
              ([ Login token; Connect;
                 ConsoleError "Discord MCP Server running on stdio" None ],
               Running)
          end
      end
  end.

End Startup.

(* ================================================================= *)
(** ** Further vocabulary *)

(** The guild is named by the reference, letter case aside. *)
Definition guildNamed (reference : string) (g : Guild) : bool :=
  String.eqb (toLowerCase (guild_name g)) (toLowerCase reference).

(** [x] is the first element of [l] that satisfies [p]. *)
Definition firstSuch {A} (p : A -> bool) (l : list A) (x : A) : Prop :=
  exists before after,
    l = before ++ x :: after
    /\ p x = true
    /\ forallb (fun y => negb (p y)) before = true.

(** What a schema reads from an optional string, and from a number with a
    default and bounds. *)
Definition optionalString (v : option JSON) (o : option string) : Prop :=
  (v = None /\ o = None) \/ exists s, v = Some (JString s) /\ o = Some s.

Definition boundedNumber (v : option JSON) (default_ low high n : Z) : Prop :=
  (v = None /\ n = default_) \/ (v = Some (JNumber n) /\ low <= n <= high).

(** The number of messages a request asks for, when its tool fetches
    messages and its schema accepts the arguments. *)
Definition requestedWindow (request : CallToolRequest) : option Z :=
  let args := request_arguments request in
  if String.eqb (request_name request) "read-messages" then
    match ReadMessagesSchema [] args with
    | inr a => Some (read_limit a)
    | inl _ => None
    end
  else if String.eqb (request_name request) "reply-to-conversation" then
    match ReplyToConversationSchema [] args with
    | inr a => Some (reply_contextSize a)
    | inl _ => None
    end
  else None.

(** What the handler throws for a value thrown inside it. *)
Definition rethrown (e : Thrown) : Thrown :=
  match e with
  | ZodError errors => Error (invalidArguments errors)
  | Error _ => e
  end.

(** The shape of the calls of one invocation: reads, then at most one
    write, which the tool named decides. *)
Definition writesOnce (name : string) (t : list Event) : Prop :=
  exists reads ws,
    t = reads ++ ws
    /\ filter writes reads = []
    /\ (ws = []
        \/ (name = "send-message"%string
            /\ exists channel text, ws = [ChannelSend channel text])
        \/ (name = "reply-to-conversation"%string
            /\ exists target text, ws = [MessageReply target text])).

(** The arguments are an object. *)
Definition isObject (args : option JSON) : bool :=
  match args with
  | Some (JObject _) => true
  | _ => false
  end.

(** A further server of the sample, whose name is the identifier of Alpha,
    and a voice channel and a text channel of one name. *)
Module SampleMore.

Definition delta : Guild :=
  {| guild_id := "4"; guild_name := "1"; channels_cache := [] |}.

Definition alphaAgain : Guild :=
  {| guild_id := "5"; guild_name := "ALPHA"; channels_cache := [] |}.

Definition voiceGeneral : Channel :=
  {| channel_id := "601"; channel_name := "General";
     channel_class := VoiceChannel;
     channel_guild_id := "6"; channel_guild_name := "Epsilon" |}.

Definition textGeneral : Channel :=
  {| channel_id := "602"; channel_name := "general";
     channel_class := TextChannel;
     channel_guild_id := "6"; channel_guild_name := "Epsilon" |}.

Definition textGeneralToo : Channel :=
  {| channel_id := "603"; channel_name := "GENERAL";
     channel_class := TextChannel;
     channel_guild_id := "6"; channel_guild_name := "Epsilon" |}.

Definition epsilon : Guild :=
  {| guild_id := "6"; guild_name := "Epsilon";
     channels_cache := [voiceGeneral; textGeneral; textGeneralToo] |}.

(** A platform like [Sample.platform] whose writes and message fetches are
    refused with a message. *)
Definition refusing (guilds : list Guild) (reason : string) : Client :=
  {| guilds_cache := guilds;
     guilds_fetch := guilds_fetch (Sample.platform guilds []);
     channels_fetch := channels_fetch (Sample.platform guilds []);
     client_user := Some Sample.helper;
     messages_fetch := fun _ _ => Rejected (Error reason);
     channel_send := fun _ _ => Rejected (Error reason);
     message_reply := fun _ _ => Rejected (Error reason) |}.

(** A platform like [Sample.platform] whose client has no user yet. *)
Definition notReady (guilds : list Guild) (recent : list Message) : Client :=
  {| guilds_cache := guilds;
     guilds_fetch := guilds_fetch (Sample.platform guilds recent);
     channels_fetch := channels_fetch (Sample.platform guilds recent);
     client_user := None;
     messages_fetch := messages_fetch (Sample.platform guilds recent);
     channel_send := channel_send (Sample.platform guilds recent);
     message_reply := message_reply (Sample.platform guilds recent) |}.

(** Two messages created in the same millisecond between two others. *)
Definition tied : list Message :=
  [ Sample.text "2004" Sample.jane "d" 1700000002000;
    Sample.text "2003" Sample.relay "c" 1700000001000;
    Sample.text "2002" Sample.jane "b" 1700000001000;
    Sample.text "2001" Sample.helper "a" 1700000000000 ].

End SampleMore.

(* ================================================================= *)
(** ** Properties of the resolvers *)

Section Resolvers.

Variable client : Client.

(** [findGuild] catches what its fetch throws: it always resolves. *)
Lemma findGuild_resolves guildIdentifier :
  exists t g, findGuild client guildIdentifier = (t, Resolved g).
Proof.
  unfold findGuild.
  destruct guildIdentifier as [[|c s]|].
  1,3: destruct (length (guilds_cache client) =? 1)%nat; eexists; eexists; reflexivity.
  unfold try_catch, bind, await.
  destruct (guilds_fetch client (String c s)) as [[g|]|e]; simpl.
  1,2: eexists; eexists; reflexivity.
  repeat match goal with |- context [if ?b then _ else _] => destruct b end;
    eexists; eexists; reflexivity.
Qed.

(** With the guild resolved, [findChannel] awaits one channel fetch, and
    its answer decides which of the two ways the channel is found. *)
Lemma findChannel_resolved channelIdentifier guildIdentifier t guild :
  findGuild client guildIdentifier = (t, Resolved (Some guild)) ->
  findChannel client channelIdentifier guildIdentifier =
    (t ++ [ChannelsFetch channelIdentifier],
     Resolved
       match channels_fetch client channelIdentifier with
       | Resolved (Some channel) =>
           if instanceofTextChannel channel &&
              String.eqb (channel_guild_id channel) (guild_id guild)
           then Some channel else None
       | Resolved None => None
       | Rejected _ => searchChannelByName guild channelIdentifier
       end).
Proof.
  intros Hg. unfold findChannel. rewrite Hg.
  unfold bind, try_catch, await, ret.
  destruct (channels_fetch client channelIdentifier) as [[c|]|e]; simpl.
  - destruct (instanceofTextChannel c && _); reflexivity.
  - reflexivity.
  - reflexivity.
Qed.

Lemma findChannel_unresolved channelIdentifier guildIdentifier t :
  findGuild client guildIdentifier = (t, Resolved None) ->
  findChannel client channelIdentifier guildIdentifier = (t, Resolved None).
Proof.
  intros Hg. unfold findChannel. rewrite Hg. simpl.
  rewrite app_nil_r. reflexivity.
Qed.

Lemma findChannel_resolves channelIdentifier guildIdentifier :
  exists t c,
    findChannel client channelIdentifier guildIdentifier = (t, Resolved c).
Proof.
  destruct (findGuild_resolves guildIdentifier) as (t & [g|] & Hg).
  - rewrite (findChannel_resolved _ _ _ _ Hg). eauto.
  - rewrite (findChannel_unresolved _ _ _ Hg). eauto.
Qed.

End Resolvers.

Lemma findGuild_absent_unless_single (client : Client) :
  length (guilds_cache client) <> 1%nat ->
  findGuild client None = ([], Resolved None).
Proof.
  intros Hn. unfold findGuild.
  destruct (Nat.eqb_spec (length (guilds_cache client)) 1); [contradiction |].
  reflexivity.
Qed.

(** C2. With no server reference, [findGuild] returns a server exactly when
    the client is joined to exactly one server, and that server is the one
    joined; joined to none or to several, it returns null. It awaits no
    platform call. *)
Theorem findGuild_absent_single (client : Client) :
  (forall g, findGuild client None = ([], Resolved (Some g))
             <-> guilds_cache client = [g])
  /\ (findGuild client None = ([], Resolved None)
      <-> length (guilds_cache client) <> 1%nat).
Proof.
  unfold findGuild, ret, first.
  destruct (guilds_cache client) as [|g0 [|g1 r]]; simpl; split.
  - intros g; split; discriminate.
  - split; [intros _; discriminate | reflexivity].
  - intros g; split; intros H; inversion H; reflexivity.
  - split; [discriminate | intros H; exfalso; apply H; reflexivity].
  - intros g; split; discriminate.
  - split; [intros _; discriminate | reflexivity].
Qed.

(** Joined to Alpha alone, Alpha is returned; joined to Alpha and Beta,
null is. *)
Lemma findGuild_absent_single_witness :
  findGuild (Sample.platform [Sample.alpha] []) None
    = ([], Resolved (Some Sample.alpha))
  /\ findGuild (Sample.platform [Sample.alpha; Sample.beta] []) None
     = ([], Resolved None).
Proof.
  split.
  - apply (proj1 (findGuild_absent_single (Sample.platform [Sample.alpha] []))
             Sample.alpha).
    reflexivity.
  - apply (proj2 (findGuild_absent_single
                    (Sample.platform [Sample.alpha; Sample.beta] []))).
    simpl. discriminate.
Defined.

(** C10. When the channel fetch by identifier resolves to a channel that is
    not a text channel, or whose guild is not the resolved guild (the hinted
    one, or the single joined one when no hint is given), [findChannel]
    returns null after that one fetch: the result is null whatever the
    search by name in the guild's channels would find. *)
Theorem findChannel_fetched_not_accepted
  (client : Client) (channelIdentifier : string)
  (guildIdentifier : option string) (t : list Event) (guild : Guild)
  (fetched : Channel) :
  findGuild client guildIdentifier = (t, Resolved (Some guild)) ->
  channels_fetch client channelIdentifier = Resolved (Some fetched) ->
  instanceofTextChannel fetched = false
    \/ channel_guild_id fetched <> guild_id guild ->
  findChannel client channelIdentifier guildIdentifier
    = (t ++ [ChannelsFetch channelIdentifier], Resolved None).
Proof.
  intros Hg Hf Hno.
  rewrite (findChannel_resolved client _ _ _ _ Hg), Hf.
  destruct Hno as [Hk | Hid].
  - rewrite Hk. reflexivity.
  - apply String.eqb_neq in Hid. rewrite Hid, andb_false_r. reflexivity.
Qed.

(** The identifier 555 is that of a voice channel of Alpha, and the name of
    one of its text channels: the fetch resolves, and the text channel that
    the search by name finds is not returned. *)
Lemma findChannel_fetched_not_accepted_witness :
  searchChannelByName Sample.alpha "555" = Some Sample.numbered
  /\ findChannel (Sample.platform [Sample.alpha] []) "555" None
     = ([ChannelsFetch "555"%string], Resolved None).
Proof.
  split; [reflexivity |].
  apply (findChannel_fetched_not_accepted
           (Sample.platform [Sample.alpha] []) "555" None []
           Sample.alpha Sample.lounge).
  - reflexivity.
  - reflexivity.
  - left. reflexivity.
Defined.

(** C4, as amended. A reference that is the identifier of a known text
    channel resolves to that channel when the guild [findGuild] resolves
    for the hint (the hinted guild, or the single joined guild when no hint
    is given) is the guild of the channel; with no hint and not exactly one
    joined guild, [findChannel] returns null without fetching. *)
Theorem findChannel_by_identifier
  (client : Client) (reference : string) (hint : option string)
  (channel : Channel) :
  knownTextChannel client reference channel ->
  (forall t guild,
      findGuild client hint = (t, Resolved (Some guild)) ->
      guild_id guild = channel_guild_id channel ->
      findChannel client reference hint
        = (t ++ [ChannelsFetch reference], Resolved (Some channel)))
  /\ (hint = None -> length (guilds_cache client) <> 1%nat ->
      findChannel client reference hint = ([], Resolved None)).
Proof.
  intros (Hf & _ & Hk). split.
  - intros t guild Hg Hid.
    rewrite (findChannel_resolved client _ _ _ _ Hg), Hf, Hk, Hid.
    rewrite String.eqb_refl. reflexivity.
  - intros -> Hn.
    apply (findChannel_unresolved client reference None []).
    apply findGuild_absent_unless_single, Hn.
Qed.

Lemma findChannel_by_identifier_witness :
  findChannel (Sample.platform [Sample.alpha; Sample.beta] []) "201"
              (Some "beta"%string)
    = ([GuildsFetch "beta"%string; ChannelsFetch "201"%string],
       Resolved (Some Sample.plans))
  /\ findChannel (Sample.platform [Sample.alpha; Sample.beta] []) "201" None
     = ([], Resolved None).
Proof.
  pose proof (findChannel_by_identifier
                (Sample.platform [Sample.alpha; Sample.beta] []) "201"
                (Some "beta"%string) Sample.plans) as Hhint.
  pose proof (findChannel_by_identifier
                (Sample.platform [Sample.alpha; Sample.beta] []) "201"
                None Sample.plans) as Hnone.
  split.
  - apply (proj1 (Hhint (conj eq_refl (conj eq_refl eq_refl)))
             [GuildsFetch "beta"%string] Sample.beta); reflexivity.
  - apply (proj2 (Hnone (conj eq_refl (conj eq_refl eq_refl))));
      [reflexivity | discriminate].
Defined.

(** C4, as stated, fails: joined to Alpha and Beta and given no hint, the
    identifier of the text channel plans of Beta resolves to null. *)
Lemma findChannel_by_identifier_counterexample :
  let client := Sample.platform [Sample.alpha; Sample.beta] [] in
  knownTextChannel client "201" Sample.plans
  /\ hintMatches client None Sample.plans
  /\ outcome (findChannel client "201" None) = Resolved None
  /\ outcome (findChannel client "201" None) <> Resolved (Some Sample.plans).
Proof.
  repeat split.
  - intros H. discriminate H.
  - discriminate.
Qed.

(* ================================================================= *)
(** ** The search by name *)

(** The marker is the byte 35 and the code point 35: lowering neither adds
    one nor moves one to the front. The four steps of [toLowerCase] are
    followed one by one. *)


































(* ================================================================= *)
(** ** The sort by creation time *)

Section SortByTimestamp.

Local Abbreviation sorted := (sort byCreatedTimestamp).
Local Abbreviation ins := (insert byCreatedTimestamp).

Lemma insert_Permutation (x : Message) (l : list Message) :
  Permutation (x :: l) (ins x l).
Proof.
  induction l as [|y r IH]; simpl; [reflexivity |].
  destruct (byCreatedTimestamp x y <=? 0); [reflexivity |].
  rewrite perm_swap. apply perm_skip, IH.
Qed.

Lemma sort_Permutation (l : list Message) : Permutation l (sorted l).
Proof.
  induction l as [|x r IH]; simpl; [reflexivity |].
  rewrite <- insert_Permutation. apply perm_skip, IH.
Qed.

Lemma insert_HdRel (a x : Message) (l : list Message) :
  notNewer a x -> HdRel notNewer a l -> HdRel notNewer a (ins x l).
Proof.
  intros Hax Hl. destruct l as [|y r]; simpl.
  - constructor. exact Hax.
  - destruct (byCreatedTimestamp x y <=? 0); constructor.
    + exact Hax.
    + inversion Hl; assumption.
Qed.

Lemma insert_Sorted (x : Message) (l : list Message) :
  Sorted notNewer l -> Sorted notNewer (ins x l).
Proof.
  induction l as [|y r IH]; simpl; intros Hs.
  - repeat constructor.
  - unfold byCreatedTimestamp at 1.
    destruct (Z.leb_spec (createdTimestamp x - createdTimestamp y) 0) as [Hle|Hgt].
    + constructor; [exact Hs |]. constructor. unfold notNewer. lia.
    + inversion Hs as [|? ? Hr Hhd]; subst.
      constructor; [apply IH, Hr |].
      apply insert_HdRel; [unfold notNewer; lia | exact Hhd].
Qed.

Lemma sort_Sorted (l : list Message) : Sorted notNewer (sorted l).
Proof.
  induction l as [|x r IH]; simpl; [constructor | apply insert_Sorted, IH].
Qed.

Lemma notNewer_trans : Relations_1.Transitive notNewer.
Proof. intros a b c. unfold notNewer. lia. Qed.

Lemma sort_StronglySorted (l : list Message) :
  StronglySorted notNewer (sorted l).
Proof. apply Sorted_StronglySorted; [exact notNewer_trans | apply sort_Sorted]. Qed.

(** Positions in a sorted list follow the creation times. *)
Lemma StronglySorted_nth (l : list Message) :
  StronglySorted notNewer l ->
  forall i j a b, (i < j)%nat ->
    nth_error l i = Some a -> nth_error l j = Some b -> notNewer a b.
Proof.
  induction 1 as [|x r Hr IH Hall]; intros i j a b Hij Ha Hb.
  - destruct i; discriminate.
  - destruct j as [|j]; [lia |]. simpl in Hb.
    destruct i as [|i]; simpl in Ha.
    + injection Ha as <-.
      rewrite Forall_forall in Hall. apply Hall.
      eapply nth_error_In, Hb.
    + apply (IH i j); [lia | assumption | assumption].
Qed.

(** Messages created at distinct times have one sorted arrangement. *)
Lemma StronglySorted_distinct_unique (l1 l2 : list Message) :
  StronglySorted notNewer l1 -> StronglySorted notNewer l2 ->
  NoDup (map createdTimestamp l1) ->
  Permutation l1 l2 -> l1 = l2.
Proof.
  intros H1. revert l2.
  induction H1 as [|a r1 Hr1 IH Ha]; intros l2 H2 Hnd Hp.
  - apply Permutation_nil in Hp. subst. reflexivity.
  - destruct l2 as [|b r2];
      [apply Permutation_sym, Permutation_nil in Hp; discriminate |].
    inversion H2 as [|? ? Hr2 Hb]; subst.
    inversion Hnd as [|? ? Hnotin Hnd']; subst.
    rewrite Forall_forall in Ha, Hb.
    assert (Hab : a = b).
    { assert (Hina : In a (b :: r2))
        by (eapply Permutation_in; [exact Hp | left; reflexivity]).
      assert (Hinb : In b (a :: r1))
        by (eapply Permutation_in;
            [apply Permutation_sym; exact Hp | left; reflexivity]).
      destruct Hina as [-> | Hina]; [reflexivity |].
      destruct Hinb as [-> | Hinb]; [reflexivity |].
      exfalso. apply Hnotin.
      assert (createdTimestamp a = createdTimestamp b)
        by (pose proof (Ha b Hinb); pose proof (Hb a Hina);
            unfold notNewer in *; lia).
      rewrite H. apply in_map, Hinb. }
    subst b. f_equal.
    apply IH; [exact Hr2 | exact Hnd' |].
    eapply Permutation_cons_inv, Hp.
Qed.

Lemma sort_delivery_order (l l' : list Message) :
  NoDup (map createdTimestamp l) ->
  Permutation l l' -> sorted l' = sorted l.
Proof.
  intros Hnd Hp. symmetry.
  apply StronglySorted_distinct_unique.
  - apply sort_StronglySorted.
  - apply sort_StronglySorted.
  - eapply Permutation_NoDup; [| exact Hnd].
    apply Permutation_map, sort_Permutation.
  - rewrite <- (sort_Permutation l), <- (sort_Permutation l'). exact Hp.
Qed.

End SortByTimestamp.

(* ================================================================= *)
(** ** The scan from the newest message *)

Section Scan.

Variable botId : string.

Lemma scanFrom_Some (l : list Message) (n : nat) (m : Message) :
  scanFrom l botId n = Some m ->
  exists i, (i < n)%nat
    /\ nth_error l i = Some m
    /\ isUserMessage botId m = true
    /\ forall j x, (i < j < n)%nat -> nth_error l j = Some x ->
                   isUserMessage botId x = false.
Proof.
  induction n as [|i IH]; simpl; [discriminate |].
  destruct (nth_error l i) as [msg|] eqn:Hi; [| discriminate].
  destruct (isUserMessage botId msg) eqn:Hu.
  - intros [= <-]. exists i. repeat split; try assumption; try lia.
  - intros Hs. destruct (IH Hs) as (k & Hk & Hnth & Hum & Hafter).
    exists k. repeat split; try assumption; try lia.
    intros j x Hj Hx.
    destruct (Nat.eq_dec j i) as [-> | Hne].
    + rewrite Hi in Hx. injection Hx as <-. exact Hu.
    + apply (Hafter j x); [lia | exact Hx].
Qed.

Lemma scanFrom_None (l : list Message) (n : nat) :
  (n <= length l)%nat ->
  scanFrom l botId n = None ->
  forall j x, (j < n)%nat -> nth_error l j = Some x ->
              isUserMessage botId x = false.
Proof.
  induction n as [|i IH]; simpl; intros Hn Hs j x Hj Hx; [lia |].
  destruct (nth_error l i) as [msg|] eqn:Hi.
  - destruct (isUserMessage botId msg) eqn:Hu; [discriminate |].
    destruct (Nat.eq_dec j i) as [-> | Hne].
    + rewrite Hi in Hx. injection Hx as <-. exact Hu.
    + apply (IH ltac:(lia) Hs j x); [lia | exact Hx].
  - apply nth_error_None in Hi. lia.
Qed.

End Scan.

(** What the scanner returns for a delivered window. *)
Lemma findLastUserMessage_resolved
  (client : Client) (channel : Channel) (botId : string) (contextSize : Z)
  (window : list Message) :
  messages_fetch client channel contextSize = Resolved window ->
  findLastUserMessage client channel botId contextSize
    = ([MessagesFetch channel contextSize],
       Resolved
         {| lastUserMessage :=
              scanFrom (sort byCreatedTimestamp window) botId
                       (length (sort byCreatedTimestamp window));
            conversationContext := sort byCreatedTimestamp window |}).
Proof.
  intros Hf. unfold findLastUserMessage, await, bind. rewrite Hf. reflexivity.
Qed.

(** C1. For a delivered window, the message returned as [lastUserMessage]
    is a message of the window whose author is not automated and is not the
    bot, no such message of the window is newer, and every message placed
    after it in the sorted window is automated or the bot's; it need not be
    the newest message of the window. It is null exactly when no message of
    the window is a user's. *)
Theorem findLastUserMessage_newest_user
  (client : Client) (channel : Channel) (botId : string) (contextSize : Z)
  (window : list Message) :
  messages_fetch client channel contextSize = Resolved window ->
  exists r,
    findLastUserMessage client channel botId contextSize
      = ([MessagesFetch channel contextSize], Resolved r)
    /\ (forall m, lastUserMessage r = Some m ->
          In m window
          /\ isUserMessage botId m = true
          /\ (forall m', In m' window -> isUserMessage botId m' = true ->
                         createdTimestamp m' <= createdTimestamp m)
          /\ exists older newer,
               conversationContext r = older ++ m :: newer
               /\ Forall (fun x => isUserMessage botId x = false) newer)
    /\ (lastUserMessage r = None
        <-> forall m, In m window -> isUserMessage botId m = false).
Proof.
  intros Hf. eexists. split; [apply findLastUserMessage_resolved, Hf |].
  simpl. set (sorted := sort byCreatedTimestamp window).
  assert (Hperm : Permutation window sorted) by apply sort_Permutation.
  assert (Hss : StronglySorted notNewer sorted) by apply sort_StronglySorted.
  split.
  - intros m Hm.
    destruct (scanFrom_Some botId _ _ _ Hm) as (i & Hi & Hnth & Hu & Hafter).
    split; [| split; [exact Hu | split]].
    + eapply Permutation_in; [apply Permutation_sym, Hperm |].
      eapply nth_error_In, Hnth.
    + intros m' Hin Hu'.
      apply (Permutation_in _ Hperm) in Hin.
      apply In_nth_error in Hin as [j Hj].
      assert (Hjn : (j < length sorted)%nat)
        by (apply nth_error_Some; rewrite Hj; discriminate).
      destruct (Nat.lt_trichotomy j i) as [Hlt | [-> | Hgt]].
      * apply (StronglySorted_nth sorted Hss j i m' m Hlt Hj Hnth).
      * rewrite Hnth in Hj. injection Hj as <-. lia.
      * rewrite (Hafter j m') in Hu'; [discriminate | lia | exact Hj].
    + destruct (nth_error_split sorted i Hnth) as (older & newer & Hsplit & Hlen).
      exists older, newer. split; [exact Hsplit |].
      apply Forall_forall. intros x Hx.
      apply In_nth_error in Hx as [k Hk].
      assert (Hkn : (k < length newer)%nat)
        by (apply nth_error_Some; rewrite Hk; discriminate).
      apply (Hafter (length older + S k)%nat x).
      * rewrite Hsplit, length_app. simpl. lia.
      * rewrite Hsplit, nth_error_app2 by lia.
        replace (length older + S k - length older)%nat with (S k) by lia.
        exact Hk.
  - split.
    + intros Hnone m Hin.
      apply (Permutation_in _ Hperm) in Hin.
      apply In_nth_error in Hin as [j Hj].
      apply (scanFrom_None botId sorted (length sorted) (le_n _) Hnone j m);
        [| exact Hj].
      apply nth_error_Some. rewrite Hj. discriminate.
    + intros Hall.
      destruct (scanFrom sorted botId (length sorted)) as [m|] eqn:Hs;
        [| reflexivity].
      destruct (scanFrom_Some botId _ _ _ Hs) as (i & _ & Hnth & Hu & _).
      rewrite Hall in Hu; [discriminate |].
      eapply Permutation_in; [apply Permutation_sym, Hperm |].
      eapply nth_error_In, Hnth.
Qed.

(** Of the three newest messages the two newest are the bot's and another
    automated author's: the message returned is Jane's, the oldest. With
    the two automated ones alone, none is returned. *)
Lemma findLastUserMessage_newest_user_witness :
  (exists r,
     findLastUserMessage (Sample.platform [Sample.alpha] Sample.recent)
                         Sample.general "900" 3
       = ([MessagesFetch Sample.general 3], Resolved r)
     /\ lastUserMessage r
        = Some (Sample.text "2001" Sample.jane "ok" 1700000001000))
  /\ (exists r,
        findLastUserMessage
          (Sample.platform [Sample.alpha] Sample.automatedOnly)
          Sample.general "900" 3
          = ([MessagesFetch Sample.general 3], Resolved r)
        /\ lastUserMessage r = None).
Proof.
  split.
  - destruct (findLastUserMessage_newest_user
                (Sample.platform [Sample.alpha] Sample.recent)
                Sample.general "900" 3 Sample.recent eq_refl)
      as (r & Hr & _).
    exists r. split; [exact Hr |].
    injection Hr as <-. reflexivity.
  - destruct (findLastUserMessage_newest_user
                (Sample.platform [Sample.alpha] Sample.automatedOnly)
                Sample.general "900" 3 Sample.automatedOnly eq_refl)
      as (r & Hr & _ & Hnone).
    exists r. split; [exact Hr |].
    apply Hnone. intros m [<- | [<- | []]]; reflexivity.
Defined.

(** C9. The [conversationContext] returned for a delivered window holds the
    messages of the window, each as often as the window does, in the order
    of their creation times, oldest first; when the creation times are
    distinct, it is the same list for every order of delivery. *)
Theorem findLastUserMessage_context_sorted
  (client : Client) (channel : Channel) (botId : string) (contextSize : Z)
  (window : list Message) :
  messages_fetch client channel contextSize = Resolved window ->
  exists r,
    findLastUserMessage client channel botId contextSize
      = ([MessagesFetch channel contextSize], Resolved r)
    /\ Permutation window (conversationContext r)
    /\ StronglySorted notNewer (conversationContext r)
    /\ (forall delivered,
          Permutation window delivered ->
          NoDup (map createdTimestamp window) ->
          sort byCreatedTimestamp delivered = conversationContext r).
Proof.
  intros Hf. eexists. split; [apply findLastUserMessage_resolved, Hf |].
  simpl. split; [apply sort_Permutation |].
  split; [apply sort_StronglySorted |].
  intros delivered Hp Hnd. apply sort_delivery_order; assumption.
Qed.

Lemma findLastUserMessage_context_sorted_witness :
  exists r,
    findLastUserMessage (Sample.platform [Sample.alpha] Sample.recent)
                        Sample.general "900" 3
      = ([MessagesFetch Sample.general 3], Resolved r)
    /\ conversationContext r = rev Sample.recent.
Proof.
  destruct (findLastUserMessage_context_sorted
              (Sample.platform [Sample.alpha] Sample.recent)
              Sample.general "900" 3 Sample.recent eq_refl)
    as (r & Hr & _).
  exists r. split; [exact Hr |].
  injection Hr as <-. reflexivity.
Defined.

(* ================================================================= *)
(** ** What a text includes *)

Lemma startsWith_append (s q x : string) :
  startsWith s x = true -> startsWith (s +++ q) x = true.
Proof.
  revert s. induction x as [|c x IH]; intros s; [reflexivity |].
  destruct s as [|d s]; simpl; [discriminate |].
  intros H. apply andb_true_iff in H as [Hc Hx].
  rewrite Hc, (IH s Hx). reflexivity.
Qed.

Lemma startsWith_refl (x : string) : startsWith x x = true.
Proof.
  induction x as [|c x IH]; simpl; [reflexivity |].
  rewrite Ascii.eqb_refl, IH. reflexivity.
Qed.

Lemma startsWith_trans (s x y : string) :
  startsWith s x = true -> startsWith x y = true -> startsWith s y = true.
Proof.
  revert s x. induction y as [|c y IH]; intros s x Hsx Hxy; [reflexivity |].
  destruct x as [|d x]; [discriminate |].
  destruct s as [|e s]; [discriminate |]. simpl in *.
  apply andb_true_iff in Hsx as [Hde Hsx].
  apply andb_true_iff in Hxy as [Hcd Hxy].
  apply Ascii.eqb_eq in Hde, Hcd. subst.
  rewrite Ascii.eqb_refl, (IH s x Hsx Hxy). reflexivity.
Qed.

Lemma includes_here (s x : string) :
  startsWith s x = true -> includes s x = true.
Proof. intros H. destruct s; simpl includes; rewrite H; reflexivity. Qed.

Lemma includes_refl (x : string) : includes x x = true.
Proof. apply includes_here, startsWith_refl. Qed.

Lemma includes_append_l (s q x : string) :
  includes s x = true -> includes (s +++ q) x = true.
Proof.
  induction s as [|c s IH]; simpl includes.
  - rewrite orb_false_r. intros H.
    destruct x; [| discriminate]. destruct q; reflexivity.
  - intros H. apply orb_true_iff in H as [H | H].
    + change (String c s +++ q) with (String c (s +++ q)).
      simpl includes.
      change (String c (s +++ q)) with (String c s +++ q).
      rewrite (startsWith_append _ q _ H). reflexivity.
    + change (String c s +++ q) with (String c (s +++ q)).
      simpl includes. rewrite (IH H). apply orb_true_r.
Qed.

Lemma includes_append_r (p s x : string) :
  includes s x = true -> includes (p +++ s) x = true.
Proof.
  intros H. induction p as [|c p IH]; [exact H |].
  change (String c p +++ s) with (String c (p +++ s)).
  simpl includes. rewrite IH. apply orb_true_r.
Qed.

Lemma includes_join (sep x : string) (l : list string) :
  In x l -> includes (join sep l) x = true.
Proof.
  induction l as [|y r IH]; [intros [] |].
  intros [-> | Hin].
  - destruct r; simpl join; [apply includes_refl |].
    apply includes_append_l, includes_refl.
  - destruct r as [|z r]; [destruct Hin |].
    change (join sep (y :: z :: r)) with (y +++ sep +++ join sep (z :: r)).
    apply includes_append_r, includes_append_r, IH, Hin.
Qed.

Lemma includes_startsWith (s x y : string) :
  startsWith s x = true -> includes x y = true -> includes s y = true.
Proof.
  revert s. induction x as [|d x IH]; intros s Hsx Hxy.
  - simpl in Hxy. rewrite orb_false_r in Hxy.
    destruct y; [| discriminate]. destruct s; reflexivity.
  - destruct s as [|e s]; [discriminate |].
    simpl in Hsx. apply andb_true_iff in Hsx as [Hde Hsx].
    apply Ascii.eqb_eq in Hde. subst e.
    simpl includes in Hxy. apply orb_true_iff in Hxy as [Hy | Hy].
    + apply includes_here.
      apply (startsWith_trans _ (String d x)); [| exact Hy].
      simpl. rewrite Ascii.eqb_refl. exact Hsx.
    + simpl includes. rewrite (IH s Hsx Hy). apply orb_true_r.
Qed.

Lemma includes_trans (s x y : string) :
  includes s x = true -> includes x y = true -> includes s y = true.
Proof.
  intros Hsx Hxy. induction s as [|c s IH].
  - simpl in Hsx. rewrite orb_false_r in Hsx.
    destruct x; [exact Hxy | discriminate].
  - simpl includes in Hsx. apply orb_true_iff in Hsx as [Hp | Hs].
    + apply (includes_startsWith _ x); assumption.
    + simpl includes. rewrite (IH Hs). apply orb_true_r.
Qed.

Lemma includes_String (c : ascii) (s x : string) :
  includes s x = true -> includes (String c s) x = true.
Proof. intros H. simpl includes. rewrite H. apply orb_true_r. Qed.

(** Finds a piece in a text written as a chain of pieces. *)
Ltac piece :=
  solve [ assumption
        | apply includes_refl
        | apply includes_append_l; piece
        | apply includes_append_r; piece
        | apply includes_String; piece ].

(* ================================================================= *)
(** ** The diagnostics of a channel that is not found *)

Lemma guildEntry_names (g : Guild) :
  includes (guildEntry g) (guild_name g) = true
  /\ includes (guildEntry g) (guild_id g) = true.
Proof. unfold guildEntry. split; piece. Qed.

Lemma channelEntry_names (c : Channel) :
  includes (channelEntry c) (channel_name c) = true
  /\ includes (channelEntry c) (channel_id c) = true.
Proof. unfold channelEntry. split; piece. Qed.

Lemma guildList_lists (client : Client) (g : Guild) :
  In g (guilds_cache client) ->
  includes (guildList client) (guildEntry g) = true.
Proof. intros H. apply includes_join, in_map, H. Qed.

Lemma listsServers_guildList (client : Client) (text : string) :
  includes text (guildList client) = true -> listsServers client text.
Proof.
  intros H g Hg.
  pose proof (includes_trans _ _ _ H (guildList_lists client g Hg)) as He.
  destruct (guildEntry_names g) as [Hn Hi].
  split; eapply includes_trans; eassumption.
Qed.

Lemma findGuild_reads (client : Client) (guildIdentifier : option string) :
  forallb (fun e => negb (writes e))
          (trace (findGuild client guildIdentifier)) = true.
Proof.
  unfold findGuild.
  destruct guildIdentifier as [[|c s]|].
  1,3: destruct (length (guilds_cache client) =? 1)%nat; reflexivity.
  unfold try_catch, bind, await.
  destruct (guilds_fetch client (String c s)) as [[g|]|e]; simpl;
    try reflexivity.
  repeat match goal with |- context [if ?b then _ else _] => destruct b end;
    reflexivity.
Qed.

Lemma findChannel_reads
  (client : Client) (channelIdentifier : string) (hint : option string) :
  forallb (fun e => negb (writes e))
          (trace (findChannel client channelIdentifier hint)) = true.
Proof.
  pose proof (findGuild_reads client hint) as Hr.
  destruct (findGuild_resolves client hint) as (t & [g|] & Hg);
    rewrite Hg in Hr; simpl in Hr.
  - rewrite (findChannel_resolved client _ _ _ _ Hg). simpl.
    rewrite forallb_app, Hr. reflexivity.
  - rewrite (findChannel_unresolved client _ _ _ Hg). exact Hr.
Qed.

(** The block answers with a text in each of its four cases, and throws in
    none. *)
Lemma channelNotFound_cases
  (client : Client) (errorMsg : string) (server : option string)
  (channel : string) :
  exists t text,
    channelNotFound client errorMsg server channel
      = (t, Resolved (textResult text))
    /\ forallb (fun e => negb (writes e)) t = true
    /\ startsWith text errorMsg = true
    /\ (truthy server = false -> (1 < length (guilds_cache client))%nat ->
        text = errorMsg
                 +++ "Bot is in multiple servers. Please specify server name or ID. Available servers: "%string
                 +++ guildList client
        /\ listsServers client text)
    /\ (truthy server = false -> (length (guilds_cache client) <= 1)%nat ->
        text = errorMsg +++ "Channel "%string +++ dquote +++ channel
                 +++ dquote +++ " not found."%string)
    /\ (truthy server = true ->
        outcome (findGuild client server) = Resolved None ->
        listsServers client text)
    /\ (forall guild, truthy server = true ->
        outcome (findGuild client server) = Resolved (Some guild) ->
        listsChannels guild text).
Proof.
  unfold channelNotFound.
  destruct (truthy server) eqn:Htruthy; simpl negb; simpl andb.
  - destruct server as [[|c s]|]; try discriminate Htruthy.
    destruct (findGuild_resolves client (Some (String c s))) as (t & g & Hg).
    pose proof (findGuild_reads client (Some (String c s))) as Hr.
    rewrite Hg in Hr. simpl in Hr.
    unfold bind. rewrite Hg.
    destruct g as [guild|]; unfold ret; cbv beta iota; rewrite app_nil_r;
      eexists; eexists; (split; [reflexivity |]); (split; [exact Hr |]);
      (split; [apply startsWith_append, startsWith_refl |]).
    + split; [discriminate |]. split; [discriminate |].
      split; [intros _ [=] |].
      intros guild' _ [= <-] ch Hin Hk.
      assert (He : includes
                (join ", "
                   (map channelEntry
                      (filter instanceofTextChannel (channels_cache guild))))
                (channelEntry ch) = true).
      { apply includes_join, in_map, filter_In. split; assumption. }
      destruct (channelEntry_names ch) as [Hn Hi].
      split; (eapply includes_trans; [| eassumption]);
        (eapply includes_trans; [| exact He]); piece.
    + split; [discriminate |]. split; [discriminate |].
      split; [| intros guild' _ [=]].
      intros _ _. apply listsServers_guildList. piece.
  - destruct (1 <? length (guilds_cache client))%nat eqn:Hmany.
    + eexists; eexists. split; [reflexivity |]. split; [reflexivity |].
      split; [apply startsWith_append, startsWith_refl |].
      split; [intros _ _; split;
              [reflexivity | apply listsServers_guildList; piece] |].
      split; [apply Nat.ltb_lt in Hmany; intros _ Hle; lia |].
      split; [discriminate | intros guild' Hf; discriminate Hf].
    + assert (Hplain :
        match server with
        | Some (String _ _ as srv) =>
            guild <- findGuild client server ;;
            match guild with
            | None =>
                ret (textResult
                       (errorMsg +++ "Server "%string +++ dquote +++ srv
                          +++ dquote
                          +++ " not found. Available servers: "%string
                          +++ guildList client))
            | Some guild =>
                ret (textResult
                       (errorMsg +++ "Channel "%string +++ dquote
                          +++ channel +++ dquote
                          +++ " not found in server "%string +++ dquote
                          +++ guild_name guild +++ dquote
                          +++ ". Available channels: "%string
                          +++ join ", "%string
                                (map channelEntry
                                   (filter instanceofTextChannel
                                      (channels_cache guild)))))
            end
        | _ =>
            ret (textResult
                   (errorMsg +++ "Channel "%string +++ dquote +++ channel
                      +++ dquote +++ " not found."%string))
        end
        = ret (textResult
                 (errorMsg +++ "Channel "%string +++ dquote +++ channel
                    +++ dquote +++ " not found."%string))).
      { destruct server as [[|c s]|]; try reflexivity. discriminate Htruthy. }
      rewrite Hplain.
      eexists; eexists. split; [reflexivity |]. split; [reflexivity |].
      split; [apply startsWith_append, startsWith_refl |].
      split; [apply Nat.ltb_ge in Hmany; intros _ Hgt; lia |].
      split; [intros _ _; reflexivity |].
      split; [discriminate | intros guild' Hf; discriminate Hf].
Qed.

(** A request whose channel is not found is answered by the block. *)
Lemma callTool_not_found
  (client : Client) (request : CallToolRequest) (server : option string)
  (channel : string) (t : list Event) :
  requestedChannel request = Some (server, channel) ->
  findChannel client channel server = (t, Resolved None) ->
  exists t' text,
    channelNotFound client (opening (request_name request)) server channel
      = (t', Resolved (textResult text))
    /\ callTool client request = (t ++ t', Resolved (textResult text)).
Proof.
  intros Hreq Hfind.
  unfold requestedChannel in Hreq. unfold callTool, opening.
  destruct (String.eqb (request_name request) "send-message");
    [| destruct (String.eqb (request_name request) "read-messages");
       [| destruct (String.eqb (request_name request) "reply-to-conversation");
          [| discriminate Hreq]]].
  - destruct (SendMessageSchema [] (request_arguments request)) as [|a] eqn:Hp;
      [discriminate Hreq |].
    injection Hreq as Hs Hc.
    destruct (channelNotFound_cases client "Could not send message: "
                server channel) as (t' & text & Hnf & _).
    exists t', text. split; [exact Hnf |].
    unfold sendMessage, parse. rewrite Hp. unfold bind at 1. unfold ret at 1.
    rewrite Hs, Hc. unfold bind. rewrite Hfind, Hnf. reflexivity.
  - destruct (ReadMessagesSchema [] (request_arguments request)) as [|a] eqn:Hp;
      [discriminate Hreq |].
    injection Hreq as Hs Hc.
    destruct (channelNotFound_cases client "Could not read messages: "
                server channel) as (t' & text & Hnf & _).
    exists t', text. split; [exact Hnf |].
    unfold readMessages, parse. rewrite Hp. unfold bind at 1. unfold ret at 1.
    rewrite Hs, Hc. unfold bind. rewrite Hfind, Hnf. reflexivity.
  - destruct (ReplyToConversationSchema [] (request_arguments request))
      as [|a] eqn:Hp; [discriminate Hreq |].
    injection Hreq as Hs Hc.
    destruct (channelNotFound_cases client "Could not reply to conversation: "
                server channel) as (t' & text & Hnf & _).
    exists t', text. split; [exact Hnf |].
    unfold replyToConversation, parse. rewrite Hp.
    unfold bind at 1. unfold ret at 1.
    rewrite Hs, Hc. unfold bind. rewrite Hfind, Hnf. reflexivity.
Qed.

(** C5, as amended. When the channel of a send-message, read-messages or
    reply-to-conversation request is not found, the invocation resolves to
    one text, which opens with the tool's words, and writes nothing to the
    platform. With no server given and several servers joined the text says
    so and lists every joined server's name and identifier; with a server
    given that is not found it lists the joined servers; with a server
    given and found it lists that server's text channels; with no server
    given and at most one server joined it says only that the channel was
    not found. *)
Theorem callTool_channel_not_found
  (client : Client) (request : CallToolRequest) (server : option string)
  (channel : string) :
  requestedChannel request = Some (server, channel) ->
  outcome (findChannel client channel server) = Resolved None ->
  exists text,
    outcome (callTool client request) = Resolved (textResult text)
    /\ forallb (fun e => negb (writes e)) (trace (callTool client request))
       = true
    /\ startsWith text (opening (request_name request)) = true
    /\ (truthy server = false -> (1 < length (guilds_cache client))%nat ->
        text = opening (request_name request)
                 +++ "Bot is in multiple servers. Please specify server name or ID. Available servers: "%string
                 +++ guildList client
        /\ listsServers client text)
    /\ (truthy server = false -> (length (guilds_cache client) <= 1)%nat ->
        text = opening (request_name request) +++ "Channel "%string
                 +++ dquote +++ channel +++ dquote +++ " not found."%string)
    /\ (truthy server = true ->
        outcome (findGuild client server) = Resolved None ->
        listsServers client text)
    /\ (forall guild, truthy server = true ->
        outcome (findGuild client server) = Resolved (Some guild) ->
        listsChannels guild text).
Proof.
  intros Hreq Hout.
  destruct (findChannel_resolves client channel server) as (t & c & Hfind).
  pose proof (findChannel_reads client channel server) as Hreads.
  rewrite Hfind in Hout, Hreads. simpl in Hout, Hreads.
  injection Hout as ->.
  destruct (callTool_not_found client request server channel t Hreq Hfind)
    as (t' & text & Hnf & Hcall).
  destruct (channelNotFound_cases client (opening (request_name request))
              server channel)
    as (t'' & text' & Hnf' & Hr & Hopen & Hcases).
  rewrite Hnf in Hnf'. injection Hnf' as <- <-.
  exists text. rewrite Hcall. simpl.
  split; [reflexivity |].
  split; [rewrite forallb_app, Hreads, Hr; reflexivity |].
  split; [exact Hopen | exact Hcases].
Qed.

(** Joined to Alpha and Beta, a read-messages request that names no server
    is told so, with both servers listed. *)
Lemma callTool_channel_not_found_witness :
  exists text,
    outcome (callTool (Sample.platform [Sample.alpha; Sample.beta] [])
                      (Sample.request "read-messages"
                         [("channel"%string, JString "general")]))
      = Resolved (textResult text)
    /\ text = "Could not read messages: Bot is in multiple servers. Please specify server name or ID. Available servers: "%string
                +++ guildEntry Sample.alpha +++ ", "%string
                +++ guildEntry Sample.beta.
Proof.
  destruct (callTool_channel_not_found
              (Sample.platform [Sample.alpha; Sample.beta] [])
              (Sample.request "read-messages"
                 [("channel"%string, JString "general")])
              None "general" eq_refl eq_refl)
    as (text & Hout & _ & _ & Hmany & _).
  exists text. split; [exact Hout |].
  destruct (Hmany eq_refl) as [-> _]; [simpl; lia | reflexivity].
Defined.

(** C5, as stated, fails: joined to Alpha alone, a send-message request for
    a channel that does not exist is answered with a text that names
    neither the server nor any of its channels. *)
Lemma callTool_channel_not_found_counterexample :
  let client := Sample.platform [Sample.alpha] [] in
  let request :=
    Sample.request "send-message"
      [("channel"%string, JString "#nonexistent");
       ("message"%string, JString "hi")] in
  let text :=
    "Could not send message: Channel "%string +++ dquote
      +++ "#nonexistent"%string +++ dquote +++ " not found."%string in
  requestedChannel request = Some (None, "#nonexistent"%string)
  /\ outcome (findChannel client "#nonexistent" None) = Resolved None
  /\ outcome (callTool client request) = Resolved (textResult text)
  /\ ~ enumeratesServersOrChannels client text.
Proof.
  split; [reflexivity |]. split; [reflexivity |]. split; [reflexivity |].
  intros [Hs | (g & Hg & Hc)].
  - destruct (Hs Sample.alpha (or_introl eq_refl)) as [Hn _].
    vm_compute in Hn. discriminate Hn.
  - destruct Hg as [<- | []].
    destruct (Hc Sample.general (or_introl eq_refl) eq_refl) as [Hn _].
    vm_compute in Hn. discriminate Hn.
Qed.

(* ================================================================= *)
(** ** Validation *)

(** An issue raised for a key is among the issues of the object. *)
Lemma ap_issues_r {A B} (f : Parsed (A -> B)) (issues : list ZodIssue) :
  exists all, ap f (inl issues) = inl all /\ incl issues all.
Proof.
  destruct f as [before | g]; simpl.
  - exists (before ++ issues). split; [reflexivity | apply incl_appr, incl_refl].
  - exists issues. split; [reflexivity | apply incl_refl].
Qed.

Lemma number_out_of_bounds (low high n : Z) (at_path : list string) :
  low <= high -> n < low \/ high < n ->
  number [min low; max high] at_path (Some (JNumber n))
    = inl [ {| path := at_path;
               message :=
                 if n <? low
                 then "Number must be greater than or equal to "%string
                        +++ numberToString low
                 else "Number must be less than or equal to "%string
                        +++ numberToString high |} ].
Proof.
  intros Hlh Hn. unfold number, flat_map, checkNumber.
  destruct (Z.ltb_spec n low), (Z.gtb_spec n high); try lia; reflexivity.
Qed.

Lemma number_within_bounds (low high n : Z) (at_path : list string) :
  low <= n <= high ->
  number [min low; max high] at_path (Some (JNumber n)) = inr n.
Proof.
  intros Hn. unfold number, flat_map, checkNumber.
  destruct (Z.ltb_spec n low), (Z.gtb_spec n high); try lia; reflexivity.
Qed.

Lemma ReadMessagesSchema_limit (fields : list (string * JSON)) (n : Z) :
  property "limit" fields = Some (JNumber n) ->
  n < 1 \/ 100 < n ->
  exists issues,
    ReadMessagesSchema [] (Some (JObject fields)) = inl issues
    /\ In {| path := ["limit"%string];
             message :=
               if n <? 1
               then "Number must be greater than or equal to 1"%string
               else "Number must be less than or equal to 100"%string |}
          issues.
Proof.
  intros Hp Hn. unfold ReadMessagesSchema, object.
  unfold key. rewrite Hp. unfold default.
  rewrite (number_out_of_bounds 1 100 n _ ltac:(lia) Hn).
  match goal with |- context [ap ?f (inl ?i)] =>
    destruct (ap_issues_r f i) as (all & -> & Hincl) end.
  exists all. split; [reflexivity |].
  apply Hincl. left. reflexivity.
Qed.

Lemma ReplyToConversationSchema_contextSize
  (fields : list (string * JSON)) (n : Z) :
  property "contextSize" fields = Some (JNumber n) ->
  n < 1 \/ 50 < n ->
  exists issues,
    ReplyToConversationSchema [] (Some (JObject fields)) = inl issues
    /\ In {| path := ["contextSize"%string];
             message :=
               if n <? 1
               then "Number must be greater than or equal to 1"%string
               else "Number must be less than or equal to 50"%string |}
          issues.
Proof.
  intros Hp Hn. unfold ReplyToConversationSchema, object.
  unfold key. rewrite Hp. unfold default.
  rewrite (number_out_of_bounds 1 50 n _ ltac:(lia) Hn).
  match goal with |- context [ap ?f (inl ?i)] =>
    destruct (ap_issues_r f i) as (all & -> & Hincl) end.
  exists all. split; [reflexivity |].
  apply Hincl. left. reflexivity.
Qed.

(** C6. A request whose arguments its tool's schema refuses fails before
    any platform call: the invocation throws one error, whose text lists
    each issue as its path and its reason, the issues joined by commas. A
    limit outside 1..100 and a contextSize outside 1..50 are refused, with
    an issue at that path. *)
Theorem callTool_invalid_arguments :
  (forall (client : Client) (request : CallToolRequest)
          (issues : list ZodIssue),
      schemaIssues request = Some issues ->
      callTool client request
        = ([], Rejected (Error ("Invalid arguments: "%string
                                  +++ join ", "%string (map issueText issues))))
      /\ forall e, In e issues ->
           includes (join ", "%string (map issueText issues))
                    (join "."%string (path e) +++ ": "%string +++ message e)
             = true)
  /\ (forall (fields : list (string * JSON)) (n : Z),
        property "limit" fields = Some (JNumber n) ->
        n < 1 \/ 100 < n ->
        exists issues e,
          schemaIssues (Sample.request "read-messages" fields) = Some issues
          /\ In e issues /\ path e = ["limit"%string])
  /\ (forall (fields : list (string * JSON)) (n : Z),
        property "contextSize" fields = Some (JNumber n) ->
        n < 1 \/ 50 < n ->
        exists issues e,
          schemaIssues (Sample.request "reply-to-conversation" fields)
            = Some issues
          /\ In e issues /\ path e = ["contextSize"%string]).
Proof.
  split; [| split].
  - intros client request issues Hs. split.
    + unfold schemaIssues in Hs. unfold callTool.
      destruct (String.eqb (request_name request) "send-message");
        [| destruct (String.eqb (request_name request) "read-messages");
           [| destruct (String.eqb (request_name request)
                                   "reply-to-conversation");
              [| discriminate Hs]]].
      * unfold sendMessage, parse.
        destruct (SendMessageSchema [] (request_arguments request));
          [| discriminate Hs].
        injection Hs as ->. reflexivity.
      * unfold readMessages, parse.
        destruct (ReadMessagesSchema [] (request_arguments request));
          [| discriminate Hs].
        injection Hs as ->. reflexivity.
      * unfold replyToConversation, parse.
        destruct (ReplyToConversationSchema [] (request_arguments request));
          [| discriminate Hs].
        injection Hs as ->. reflexivity.
    + intros e He. apply includes_join.
      apply (in_map issueText) in He. exact He.
  - intros fields n Hp Hn.
    destruct (ReadMessagesSchema_limit fields n Hp Hn) as (issues & Hi & Hin).
    exists issues. eexists. split; [| split; [exact Hin | reflexivity]].
    unfold schemaIssues. cbn -[ReadMessagesSchema]. rewrite Hi. reflexivity.
  - intros fields n Hp Hn.
    destruct (ReplyToConversationSchema_contextSize fields n Hp Hn)
      as (issues & Hi & Hin).
    exists issues. eexists. split; [| split; [exact Hin | reflexivity]].
    unfold schemaIssues. cbn -[ReplyToConversationSchema].
    rewrite Hi. reflexivity.
Qed.

(** A read-messages request with a number for its channel and a limit of
    101 is refused for both, in the order of the schema's keys. *)
Lemma callTool_invalid_arguments_witness :
  callTool (Sample.platform [Sample.alpha] Sample.recent)
           (Sample.request "read-messages"
              [("channel"%string, JNumber 4); ("limit"%string, JNumber 101)])
    = ([], Rejected (Error "Invalid arguments: channel: Expected string, received number, limit: Number must be less than or equal to 100"))
  /\ (exists issues e,
        schemaIssues (Sample.request "read-messages"
                        [("channel"%string, JString "general");
                         ("limit"%string, JNumber 0)]) = Some issues
        /\ In e issues /\ path e = ["limit"%string]).
Proof.
  split.
  - apply (proj1 callTool_invalid_arguments
             (Sample.platform [Sample.alpha] Sample.recent)
             (Sample.request "read-messages"
                [("channel"%string, JNumber 4); ("limit"%string, JNumber 101)])
             _ eq_refl).
  - apply (proj1 (proj2 callTool_invalid_arguments)
             [("channel"%string, JString "general");
              ("limit"%string, JNumber 0)] 0 eq_refl).
    left. lia.
Defined.

(* ================================================================= *)
(** ** The date of a creation time *)

Section Calendar.

Variable days : Z.

Let z := days + 719468.
Let era := z / 146097.
Let doe := z - era * 146097.
Let yoe := (doe - doe / 1460 + doe / 36524 - doe / 146096) / 365.
Let doy := doe - (365 * yoe + yoe / 4 - yoe / 100).
Let mp := (5 * doy + 2) / 153.

Local Lemma doe_range : 0 <= doe <= 146096.
Proof. unfold doe, era. Z.div_mod_to_equations; lia. Qed.

Local Lemma yoe_bounds :
  365 * yoe <= doe - doe / 1460 + doe / 36524 - doe / 146096
            < 365 * yoe + 365.
Proof. unfold yoe. Z.div_mod_to_equations; lia. Qed.

Local Lemma yoe_range : 0 <= yoe <= 399.
Proof.
  pose proof doe_range. pose proof yoe_bounds.
  Z.div_mod_to_equations; lia.
Qed.

Local Lemma doy_range : 0 <= doy <= 365.
Proof.
  pose proof doe_range as Hdoe. pose proof yoe_bounds as Hyoe.
  pose proof yoe_range as Hy. unfold doy.
  set (q1 := doe / 1460) in *. set (q2 := doe / 36524) in *.
  set (q3 := doe / 146096) in *.
  assert (Hq1 : 1460 * q1 <= doe < 1460 * q1 + 1460)
    by (unfold q1; Z.div_mod_to_equations; lia).
  assert (Hq2 : 36524 * q2 <= doe < 36524 * q2 + 36524)
    by (unfold q2; Z.div_mod_to_equations; lia).
  assert (Hq3 : 146096 * q3 <= doe < 146096 * q3 + 146096)
    by (unfold q3; Z.div_mod_to_equations; lia).
  assert (H4 : 4 * (yoe / 4) <= yoe < 4 * (yoe / 4) + 4)
    by (Z.div_mod_to_equations; lia).
  assert (H100 : 100 * (yoe / 100) <= yoe < 100 * (yoe / 100) + 100)
    by (Z.div_mod_to_equations; lia).
  assert (yoe / 100 = 0 \/ yoe / 100 = 1 \/ yoe / 100 = 2 \/ yoe / 100 = 3)
    as [Hc|[Hc|[Hc|Hc]]] by lia;
  assert (q2 = 0 \/ q2 = 1 \/ q2 = 2 \/ q2 = 3 \/ q2 = 4)
    as [Hq|[Hq|[Hq|[Hq|Hq]]]] by lia;
  assert (q3 = 0 \/ q3 = 1) as [Hr|Hr] by lia; lia.
Qed.

Local Lemma mp_bounds : 153 * mp <= 5 * doy + 2 < 153 * mp + 153.
Proof. unfold mp. Z.div_mod_to_equations; lia. Qed.

(** The month is one of the twelve and the day one of its days. *)
Lemma civilFromDays_month_day :
  1 <= snd (fst (civilFromDays days)) <= 12
  /\ 1 <= snd (civilFromDays days) <= 31.
Proof.
  cbv beta iota zeta delta [civilFromDays fst snd].
  fold z. fold era. fold doe. fold yoe. fold doy. fold mp.
  pose proof doy_range. pose proof mp_bounds.
  set (e := (153 * mp + 2) / 5).
  assert (He : 5 * e <= 153 * mp + 2 < 5 * e + 5)
    by (unfold e; Z.div_mod_to_equations; lia).
  split; [destruct (Z.ltb_spec mp 10); lia | lia].
Qed.

(** From 1970 to the end of the year 9999 the year has four digits. *)
Lemma civilFromDays_year :
  0 <= days < 2932897 ->
  0 <= fst (fst (civilFromDays days)) <= 9999.
Proof.
  intros H. cbv beta iota zeta delta [civilFromDays fst].
  fold z. fold era. fold doe. fold yoe. fold doy. fold mp.
  pose proof doy_range as Hdoy. pose proof mp_bounds.
  pose proof yoe_range. pose proof yoe_bounds.
  assert (Hera : 4 <= era <= 24)
    by (unfold era, z; Z.div_mod_to_equations; lia).
  assert (Hlast : era = 24 -> doe <= 146036) by (unfold doe, z; lia).
  assert (H4 : 4 * (yoe / 4) <= yoe < 4 * (yoe / 4) + 4)
    by (Z.div_mod_to_equations; lia).
  assert (H100 : 100 * (yoe / 100) <= yoe < 100 * (yoe / 100) + 100)
    by (Z.div_mod_to_equations; lia).
  destruct (Z.ltb_spec mp 10) as [Hlt | Hge];
    match goal with
    | |- context [if ?a <=? ?b then _ else _] => destruct (Z.leb_spec a b)
    end; unfold doy in *; lia.
Qed.

(** The year of a valid date has at most six digits. *)
Lemma civilFromDays_year_wide :
  -100000000 <= days <= 100000000 ->
  -999999 <= fst (fst (civilFromDays days)) <= 999999.
Proof.
  intros H. cbv beta iota zeta delta [civilFromDays fst].
  fold z. fold era. fold doe. fold yoe. fold doy. fold mp.
  pose proof yoe_range.
  assert (Hera : -700 <= era <= 700)
    by (unfold era, z; Z.div_mod_to_equations; lia).
  repeat match goal with
         | |- context [if ?b then _ else _] => destruct b
         end; lia.
Qed.

End Calendar.

Lemma digitValue_digitChar (n : Z) : digitValue (digitChar n) = Some (n mod 10).
Proof.
  unfold digitChar.
  assert (H : 0 <= n mod 10 < 10) by (apply Z.mod_pos_bound; lia).
  assert (Hc : n mod 10 = 0 \/ n mod 10 = 1 \/ n mod 10 = 2 \/ n mod 10 = 3
               \/ n mod 10 = 4 \/ n mod 10 = 5 \/ n mod 10 = 6
               \/ n mod 10 = 7 \/ n mod 10 = 8 \/ n mod 10 = 9) by lia.
  repeat (destruct Hc as [-> | Hc]; [reflexivity |]).
  rewrite Hc. reflexivity.
Qed.

Lemma digitChar_not_sign (n : Z) :
  Ascii.eqb (digitChar n) "+" = false /\ Ascii.eqb (digitChar n) "-" = false.
Proof.
  unfold digitChar.
  assert (H : 0 <= n mod 10 < 10) by (apply Z.mod_pos_bound; lia).
  assert (Hc : n mod 10 = 0 \/ n mod 10 = 1 \/ n mod 10 = 2 \/ n mod 10 = 3
               \/ n mod 10 = 4 \/ n mod 10 = 5 \/ n mod 10 = 6
               \/ n mod 10 = 7 \/ n mod 10 = 8 \/ n mod 10 = 9) by lia.
  repeat (destruct Hc as [-> | Hc]; [split; reflexivity |]).
  rewrite Hc. split; reflexivity.
Qed.

Lemma digits_2 (n : Z) :
  digits 2 n = String (digitChar (n / 10)) (String (digitChar n) EmptyString).
Proof. reflexivity. Qed.

Lemma digits_3 (n : Z) :
  digits 3 n = String (digitChar (n / 10 / 10))
                 (String (digitChar (n / 10))
                    (String (digitChar n) EmptyString)).
Proof. reflexivity. Qed.

Lemma digits_4 (n : Z) :
  digits 4 n = String (digitChar (n / 10 / 10 / 10))
                 (String (digitChar (n / 10 / 10))
                    (String (digitChar (n / 10))
                       (String (digitChar n) EmptyString))).
Proof. reflexivity. Qed.

Lemma digits_6 (n : Z) :
  digits 6 n
    = String (digitChar (n / 10 / 10 / 10 / 10 / 10))
        (String (digitChar (n / 10 / 10 / 10 / 10))
           (String (digitChar (n / 10 / 10 / 10))
              (String (digitChar (n / 10 / 10))
                 (String (digitChar (n / 10))
                    (String (digitChar n) EmptyString))))).
Proof. reflexivity. Qed.

(** The fields that follow the year are read back as written. *)
Lemma readAfterYear_written (y m d h n s f : Z) :
  0 <= m < 100 -> 0 <= d < 100 -> 0 <= h < 100 ->
  0 <= n < 100 -> 0 <= s < 100 -> 0 <= f < 1000 ->
  readAfterYear y
    (list_ascii_of_string
       ("-"%string +++ digits 2 m +++ "-"%string
          +++ digits 2 d +++ "T"%string +++ digits 2 h +++ ":"%string
          +++ digits 2 n +++ ":"%string +++ digits 2 s +++ "."%string
          +++ digits 3 f +++ "Z"%string))
    = Some {| year := y; month := m; day := d; hours := h; minutes := n;
              seconds := s; milliseconds := f |}.
Proof.
  intros Hm Hd Hh Hn Hs Hf.
  rewrite !digits_2, digits_3.
  cbn [append list_ascii_of_string]. unfold readAfterYear.
  rewrite !Ascii.eqb_refl. cbn [andb readNumber].
  rewrite !digitValue_digitChar.
  f_equal. f_equal; Z.div_mod_to_equations; lia.
Qed.

Lemma list_ascii_of_string_append (a b : string) :
  list_ascii_of_string (a +++ b)
    = list_ascii_of_string a ++ list_ascii_of_string b.
Proof. induction a as [|c a IH]; simpl; [| rewrite IH]; reflexivity. Qed.

(** A date whose year has at most six digits is read back as written, with
    four digits for the years 0 to 9999 and a sign and six digits for the
    others. *)
Lemma readISO_written (y m d h n s f : Z) :
  -999999 <= y <= 999999 ->
  0 <= m < 100 -> 0 <= d < 100 -> 0 <= h < 100 ->
  0 <= n < 100 -> 0 <= s < 100 -> 0 <= f < 1000 ->
  readISO (yearString y +++ "-"%string +++ digits 2 m +++ "-"%string
             +++ digits 2 d +++ "T"%string +++ digits 2 h +++ ":"%string
             +++ digits 2 n +++ ":"%string +++ digits 2 s +++ "."%string
             +++ digits 3 f +++ "Z"%string)
    = Some {| year := y; month := m; day := d; hours := h; minutes := n;
              seconds := s; milliseconds := f |}.
Proof.
  intros Hy Hm Hd Hh Hn Hs Hf.
  pose proof (readAfterYear_written y m d h n s f Hm Hd Hh Hn Hs Hf) as Hrest.
  set (rest := ("-"%string +++ digits 2 m +++ "-"%string
                  +++ digits 2 d +++ "T"%string +++ digits 2 h +++ ":"%string
                  +++ digits 2 n +++ ":"%string +++ digits 2 s +++ "."%string
                  +++ digits 3 f +++ "Z"%string)) in *.
  unfold readISO. rewrite list_ascii_of_string_append.
  unfold yearString.
  destruct (Z.leb_spec 0 y) as [H0 | H0];
    [destruct (Z.leb_spec y 9999) as [H9 | H9] |]; cbn [andb].
  - rewrite digits_4. cbn [list_ascii_of_string app].
    destruct (digitChar_not_sign (y / 10 / 10 / 10)) as [-> ->].
    cbn [orb readNumber]. rewrite !digitValue_digitChar.
    replace (10 * (10 * (10 * (10 * 0 + (y / 10 / 10 / 10) mod 10)
                         + (y / 10 / 10) mod 10) + (y / 10) mod 10)
             + y mod 10) with y by (Z.div_mod_to_equations; lia).
    exact Hrest.
  - destruct (Z.ltb_spec y 0); [lia |].
    rewrite digits_6. cbn [append list_ascii_of_string app].
    rewrite Ascii.eqb_refl. cbn [orb readNumber].
    rewrite !digitValue_digitChar.
    set (a := Z.abs y) in *.
    replace (10 * (10 * (10 * (10 * (10 * (10 * 0
               + (a / 10 / 10 / 10 / 10 / 10) mod 10)
               + (a / 10 / 10 / 10 / 10) mod 10)
               + (a / 10 / 10 / 10) mod 10)
               + (a / 10 / 10) mod 10) + (a / 10) mod 10) + a mod 10)
      with y by (unfold a; Z.div_mod_to_equations; lia).
    exact Hrest.
  - destruct (Z.ltb_spec y 0); [| lia].
    rewrite digits_6. cbn [append list_ascii_of_string app].
    change (Ascii.eqb "-" "+") with false. rewrite Ascii.eqb_refl.
    cbn [orb readNumber]. rewrite !digitValue_digitChar.
    set (a := Z.abs y) in *.
    replace (10 * (10 * (10 * (10 * (10 * (10 * 0
               + (a / 10 / 10 / 10 / 10 / 10) mod 10)
               + (a / 10 / 10 / 10 / 10) mod 10)
               + (a / 10 / 10 / 10) mod 10)
               + (a / 10 / 10) mod 10) + (a / 10) mod 10) + a mod 10)
      with (- y) by (unfold a; Z.div_mod_to_equations; lia).
    destruct (Z.eqb_spec (- y) 0); [lia |].
    rewrite Z.opp_involutive. exact Hrest.
Qed.

(** The text written for a valid date is an ISO-8601 date and time, that of
    its day and of its time in the day. *)
Lemma isoFormat_ISO8601 (t : Z) :
  validTime t = true ->
  exists dt,
    readISO (isoFormat t) = Some dt
    /\ validDateTime dt = true
    /\ (year dt, month dt, day dt) = civilFromDays (t / msPerDay)
    /\ ((hours dt * 60 + minutes dt) * 60 + seconds dt) * 1000
       + milliseconds dt = t mod msPerDay.
Proof.
  intros Ht. unfold validTime, maxTime in Ht.
  apply andb_true_iff in Ht as [Hlow Hhigh].
  apply Z.leb_le in Hlow, Hhigh.
  unfold isoFormat, msPerDay.
  assert (Hdays : -100000000 <= t / 86400000 <= 100000000)
    by (Z.div_mod_to_equations; lia).
  pose proof (civilFromDays_year_wide _ Hdays) as Hyear.
  pose proof (civilFromDays_month_day (t / 86400000)) as [Hmonth Hday].
  destruct (civilFromDays (t / 86400000)) as [[y m] d].
  cbn [fst snd] in Hyear, Hmonth, Hday.
  set (r := t mod 86400000).
  assert (Hr : 0 <= r < 86400000) by (apply Z.mod_pos_bound; lia).
  rewrite readISO_written;
    try (Z.div_mod_to_equations; lia).
  eexists. split; [reflexivity |].
  unfold validDateTime.
  cbn [year month day hours minutes seconds milliseconds].
  split; [| split; [reflexivity | Z.div_mod_to_equations; lia]].
  repeat (apply andb_true_iff; split); apply Z.leb_le;
    Z.div_mod_to_equations; lia.
Qed.


(** ** The text of [JSON.stringify] read back *)

Lemma append_associative (a b c : string) : (a +++ b) +++ c = a +++ b +++ c.
Proof. induction a as [|x a IH]; simpl; [| rewrite IH]; reflexivity. Qed.

Lemma append_empty (a : string) : a +++ EmptyString = a.
Proof. induction a as [|x a IH]; simpl; [| rewrite IH]; reflexivity. Qed.

Lemma lexFrom_append (a b : string) (state : Lexing * list Token) :
  lexFrom state (a +++ b)
    = match lexFrom state a with
      | Some next => lexFrom next b
      | None => None
      end.
Proof.
  revert state. induction a as [|c a IH]; intros state; simpl.
  - reflexivity.
  - destruct (lexStep state c); [apply IH | reflexivity].
Qed.

(** An escaped character is read as the character. *)
Lemma lexFrom_quoteChar (c : ascii) (read : string) (ts : list Token) :
  lexFrom (Within read, ts) (quoteChar c) = Some (Within (add read c), ts).
Proof.
  destruct c as [[] [] [] [] [] [] [] []]; reflexivity.
Qed.

Lemma lexFrom_quoteBody (s read : string) (ts : list Token) :
  lexFrom (Within read, ts) (quoteBody s) = Some (Within (read +++ s), ts).
Proof.
  revert read. induction s as [|c s IH]; intros read.
  - simpl. rewrite append_empty. reflexivity.
  - cbn [quoteBody]. rewrite lexFrom_append, lexFrom_quoteChar, IH.
    unfold add. rewrite append_associative. reflexivity.
Qed.

Lemma lexes_quote (s : string) : lexes (quote s) [Text s].
Proof.
  intros before. unfold quote.
  change (lexFrom (Between, before) (dquote +++ quoteBody s +++ dquote))
    with (lexFrom (Within EmptyString, before) (quoteBody s +++ dquote)).
  rewrite lexFrom_append, lexFrom_quoteBody. reflexivity.
Qed.

Lemma lexes_append (a b : string) (ta tb : list Token) :
  lexes a ta -> lexes b tb -> lexes (a +++ b) (ta ++ tb).
Proof.
  intros Ha Hb before. rewrite lexFrom_append, Ha, Hb.
  rewrite rev_app_distr, app_assoc. reflexivity.
Qed.

Lemma lexes_join (sep : string) (tsep : list Token) (l : list string)
  (tl : list (list Token)) :
  lexes sep tsep -> Forall2 lexes l tl ->
  lexes (join sep l) (joinTokens tsep tl).
Proof.
  intros Hsep H. induction H as [|x tx l tl Hx Hl IH].
  - intros before. reflexivity.
  - destruct Hl as [|y ty l tl Hy Hl].
    + exact Hx.
    + change (lexes (x +++ sep +++ join sep (y :: l))
                (tx ++ tsep ++ joinTokens tsep (ty :: tl))).
      apply lexes_append; [exact Hx |].
      apply lexes_append; [exact Hsep | exact IH].
Qed.

Lemma Forall2_map_both {A B C} (R : B -> C -> Prop) (f : A -> B) (g : A -> C)
  (l : list A) :
  (forall x, R (f x) (g x)) -> Forall2 R (map f l) (map g l).
Proof. intros H. induction l; simpl; constructor; auto. Qed.

Lemma lexes_stringifyProperty (indent : string) (kv : string * string) :
  lexes indent [] ->
  lexes (stringifyProperty indent kv) (propertyTokens kv).
Proof.
  intros Hi. unfold stringifyProperty, propertyTokens.
  change [Text (fst kv); Colon; Text (snd kv)]
    with ([] ++ [Text (fst kv)] ++ [Colon] ++ [Text (snd kv)]).
  apply lexes_append; [exact Hi |].
  apply lexes_append; [apply lexes_quote |].
  apply lexes_append; [intros before; reflexivity | apply lexes_quote].
Qed.

Lemma lexes_separator : lexes (","%string +++ newline) [Comma].
Proof. intros before. reflexivity. Qed.

Lemma lexes_stringifyObject (indent : string) (o : StringRecord) :
  lexes indent [] ->
  lexes (stringifyObject indent o) (objectTokens o).
Proof.
  intros Hi. destruct o as [|p o].
  - intros before. reflexivity.
  - unfold stringifyObject, objectTokens.
    set (properties := p :: o).
    change (LeftBrace :: joinTokens [Comma] (map propertyTokens properties)
              ++ [RightBrace])
      with ([LeftBrace] ++ [] ++ joinTokens [Comma]
              (map propertyTokens properties) ++ [] ++ [] ++ [RightBrace]).
    apply lexes_append; [intros before; reflexivity |].
    apply lexes_append; [intros before; reflexivity |].
    apply lexes_append.
    { apply lexes_join; [apply lexes_separator |].
      apply Forall2_map_both. intros kv. apply lexes_stringifyProperty.
      change (lexes (indent +++ "  "%string) ([] ++ [])).
      apply lexes_append; [exact Hi | intros before; reflexivity]. }
    apply lexes_append; [intros before; reflexivity |].
    apply lexes_append; [exact Hi | intros before; reflexivity].
Qed.

Lemma lexes_stringifyArray (l : list StringRecord) :
  lexes (stringifyArray l) (arrayTokens l).
Proof.
  destruct l as [|o l].
  - intros before. reflexivity.
  - unfold stringifyArray, arrayTokens.
    set (objects := o :: l).
    change (LeftBracket :: joinTokens [Comma] (map objectTokens objects)
              ++ [RightBracket])
      with ([LeftBracket] ++ [] ++ joinTokens [Comma]
              (map objectTokens objects) ++ [] ++ [RightBracket]).
    apply lexes_append; [intros before; reflexivity |].
    apply lexes_append; [intros before; reflexivity |].
    apply lexes_append.
    { apply lexes_join; [apply lexes_separator |].
      apply Forall2_map_both. intros x.
      change (objectTokens x) with ([] ++ objectTokens x).
      apply lexes_append; [intros before; reflexivity |].
      apply lexes_stringifyObject. intros before. reflexivity. }
    apply lexes_append; intros before; reflexivity.
Qed.

Lemma parseFrom_app (a b : list Token) (state : Parsing) :
  parseFrom state (a ++ b)
    = match parseFrom state a with
      | Some next => parseFrom next b
      | None => None
      end.
Proof.
  revert state. induction a as [|t a IH]; intros state; simpl.
  - reflexivity.
  - destruct (parseStep state t); [apply IH | reflexivity].
Qed.

Lemma parseFrom_properties (o : StringRecord) :
  forall (p : string * string) (complete : list StringRecord)
         (open : StringRecord),
    parseFrom (KeyDue complete open)
      (joinTokens [Comma] (map propertyTokens (p :: o)))
      = Some (ValueRead complete (open ++ p :: o)).
Proof.
  induction o as [|q o IH]; intros [k v] complete open.
  - reflexivity.
  - change (joinTokens [Comma] (map propertyTokens ((k, v) :: q :: o)))
      with (Text k :: Colon :: Text v :: Comma
              :: joinTokens [Comma] (map propertyTokens (q :: o))).
    cbn [parseFrom parseStep]. rewrite IH, <- app_assoc. reflexivity.
Qed.

Lemma parseFrom_first_property (p : string * string) (o : StringRecord)
  (complete : list StringRecord) :
  parseFrom (ObjectOpened complete)
    (joinTokens [Comma] (map propertyTokens (p :: o)))
    = parseFrom (KeyDue complete [])
        (joinTokens [Comma] (map propertyTokens (p :: o))).
Proof. destruct p as [k v]. destruct o; reflexivity. Qed.

Lemma parseFrom_object (o : StringRecord) (complete : list StringRecord) :
  parseFrom (ObjectDue complete) (objectTokens o)
    = Some (ObjectClosed (complete ++ [o])).
Proof.
  destruct o as [|p o]; [reflexivity |].
  unfold objectTokens. cbn [parseFrom parseStep].
  rewrite parseFrom_app, parseFrom_first_property, parseFrom_properties.
  reflexivity.
Qed.

Lemma parseFrom_objects (l : list StringRecord) :
  forall (o : StringRecord) (complete : list StringRecord),
    parseFrom (ObjectDue complete)
      (joinTokens [Comma] (map objectTokens (o :: l)))
      = Some (ObjectClosed (complete ++ o :: l)).
Proof.
  induction l as [|q l IH]; intros o complete.
  - apply parseFrom_object.
  - change (joinTokens [Comma] (map objectTokens (o :: q :: l)))
      with (objectTokens o ++ Comma
              :: joinTokens [Comma] (map objectTokens (q :: l))).
    rewrite parseFrom_app, parseFrom_object.
    cbn [parseFrom parseStep]. rewrite IH, <- app_assoc. reflexivity.
Qed.

Lemma parseFrom_first_object (o : StringRecord) (l : list StringRecord) :
  parseFrom ArrayOpened (joinTokens [Comma] (map objectTokens (o :: l)))
    = parseFrom (ObjectDue [])
        (joinTokens [Comma] (map objectTokens (o :: l))).
Proof. destruct o; destruct l; reflexivity. Qed.

Lemma parseFrom_array (l : list StringRecord) :
  parseFrom AtStart (arrayTokens l) = Some (AtEnd l).
Proof.
  destruct l as [|o l]; [reflexivity |].
  unfold arrayTokens. cbn [parseFrom parseStep].
  rewrite parseFrom_app, parseFrom_first_object, parseFrom_objects.
  reflexivity.
Qed.

(** The text that [JSON.stringify] writes for an array of objects denotes
    that array: the same objects in the same order, each with the same
    properties in the same order. *)
Lemma readJSON_stringifyArray (l : list StringRecord) :
  readJSON (stringifyArray l) = Some l.
Proof.
  unfold readJSON. rewrite (lexes_stringifyArray l []).
  rewrite app_nil_r, rev_involutive, parseFrom_array. reflexivity.
Qed.

(** ** The three tools on a channel that is found *)

Lemma mapThrowing_formatMessage (channel : Channel) (window : list Message) :
  validDates window = true ->
  mapThrowing (formatMessage channel) window
    = inr (map (formatted channel) window).
Proof.
  induction window as [|msg window IH]; intros H; [reflexivity |].
  apply andb_true_iff in H as [Hmsg Hrest].
  cbn [mapThrowing map]. unfold formatMessage at 1, toISOString.
  rewrite Hmsg, (IH Hrest). reflexivity.
Qed.

Lemma mapThrowing_formatMessage_invalid (channel : Channel)
  (window : list Message) :
  validDates window = false ->
  mapThrowing (formatMessage channel) window
    = inl (Error "Invalid time value").
Proof.
  induction window as [|msg window IH]; intros H; [discriminate H |].
  cbn [mapThrowing]. unfold formatMessage at 1, toISOString.
  unfold validDates in H. cbn [forallb] in H.
  destruct (validTime (createdTimestamp msg)); [| reflexivity].
  rewrite (IH H). reflexivity.
Qed.

Lemma validDates_nth (window : list Message) (i : nat) (msg : Message) :
  validDates window = true -> nth_error window i = Some msg ->
  validTime (createdTimestamp msg) = true.
Proof.
  intros H Hi. unfold validDates in H. rewrite forallb_forall in H.
  apply H. eapply nth_error_In. exact Hi.
Qed.

(** What [read-messages] does once its channel is found and the fetch has
    resolved. *)
Lemma readMessages_fetched
  (client : Client) (args : option JSON) (a : ReadMessagesArgs)
  (channel : Channel) (t : list Event) (window : list Message) :
  ReadMessagesSchema [] args = inr a ->
  findChannel client (read_channel a) (read_server a)
    = (t, Resolved (Some channel)) ->
  messages_fetch client channel (read_limit a) = Resolved window ->
  callTool client {| request_name := "read-messages";
                     request_arguments := args |}
    = (t ++ [MessagesFetch channel (read_limit a)],
       if validDates window
       then Resolved (textResult
                        (stringifyArray (map (formatted channel) window)))
       else Rejected (Error "Invalid time value")).
Proof.
  intros Hp Hfind Hfetch.
  unfold callTool. cbn [request_name request_arguments].
  change (String.eqb "read-messages" "send-message") with false.
  change (String.eqb "read-messages" "read-messages") with true.
  cbv beta iota.
  unfold readMessages, parse. rewrite Hp.
  unfold bind at 1. unfold ret at 1.
  unfold bind at 1. rewrite Hfind.
  unfold bind, await. rewrite Hfetch.
  destruct (validDates window) eqn:Hdates.
  - rewrite (mapThrowing_formatMessage channel window Hdates).
    unfold ret, try_catch. rewrite app_nil_r. reflexivity.
  - rewrite (mapThrowing_formatMessage_invalid channel window Hdates).
    unfold throw, try_catch. cbn [fst snd app].
    rewrite ?app_nil_r. reflexivity.
Qed.

(** C8. A read-messages invocation whose channel is found and whose fetch
    resolves succeeds when every fetched message has a valid date, and is
    rejected with the [RangeError] of [toISOString] otherwise.  When it
    succeeds, the text it returns is a JSON text that denotes an array of
    one object per fetched message, in the order of the fetch: the object
    at a position is built from the message at that position and holds
    exactly, in this order, the channel name with its marker, the server
    name, the author's tag, the content and the creation time as
    [toISOString] writes it, which is an ISO-8601 date and time. *)
Theorem callTool_read_messages
  (client : Client) (args : option JSON) (a : ReadMessagesArgs)
  (channel : Channel) (t : list Event) (window : list Message) :
  ReadMessagesSchema [] args = inr a ->
  findChannel client (read_channel a) (read_server a)
    = (t, Resolved (Some channel)) ->
  messages_fetch client channel (read_limit a) = Resolved window ->
  (validDates window = true ->
   exists text entries,
     callTool client {| request_name := "read-messages";
                        request_arguments := args |}
       = (t ++ [MessagesFetch channel (read_limit a)],
          Resolved (textResult text))
     /\ readJSON text = Some entries
     /\ length entries = length window
     /\ (forall i msg,
           nth_error window i = Some msg ->
           exists timestamp,
             toISOString (createdTimestamp msg) = inr timestamp
             /\ isISO8601 timestamp = true
             /\ nth_error entries i
                = Some [ ("channel"%string,
                          "#"%string +++ channel_name channel);
                         ("server"%string, channel_guild_name channel);
                         ("author"%string, tag (author msg));
                         ("content"%string, content msg);
                         ("timestamp"%string, timestamp) ]))
  /\ (validDates window = false ->
      callTool client {| request_name := "read-messages";
                         request_arguments := args |}
        = (t ++ [MessagesFetch channel (read_limit a)],
           Rejected (Error "Invalid time value"))).
Proof.
  intros Hp Hfind Hfetch.
  pose proof (readMessages_fetched client args a channel t window
                Hp Hfind Hfetch) as Hcall.
  split; intros Hdates.
  - rewrite Hdates in Hcall.
    exists (stringifyArray (map (formatted channel) window)),
           (map (formatted channel) window).
    split; [exact Hcall |].
    split; [apply readJSON_stringifyArray |].
    split; [apply length_map |].
    intros i msg Hi.
    pose proof (validDates_nth window i msg Hdates Hi) as Hvalid.
    exists (isoFormat (createdTimestamp msg)).
    split; [unfold toISOString; rewrite Hvalid; reflexivity |].
    split.
    + unfold isISO8601.
      destruct (isoFormat_ISO8601 _ Hvalid) as (dt & -> & Hv & _).
      exact Hv.
    + rewrite nth_error_map, Hi. reflexivity.
  - rewrite Hdates in Hcall. exact Hcall.
Qed.

(** The window is delivered newest first and is answered in that order;
    a window with a message whose time is past the last [Date] is not
    answered. *)
Lemma callTool_read_messages_witness :
  (exists text entries,
     callTool (Sample.platform [Sample.alpha] Sample.recent)
              (Sample.request "read-messages"
                 [("channel"%string, JString "general");
                  ("limit"%string, JNumber 2)])
       = ([ChannelsFetch "general"%string; MessagesFetch Sample.general 2],
          Resolved (textResult text))
     /\ readJSON text = Some entries
     /\ map (fun e => nth 3 (map snd e) EmptyString) entries
        = ["done"%string; "build passed"%string]
     /\ map (fun e => nth 4 (map snd e) EmptyString) entries
        = ["2023-11-14T22:13:23.000Z"%string;
           "2023-11-14T22:13:22.000Z"%string])
  /\ callTool (Sample.platform [Sample.alpha] Sample.undated)
              (Sample.request "read-messages"
                 [("channel"%string, JString "general");
                  ("limit"%string, JNumber 2)])
     = ([ChannelsFetch "general"%string; MessagesFetch Sample.general 2],
        Rejected (Error "Invalid time value")).
Proof.
  split.
  - destruct (proj1 (callTool_read_messages
                (Sample.platform [Sample.alpha] Sample.recent)
                (Some (JObject [("channel"%string, JString "general");
                                ("limit"%string, JNumber 2)]))
                {| read_server := None; read_channel := "general";
                   read_limit := 2 |}
                Sample.general [ChannelsFetch "general"%string]
                (firstn 2 Sample.recent) eq_refl eq_refl eq_refl) eq_refl)
      as (text & entries & Hcall & Hread & Hlen & Hnth).
    exists text, entries.
    split; [exact Hcall |]. split; [exact Hread |].
    destruct entries as [|e0 [|e1 [|e2 r]]]; try discriminate Hlen.
    destruct (Hnth 0%nat _ eq_refl) as (t0 & Ht0 & _ & H0).
    destruct (Hnth 1%nat _ eq_refl) as (t1 & Ht1 & _ & H1).
    vm_compute in Ht0, Ht1. injection Ht0 as <-. injection Ht1 as <-.
    injection H0 as ->. injection H1 as ->.
    split; reflexivity.
  - exact (proj2 (callTool_read_messages
                (Sample.platform [Sample.alpha] Sample.undated)
                (Some (JObject [("channel"%string, JString "general");
                                ("limit"%string, JNumber 2)]))
                {| read_server := None; read_channel := "general";
                   read_limit := 2 |}
                Sample.general [ChannelsFetch "general"%string]
                (firstn 2 Sample.undated) eq_refl eq_refl eq_refl) eq_refl).
Defined.


Lemma filter_writes_reads (t : list Event) :
  forallb (fun e => negb (writes e)) t = true -> filter writes t = [].
Proof.
  induction t as [|e t IH]; simpl; [reflexivity |].
  intros H. apply andb_true_iff in H as [He Ht].
  destruct (writes e); [discriminate He | apply IH, Ht].
Qed.

Lemma findLastUserMessage_outcome
  (client : Client) (channel : Channel) (botId : string) (contextSize : Z)
  (r : Conversation) :
  outcome (findLastUserMessage client channel botId contextSize) = Resolved r ->
  findLastUserMessage client channel botId contextSize
    = ([MessagesFetch channel contextSize], Resolved r).
Proof.
  intros Hout.
  destruct (messages_fetch client channel contextSize) as [window|e] eqn:Hf.
  - rewrite (findLastUserMessage_resolved _ _ _ _ _ Hf) in *.
    simpl in Hout. rewrite Hout. reflexivity.
  - unfold findLastUserMessage, await, bind in Hout. rewrite Hf in Hout.
    discriminate Hout.
Qed.

(** What reply-to-conversation does once its channel is found and the
    window scanned. *)
Lemma replyToConversation_scanned
  (client : Client) (args : option JSON) (a : ReplyToConversationArgs)
  (channel : Channel) (t : list Event) (botUser : User) (r : Conversation) :
  ReplyToConversationSchema [] args = inr a ->
  findChannel client (reply_channel a) (reply_server a)
    = (t, Resolved (Some channel)) ->
  client_user client = Some botUser ->
  outcome (findLastUserMessage client channel (user_id botUser)
                               (reply_contextSize a)) = Resolved r ->
  callTool client {| request_name := "reply-to-conversation";
                     request_arguments := args |}
    = match lastUserMessage r with
      | None =>
          (t ++ [MessagesFetch channel (reply_contextSize a)],
           Resolved
             (textResult
                ("No non-bot user messages found in the last "%string
                   +++ numberToString (reply_contextSize a)
                   +++ " messages in #"%string +++ channel_name channel
                   +++ "."%string)))
      | Some target =>
          match message_reply client target (reply_message a) with
          | Resolved sent =>
              (t ++ [MessagesFetch channel (reply_contextSize a);
                     MessageReply target (reply_message a)],
               Resolved
                 (textResult
                    ("Replied to "%string +++ username (author target)
                       +++ " in #"%string +++ channel_name channel
                       +++ ". Message ID: "%string +++ message_id sent
                       +++ newline +++ newline
                       +++ "Conversation Context:"%string +++ newline
                       +++ formatConversation (conversationContext r))))
          | Rejected e =>
              (t ++ [MessagesFetch channel (reply_contextSize a);
                     MessageReply target (reply_message a)],
               Rejected
                 match e with
                 | ZodError errors => Error (invalidArguments errors)
                 | Error _ => e
                 end)
          end
      end.
Proof.
  intros Hp Hfind Huser Hout.
  apply findLastUserMessage_outcome in Hout.
  unfold callTool. cbn [request_name request_arguments].
  change (String.eqb "reply-to-conversation" "send-message") with false.
  change (String.eqb "reply-to-conversation" "read-messages") with false.
  change (String.eqb "reply-to-conversation" "reply-to-conversation")
    with true.
  cbv beta iota.
  unfold replyToConversation, parse. rewrite Hp.
  unfold bind at 1. unfold ret at 1. cbv zeta.
  unfold bind at 1. rewrite Hfind.
  unfold clientUserId. rewrite Huser.
  unfold bind at 1. unfold ret at 1.
  unfold bind at 1. rewrite Hout.
  destruct (lastUserMessage r) as [target|].
  - unfold bind, await, ret.
    destruct (message_reply client target (reply_message a)) as [sent|e].
    + unfold try_catch. cbn [app]. reflexivity.
    + unfold try_catch.
      destruct e; unfold throw; cbn [app]; rewrite ?app_nil_r; reflexivity.
  - unfold ret, try_catch. cbn [app]. rewrite ?app_nil_r. reflexivity.
Qed.

(** C7. Once the channel of a reply-to-conversation request is found and
    its window scanned: if no message of a user is found, nothing is sent
    and the text names the window size and the channel; otherwise the one
    write to the platform is a reply to the message found, not a send to
    the channel, and the text holds the name of the author replied to, the
    channel name, the identifier of the new message and the transcript of
    the scanned window, where the line of each message is tagged BOT or
    USER by the automated flag of its author and holds the author's name
    and the content. *)
Theorem callTool_reply_to_conversation
  (client : Client) (args : option JSON) (a : ReplyToConversationArgs)
  (channel : Channel) (t : list Event) (botUser : User) (r : Conversation) :
  ReplyToConversationSchema [] args = inr a ->
  findChannel client (reply_channel a) (reply_server a)
    = (t, Resolved (Some channel)) ->
  client_user client = Some botUser ->
  outcome (findLastUserMessage client channel (user_id botUser)
                               (reply_contextSize a)) = Resolved r ->
  let request := {| request_name := "reply-to-conversation";
                    request_arguments := args |} in
  (lastUserMessage r = None ->
   exists text,
     outcome (callTool client request) = Resolved (textResult text)
     /\ filter writes (trace (callTool client request)) = []
     /\ includes text (channel_name channel) = true
     /\ includes text (numberToString (reply_contextSize a)) = true)
  /\ (forall target sent,
        lastUserMessage r = Some target ->
        message_reply client target (reply_message a) = Resolved sent ->
        exists text,
          outcome (callTool client request) = Resolved (textResult text)
          /\ filter writes (trace (callTool client request))
             = [MessageReply target (reply_message a)]
          /\ includes text (username (author target)) = true
          /\ includes text (channel_name channel) = true
          /\ includes text (message_id sent) = true
          /\ includes text (formatConversation (conversationContext r)) = true
          /\ forall m, In m (conversationContext r) ->
               includes (formatConversation (conversationContext r))
                        ("["%string
                           +++ (if bot (author m) then "BOT"%string
                                else "USER"%string)
                           +++ ":"%string +++ username (author m)
                           +++ "] "%string +++ content m) = true).
Proof.
  intros Hp Hfind Huser Hout request.
  pose proof (replyToConversation_scanned client args a channel t botUser r
                Hp Hfind Huser Hout) as Hcall.
  fold request in Hcall.
  pose proof (findChannel_reads client (reply_channel a) (reply_server a))
    as Hreads.
  rewrite Hfind in Hreads. simpl in Hreads.
  apply filter_writes_reads in Hreads.
  split.
  - intros Hnone. rewrite Hnone in Hcall. rewrite Hcall.
    eexists. split; [reflexivity |].
    split; [simpl; rewrite filter_app, Hreads; reflexivity |].
    split; piece.
  - intros target sent Hsome Hreply.
    rewrite Hsome, Hreply in Hcall. rewrite Hcall.
    eexists. split; [reflexivity |].
    split; [simpl; rewrite filter_app, Hreads; reflexivity |].
    split; [piece |]. split; [piece |]. split; [piece |]. split; [piece |].
    intros m Hm. apply includes_join.
    apply (in_map formatLine) in Hm. exact Hm.
Qed.

(** Of the three newest messages the bot's and another automated author's
    are newer than Jane's: the reply goes to Jane's message, and the
    transcript has the three lines, oldest first. *)
Lemma callTool_reply_to_conversation_witness :
  callTool (Sample.platform [Sample.alpha] Sample.recent)
           (Sample.request "reply-to-conversation"
              [("channel"%string, JString "general");
               ("message"%string, JString "noted");
               ("contextSize"%string, JNumber 3)])
    = ([ChannelsFetch "general"%string;
        MessagesFetch Sample.general 3;
        MessageReply (Sample.text "2001" Sample.jane "ok" 1700000001000)
                     "noted"],
       Resolved
         (textResult
            ("Replied to Jane in #general. Message ID: 3002"%string
               +++ newline +++ newline
               +++ "Conversation Context:"%string +++ newline
               +++ "[USER:Jane] ok"%string +++ newline
               +++ "[BOT:relay] build passed"%string +++ newline
               +++ "[BOT:helper] done"%string)))
  /\ (exists text,
        outcome (callTool
                   (Sample.platform [Sample.alpha] Sample.automatedOnly)
                   (Sample.request "reply-to-conversation"
                      [("channel"%string, JString "general");
                       ("message"%string, JString "noted");
                       ("contextSize"%string, JNumber 3)]))
          = Resolved (textResult text)
        /\ includes text "general" = true
        /\ includes text "3" = true).
Proof.
  split; [reflexivity |].
  destruct (callTool_reply_to_conversation
              (Sample.platform [Sample.alpha] Sample.automatedOnly)
              (Some (JObject [("channel"%string, JString "general");
                              ("message"%string, JString "noted");
                              ("contextSize"%string, JNumber 3)]))
              {| reply_server := None; reply_channel := "general";
                 reply_message := "noted"; reply_contextSize := 3 |}
              Sample.general [ChannelsFetch "general"%string]
              Sample.helper
              {| lastUserMessage := None;
                 conversationContext := rev Sample.automatedOnly |}
              eq_refl eq_refl eq_refl eq_refl)
    as [Hnone _].
  destruct (Hnone eq_refl) as (text & Hout & _ & Hname & Hsize).
  exists text. split; [exact Hout |]. split; [exact Hname | exact Hsize].
Defined.


(* ================================================================= *)
(** ** Further properties of the resolvers *)

(** The first element of a filtered list is the first element of the list
    that passes the filter. *)
Lemma first_filter_Some {A} (p : A -> bool) (l : list A) (x : A) :
  first (filter p l) = Some x <-> firstSuch p l x.
Proof.
  unfold first, firstSuch. induction l as [|y r IH]; simpl.
  - split; [discriminate |].
    intros (before & after & H & _). destruct before; discriminate H.
  - destruct (p y) eqn:Hy; simpl.
    + split.
      * intros [= <-]. exists [], r. repeat split. exact Hy.
      * intros (before & after & Hl & Hx & Hb).
        destruct before as [|z before]; simpl in *.
        -- injection Hl as -> _. reflexivity.
        -- injection Hl as <- _. rewrite Hy in Hb. discriminate Hb.
    + rewrite IH. split.
      * intros (before & after & -> & Hx & Hb).
        exists (y :: before), after. simpl. rewrite Hy. repeat split; assumption.
      * intros (before & after & Hl & Hx & Hb).
        destruct before as [|z before]; simpl in *.
        -- injection Hl as -> _. rewrite Hy in Hx. discriminate Hx.
        -- injection Hl as _ ->. apply andb_true_iff in Hb as [_ Hb].
           exists before, after. repeat split; assumption.
Qed.

Lemma first_filter_None {A} (p : A -> bool) (l : list A) :
  first (filter p l) = None <-> forallb (fun y => negb (p y)) l = true.
Proof.
  unfold first. induction l as [|y r IH]; simpl; [tauto |].
  destruct (p y); simpl; [split; discriminate | exact IH].
Qed.

(** What [findGuild] does with a reference that is not empty. *)
Lemma findGuild_referenced (client : Client) (c : ascii) (s : string) :
  findGuild client (Some (String c s))
    = ([GuildsFetch (String c s)],
       Resolved
         match guilds_fetch client (String c s) with
         | Resolved fetched => fetched
         | Rejected _ =>
             first (filter (guildNamed (String c s)) (guilds_cache client))
         end).
Proof.
  unfold findGuild, try_catch, bind, await, ret, guildNamed.
  destruct (guilds_fetch client (String c s)) as [[g|]|e]; try reflexivity.
  cbv beta iota.
  set (guilds := filter _ (guilds_cache client)).
  destruct guilds as [|g0 [|g1 r]]; reflexivity.
Qed.

(** X1. A reference that the guild fetch resolves as an identifier is
    answered with the fetched guild after that one fetch, whatever the names
    of the joined guilds are: the identifier goes before the name. *)
Theorem findGuild_identifier_first
  (client : Client) (reference : string) (fetched : Guild) :
  truthy (Some reference) = true ->
  guilds_fetch client reference = Resolved (Some fetched) ->
  findGuild client (Some reference)
    = ([GuildsFetch reference], Resolved (Some fetched)).
Proof.
  intros Ht Hf. destruct reference as [|c s]; [discriminate Ht |].
  rewrite findGuild_referenced, Hf. reflexivity.
Qed.

(** The reference 1 is the identifier of Alpha and the name of Delta, which
    comes first in the cache: Alpha is returned. *)
Lemma findGuild_identifier_first_witness :
  first (filter (guildNamed "1") [SampleMore.delta; Sample.alpha])
    = Some SampleMore.delta
  /\ findGuild (Sample.platform [SampleMore.delta; Sample.alpha] [])
               (Some "1"%string)
     = ([GuildsFetch "1"%string], Resolved (Some Sample.alpha)).
Proof.
  split; [reflexivity |].
  apply (findGuild_identifier_first
           (Sample.platform [SampleMore.delta; Sample.alpha] [])
           "1" Sample.alpha); reflexivity.
Defined.

(** X2. When the guild fetch of a reference is refused, [findGuild] returns
    the first joined guild, in the order of the cache, whose name is the
    reference letter case aside, and null exactly when no joined guild has
    that name. *)
Theorem findGuild_by_name
  (client : Client) (reference : string) (e : Thrown) :
  truthy (Some reference) = true ->
  guilds_fetch client reference = Rejected e ->
  (forall g,
      outcome (findGuild client (Some reference)) = Resolved (Some g)
      <-> firstSuch (guildNamed reference) (guilds_cache client) g)
  /\ (outcome (findGuild client (Some reference)) = Resolved None
      <-> forallb (fun g => negb (guildNamed reference g))
                  (guilds_cache client) = true).
Proof.
  intros Ht Hf. destruct reference as [|c s]; [discriminate Ht |].
  rewrite findGuild_referenced, Hf. simpl outcome. split.
  - intros g. rewrite <- first_filter_Some.
    split; [intros [= H]; exact H | intros ->; reflexivity].
  - rewrite <- first_filter_None.
    split; [intros [= H]; exact H | intros ->; reflexivity].
Qed.

(** Two joined guilds are named Alpha, letter case aside: the reference
    alpha is answered with the first.  The reference ÉCOLE is answered with
    the guild École. *)
Lemma findGuild_by_name_witness :
  outcome (findGuild (Sample.platform
                        [Sample.beta; Sample.alpha; SampleMore.alphaAgain] [])
                     (Some "alpha"%string))
    = Resolved (Some Sample.alpha)
  /\ outcome (findGuild (Sample.platform [Sample.alpha; Sample.ecole] [])
                        (Some "ÉCOLE"%string))
     = Resolved (Some Sample.ecole).
Proof.
  split.
  - apply (proj1 (findGuild_by_name
                    (Sample.platform
                       [Sample.beta; Sample.alpha; SampleMore.alphaAgain] [])
                    "alpha" (Error "Unknown Guild") eq_refl eq_refl)
                 Sample.alpha).
    exists [Sample.beta], [SampleMore.alphaAgain]. repeat split.
  - apply (proj1 (findGuild_by_name
                    (Sample.platform [Sample.alpha; Sample.ecole] [])
                    "ÉCOLE" (Error "Unknown Guild") eq_refl eq_refl)
                 Sample.ecole).
    exists [Sample.alpha], []. repeat split; vm_compute; reflexivity.
Defined.

(** X3. [findGuild] catches what the guild fetch throws: it never rejects,
    and it awaits no platform call for an absent or empty reference and one
    guild fetch, of the reference, otherwise. *)
Theorem findGuild_catches (client : Client) (reference : option string) :
  exists g,
    findGuild client reference
      = (match reference with
         | Some (String c s) => [GuildsFetch (String c s)]
         | _ => []
         end,
         Resolved g).
Proof.
  destruct reference as [[|c s]|].
  - unfold findGuild.
    destruct (length (guilds_cache client) =? 1)%nat; eexists; reflexivity.
  - rewrite findGuild_referenced. eexists. reflexivity.
  - unfold findGuild.
    destruct (length (guilds_cache client) =? 1)%nat; eexists; reflexivity.
Qed.

(** X4. Whatever channel [findChannel] returns is a text channel, and it is
    of the guild that [findGuild] resolves for the hint: found by its
    identifier, its guild has the identifier of that guild; found by its
    name, it is one of the channels of that guild. *)
Theorem findChannel_returns_text_channel_of_guild
  (client : Client) (reference : string) (hint : option string)
  (channel : Channel) :
  outcome (findChannel client reference hint) = Resolved (Some channel) ->
  instanceofTextChannel channel = true
  /\ exists guild,
       outcome (findGuild client hint) = Resolved (Some guild)
       /\ (channel_guild_id channel = guild_id guild
           \/ In channel (channels_cache guild)).
Proof.
  intros Hout.
  destruct (findGuild_resolves client hint) as (t & [guild|] & Hg).
  - rewrite (findChannel_resolved client _ _ _ _ Hg) in Hout.
    simpl in Hout. rewrite Hg. simpl.
    destruct (channels_fetch client reference) as [[c|]|e].
    + destruct (instanceofTextChannel c) eqn:Hk; simpl in Hout;
        [| discriminate Hout].
      destruct (String.eqb (channel_guild_id c) (guild_id guild)) eqn:Hid;
        [| discriminate Hout].
      injection Hout as <-. split; [exact Hk |].
      exists guild. split; [reflexivity |].
      left. apply String.eqb_eq, Hid.
    + discriminate Hout.
    + injection Hout as Hs. unfold searchChannelByName in Hs.
      destruct (length _ =? 0)%nat; [discriminate Hs |].
      apply first_filter_Some in Hs as (before & after & Hl & Hm & _).
      unfold channelNameMatches in Hm. apply andb_true_iff in Hm as [Hk _].
      split; [exact Hk |]. exists guild. split; [reflexivity |].
      right. rewrite Hl. apply in_or_app. right. left. reflexivity.
  - rewrite (findChannel_unresolved client _ _ _ Hg) in Hout.
    discriminate Hout.
Qed.

Lemma findChannel_returns_text_channel_of_guild_witness :
  instanceofTextChannel Sample.numbered = true
  /\ exists guild,
       outcome (findGuild (Sample.platform [Sample.alpha] []) None)
         = Resolved (Some guild)
       /\ (channel_guild_id Sample.numbered = guild_id guild
           \/ In Sample.numbered (channels_cache guild)).
Proof.
  apply (findChannel_returns_text_channel_of_guild
           (Sample.platform [Sample.alpha] []) "#555" None Sample.numbered).
  reflexivity.
Defined.

(** X5. When the lookup of a reference as an identifier fails, [findChannel]
    returns the first channel of the resolved guild, in the order of its
    cache, that is a text channel and whose name matches the reference;
    channels of other classes are passed over even when their name matches;
    it returns null exactly when no channel of the guild matches. *)
Theorem findChannel_by_name_first
  (client : Client) (reference : string) (hint : option string)
  (t : list Event) (guild : Guild) :
  lookupFails client reference ->
  findGuild client hint = (t, Resolved (Some guild)) ->
  (forall c,
      outcome (findChannel client reference hint) = Resolved (Some c)
      <-> firstSuch (channelNameMatches reference) (channels_cache guild) c)
  /\ (outcome (findChannel client reference hint) = Resolved None
      <-> forallb (fun c => negb (channelNameMatches reference c))
                  (channels_cache guild) = true)
  /\ (forall c, instanceofTextChannel c = false ->
                channelNameMatches reference c = false).
Proof.
  intros [e He] Hg.
  rewrite (findChannel_resolved client _ _ _ _ Hg), He. simpl outcome.
  assert (Hs : searchChannelByName guild reference
               = first (filter (channelNameMatches reference)
                               (channels_cache guild))).
  { unfold searchChannelByName.
    destruct (filter _ _) as [|c r]; reflexivity. }
  rewrite Hs. split; [| split].
  - intros c. rewrite <- first_filter_Some.
    split; [intros [= H]; exact H | intros ->; reflexivity].
  - rewrite <- first_filter_None.
    split; [intros [= H]; exact H | intros ->; reflexivity].
  - intros c Hk. unfold channelNameMatches. rewrite Hk. reflexivity.
Qed.

(** In Epsilon a voice channel General comes before the text channels
    general and GENERAL: the reference #General is answered with general.
    In École the reference #café is answered with the channel CAFÉ. *)
Lemma findChannel_by_name_first_witness :
  outcome (findChannel (Sample.platform [SampleMore.epsilon] [])
                       "#General" None)
    = Resolved (Some SampleMore.textGeneral)
  /\ outcome (findChannel (Sample.platform [Sample.ecole] []) "#café" None)
     = Resolved (Some Sample.cafe).
Proof.
  split.
  - apply (proj1 (findChannel_by_name_first
                    (Sample.platform [SampleMore.epsilon] []) "#General" None
                    [] SampleMore.epsilon
                    (ex_intro _ (Error "Unknown Channel") eq_refl) eq_refl)
                 SampleMore.textGeneral).
    exists [SampleMore.voiceGeneral], [SampleMore.textGeneralToo].
    repeat split.
  - apply (proj1 (findChannel_by_name_first
                    (Sample.platform [Sample.ecole] []) "#café" None
                    [] Sample.ecole
                    (ex_intro _ (Error "Unknown Channel") eq_refl) eq_refl)
                 Sample.cafe).
    exists [], []. repeat split; vm_compute; reflexivity.
Defined.

(** X6. [findChannel] never rejects. It awaits the calls of [findGuild] and
    then, only when a guild is resolved, one channel fetch of the reference:
    with no guild resolved it returns null and no channel is looked up. *)
Theorem findChannel_catches
  (client : Client) (reference : string) (hint : option string) :
  exists c,
    findChannel client reference hint
      = (trace (findGuild client hint)
           ++ match outcome (findGuild client hint) with
              | Resolved (Some _) => [ChannelsFetch reference]
              | _ => []
              end,
         Resolved c)
    /\ (outcome (findGuild client hint) = Resolved None -> c = None).
Proof.
  destruct (findGuild_resolves client hint) as (t & [guild|] & Hg).
  - rewrite (findChannel_resolved client _ _ _ _ Hg), Hg. simpl.
    eexists. split; [reflexivity | discriminate].
  - rewrite (findChannel_unresolved client _ _ _ Hg), Hg. simpl.
    exists None. rewrite app_nil_r. split; reflexivity.
Qed.








(* ================================================================= *)
(** ** Further properties of the scanner *)

Lemma insert_same_time (k : Z) (x : Message) (l : list Message) :
  filter (fun m => createdTimestamp m =? k) (insert byCreatedTimestamp x l)
    = filter (fun m => createdTimestamp m =? k) (x :: l).
Proof.
  induction l as [|y r IH]; [reflexivity |].
  simpl insert. unfold byCreatedTimestamp at 1.
  destruct (Z.leb_spec (createdTimestamp x - createdTimestamp y) 0)
    as [Hle | Hgt]; [reflexivity |].
  simpl filter in *. rewrite IH.
  destruct (Z.eqb_spec (createdTimestamp x) k) as [Hx | Hx];
    destruct (Z.eqb_spec (createdTimestamp y) k) as [Hy | Hy];
    try reflexivity.
  lia.
Qed.

(** X8. Messages created in the same millisecond keep, in the
    [conversationContext], the order in which the platform delivered them:
    the sort moves a message only past messages created later. *)
Theorem findLastUserMessage_keeps_ties
  (client : Client) (channel : Channel) (botId : string) (contextSize : Z)
  (window : list Message) :
  messages_fetch client channel contextSize = Resolved window ->
  exists r,
    outcome (findLastUserMessage client channel botId contextSize)
      = Resolved r
    /\ forall k,
         filter (fun m => createdTimestamp m =? k) (conversationContext r)
           = filter (fun m => createdTimestamp m =? k) window.
Proof.
  intros Hf. rewrite (findLastUserMessage_resolved _ _ _ _ _ Hf).
  eexists. split; [reflexivity |]. simpl. intros k.
  induction window as [|x r IH] in |- *; [reflexivity |].
  simpl sort. rewrite insert_same_time. simpl. rewrite IH. reflexivity.
Qed.

Lemma findLastUserMessage_keeps_ties_witness :
  exists r,
    outcome (findLastUserMessage
               (Sample.platform [Sample.alpha] SampleMore.tied)
               Sample.general "900" 4)
      = Resolved r
    /\ map message_id (conversationContext r)
       = ["2001"%string; "2003"%string; "2002"%string; "2004"%string].
Proof.
  destruct (findLastUserMessage_keeps_ties
              (Sample.platform [Sample.alpha] SampleMore.tied)
              Sample.general "900" 4 SampleMore.tied eq_refl)
    as (r & Hr & _).
  exists r. split; [exact Hr |].
  injection Hr as <-. reflexivity.
Defined.

(** When the fetch of the messages is refused, the scanner rejects with
    what the fetch threw. *)
Lemma findLastUserMessage_fetch_refused
  (client : Client) (channel : Channel) (botId : string) (contextSize : Z)
  (e : Thrown) :
  messages_fetch client channel contextSize = Rejected e ->
  findLastUserMessage client channel botId contextSize
    = ([MessagesFetch channel contextSize], Rejected e).
Proof.
  intros Hf. unfold findLastUserMessage, await, bind. rewrite Hf. reflexivity.
Qed.

(* ================================================================= *)
(** ** What the schemas accept *)

Lemma string_accepts (at_path : list string) (v : option JSON) (s : string) :
  string_ at_path v = inr s <-> v = Some (JString s).
Proof.
  unfold string_. destruct v as [[]|]; split; intros H;
    try discriminate H; injection H as <-; reflexivity.
Qed.

Lemma optional_string_accepts
  (at_path : list string) (v : option JSON) (o : option string) :
  optional string_ at_path v = inr o <-> optionalString v o.
Proof.
  unfold optional, string_, optionalString.
  destruct v as [[]|]; split; intros H; try discriminate H;
    try (injection H as <-);
    try (destruct H as [[H _] | (s' & H & _)]; discriminate H).
  - right. eexists. split; reflexivity.
  - destruct H as [[H _] | (s' & [= <-] & ->)]; [discriminate H | reflexivity].
  - left. split; reflexivity.
  - destruct H as [[_ ->] | (s' & H & _)]; [reflexivity | discriminate H].
Qed.

Lemma bounded_number_accepts
  (at_path : list string) (v : option JSON) (d low high n : Z) :
  low <= d <= high ->
  default (number [min low; max high]) (JNumber d) at_path v = inr n
  <-> boundedNumber v d low high n.
Proof.
  intros Hd. unfold default, boundedNumber.
  destruct v as [j|].
  - destruct j as [| b | m | s | items | fields];
      try (split; [discriminate | intros [[H _] | [H _]]; discriminate H]).
    destruct (Z_le_dec low m) as [Hl | Hl];
      [destruct (Z_le_dec m high) as [Hh | Hh] |].
    + rewrite number_within_bounds by lia. split.
      * intros [= <-]. right. split; [reflexivity | lia].
      * intros [[H _] | [[= <-] _]]; [discriminate H | reflexivity].
    + rewrite number_out_of_bounds by lia. split; [discriminate |].
      intros [[H _] | [[= <-] H]]; [discriminate H | lia].
    + rewrite number_out_of_bounds by lia. split; [discriminate |].
      intros [[H _] | [[= <-] H]]; [discriminate H | lia].
  - rewrite number_within_bounds by lia. split.
    + intros [= <-]. left. split; reflexivity.
    + intros [[_ ->] | [H _]]; [reflexivity | discriminate H].
Qed.

Lemma ap_accepts {A B} (f : Parsed (A -> B)) (x : Parsed A) (b : B) :
  ap f x = inr b <-> exists g a, f = inr g /\ x = inr a /\ b = g a.
Proof.
  destruct f as [i | g], x as [j | a]; simpl; split;
    try discriminate;
    try (intros (g' & a' & Hf & Hx & _); discriminate).
  - intros [= <-]. exists g, a. repeat split.
  - intros (g' & a' & [= <-] & [= <-] & ->). reflexivity.
Qed.

Lemma ap_issues_l {A B} (issues : list ZodIssue) (x : Parsed A) :
  exists all, @ap A B (inl issues) x = inl all /\ incl issues all.
Proof.
  destruct x as [more | a]; simpl.
  - exists (issues ++ more). split; [reflexivity | apply incl_appl, incl_refl].
  - exists issues. split; [reflexivity | apply incl_refl].
Qed.

(** X9. [SendMessageSchema] accepts an object exactly when its channel and
    its message are strings and its server is absent or a string, and what
    it yields are those values; other keys are not looked at. *)
Theorem SendMessageSchema_accepts
  (fields : list (string * JSON)) (a : SendMessageArgs) :
  SendMessageSchema [] (Some (JObject fields)) = inr a
  <-> optionalString (property "server" fields) (send_server a)
      /\ property "channel" fields = Some (JString (send_channel a))
      /\ property "message" fields = Some (JString (send_message a)).
Proof.
  unfold SendMessageSchema, object, key, pure. split.
  - intros H.
    apply ap_accepts in H as (g3 & m & H & Hm & ->).
    apply ap_accepts in H as (g2 & c & H & Hc & ->).
    apply ap_accepts in H as (g1 & s & [= <-] & Hs & ->).
    apply string_accepts in Hm, Hc. apply optional_string_accepts in Hs.
    simpl. repeat split; assumption.
  - intros (Hs & Hc & Hm).
    apply optional_string_accepts with (at_path := [] ++ ["server"%string])
      in Hs.
    rewrite Hs, Hc, Hm. destruct a; reflexivity.
Qed.

(** X10. [ReadMessagesSchema] accepts an object exactly when its channel is
    a string, its server is absent or a string, and its limit is absent,
    which yields 50, or a number from 1 to 100. *)
Theorem ReadMessagesSchema_accepts
  (fields : list (string * JSON)) (a : ReadMessagesArgs) :
  ReadMessagesSchema [] (Some (JObject fields)) = inr a
  <-> optionalString (property "server" fields) (read_server a)
      /\ property "channel" fields = Some (JString (read_channel a))
      /\ boundedNumber (property "limit" fields) 50 1 100 (read_limit a).
Proof.
  unfold ReadMessagesSchema, object, key, pure. split.
  - intros H.
    apply ap_accepts in H as (g3 & n & H & Hn & ->).
    apply ap_accepts in H as (g2 & c & H & Hc & ->).
    apply ap_accepts in H as (g1 & s & [= <-] & Hs & ->).
    apply string_accepts in Hc. apply optional_string_accepts in Hs.
    apply bounded_number_accepts in Hn; [| lia].
    simpl. repeat split; assumption.
  - intros (Hs & Hc & Hn).
    apply optional_string_accepts with (at_path := [] ++ ["server"%string])
      in Hs.
    apply (bounded_number_accepts ([] ++ ["limit"%string])) in Hn; [| lia].
    rewrite Hs, Hc, Hn. destruct a; reflexivity.
Qed.

(** X11. [ReplyToConversationSchema] accepts an object exactly when its
    channel and its message are strings, its server is absent or a string,
    and its contextSize is absent, which yields 25, or a number from 1 to
    50. *)
Theorem ReplyToConversationSchema_accepts
  (fields : list (string * JSON)) (a : ReplyToConversationArgs) :
  ReplyToConversationSchema [] (Some (JObject fields)) = inr a
  <-> optionalString (property "server" fields) (reply_server a)
      /\ property "channel" fields = Some (JString (reply_channel a))
      /\ property "message" fields = Some (JString (reply_message a))
      /\ boundedNumber (property "contextSize" fields) 25 1 50
                       (reply_contextSize a).
Proof.
  unfold ReplyToConversationSchema, object, key, pure. split.
  - intros H.
    apply ap_accepts in H as (g4 & n & H & Hn & ->).
    apply ap_accepts in H as (g3 & m & H & Hm & ->).
    apply ap_accepts in H as (g2 & c & H & Hc & ->).
    apply ap_accepts in H as (g1 & s & [= <-] & Hs & ->).
    apply string_accepts in Hc, Hm. apply optional_string_accepts in Hs.
    apply bounded_number_accepts in Hn; [| lia].
    simpl. repeat split; assumption.
  - intros (Hs & Hc & Hm & Hn).
    apply optional_string_accepts with (at_path := [] ++ ["server"%string])
      in Hs.
    apply (bounded_number_accepts ([] ++ ["contextSize"%string])) in Hn;
      [| lia].
    rewrite Hs, Hc, Hm, Hn. destruct a; reflexivity.
Qed.

(** A send-message object with a key that no schema names. *)
Lemma SendMessageSchema_accepts_witness :
  SendMessageSchema []
    (Some (JObject [("channel"%string, JString "general");
                    ("colour"%string, JString "red");
                    ("message"%string, JString "hi")]))
    = inr {| send_server := None; send_channel := "general";
             send_message := "hi" |}.
Proof.
  apply (proj2 (SendMessageSchema_accepts
                  [("channel"%string, JString "general");
                   ("colour"%string, JString "red");
                   ("message"%string, JString "hi")]
                  {| send_server := None; send_channel := "general";
                     send_message := "hi" |})).
  split; [left; split; reflexivity | split; reflexivity].
Defined.

Lemma ReadMessagesSchema_accepts_witness :
  ReadMessagesSchema []
    (Some (JObject [("channel"%string, JString "general");
                    ("server"%string, JString "Alpha")]))
    = inr {| read_server := Some "Alpha"%string; read_channel := "general";
             read_limit := 50 |}.
Proof.
  apply (proj2 (ReadMessagesSchema_accepts
                  [("channel"%string, JString "general");
                   ("server"%string, JString "Alpha")]
                  {| read_server := Some "Alpha"%string;
                     read_channel := "general"; read_limit := 50 |})).
  split; [right; eexists; split; reflexivity |].
  split; [reflexivity | left; split; reflexivity].
Defined.

Lemma ReplyToConversationSchema_accepts_witness :
  ReplyToConversationSchema []
    (Some (JObject [("channel"%string, JString "general");
                    ("message"%string, JString "noted");
                    ("contextSize"%string, JNumber 50)]))
    = inr {| reply_server := None; reply_channel := "general";
             reply_message := "noted"; reply_contextSize := 50 |}.
Proof.
  apply (proj2 (ReplyToConversationSchema_accepts
                  [("channel"%string, JString "general");
                   ("message"%string, JString "noted");
                   ("contextSize"%string, JNumber 50)]
                  {| reply_server := None; reply_channel := "general";
                     reply_message := "noted"; reply_contextSize := 50 |})).
  split; [left; split; reflexivity |].
  split; [reflexivity |]. split; [reflexivity |].
  right. split; [reflexivity | simpl; lia].
Defined.

(* ================================================================= *)
(** ** The list of tools and the handler *)

Lemma required_string_missing (at_path : list string) :
  string_ at_path None
    = inl [ {| path := at_path; message := "Required" |} ].
Proof. reflexivity. Qed.

(** X12. The list of tools and the validation agree on what is required:
    for every listed tool and every key its [inputSchema] requires, an
    object without that key is refused by the tool's schema, with an issue
    at that key whose reason is Required. *)
Theorem listTools_required_is_validated
  (tool : Tool) (name : string) (fields : list (string * JSON)) :
  In tool listTools ->
  In name (tool_required tool) ->
  property name fields = None ->
  exists issues,
    schemaIssues {| request_name := tool_name tool;
                    request_arguments := Some (JObject fields) |}
      = Some issues
    /\ In {| path := [name]; message := "Required" |} issues.
Proof.
  intros Htool Hname Hmissing.
  destruct Htool as [<- | [<- | [<- | []]]]; simpl in Hname;
    unfold schemaIssues; cbn [request_name request_arguments tool_name].
  - change (String.eqb "send-message" "send-message") with true. cbv iota.
    unfold SendMessageSchema, object, key.
    destruct Hname as [<- | [<- | []]]; rewrite Hmissing;
      rewrite required_string_missing.
    + match goal with |- context [ap (ap ?f (inl ?i)) ?x] =>
        destruct (ap_issues_r f i) as (all & -> & Hincl);
        destruct (@ap_issues_l _ SendMessageArgs all x)
          as (all' & -> & Hincl') end.
      exists all'. split; [reflexivity |].
      apply Hincl', Hincl. left. reflexivity.
    + match goal with |- context [ap ?f (inl ?i)] =>
        destruct (ap_issues_r f i) as (all & -> & Hincl) end.
      exists all. split; [reflexivity |]. apply Hincl. left. reflexivity.
  - change (String.eqb "read-messages" "send-message") with false.
    change (String.eqb "read-messages" "read-messages") with true. cbv iota.
    unfold ReadMessagesSchema, object, key.
    destruct Hname as [<- | []]. rewrite Hmissing, required_string_missing.
    match goal with |- context [ap (ap ?f (inl ?i)) ?x] =>
      destruct (ap_issues_r f i) as (all & -> & Hincl);
      destruct (@ap_issues_l _ ReadMessagesArgs all x)
        as (all' & -> & Hincl') end.
    exists all'. split; [reflexivity |].
    apply Hincl', Hincl. left. reflexivity.
  - change (String.eqb "reply-to-conversation" "send-message") with false.
    change (String.eqb "reply-to-conversation" "read-messages") with false.
    change (String.eqb "reply-to-conversation" "reply-to-conversation")
      with true. cbv iota.
    unfold ReplyToConversationSchema, object, key.
    destruct Hname as [<- | [<- | []]]; rewrite Hmissing;
      rewrite required_string_missing.
    + match goal with |- context [ap (ap (ap ?f (inl ?i)) ?x) ?y] =>
        destruct (ap_issues_r f i) as (all & -> & Hincl);
        destruct (@ap_issues_l _ (Z -> ReplyToConversationArgs) all x)
          as (all' & -> & Hincl');
        destruct (@ap_issues_l _ ReplyToConversationArgs all' y)
          as (all'' & -> & Hincl'') end.
      exists all''. split; [reflexivity |].
      apply Hincl'', Hincl', Hincl. left. reflexivity.
    + match goal with |- context [ap (ap ?f (inl ?i)) ?x] =>
        destruct (ap_issues_r f i) as (all & -> & Hincl);
        destruct (@ap_issues_l _ ReplyToConversationArgs all x)
          as (all' & -> & Hincl') end.
      exists all'. split; [reflexivity |].
      apply Hincl', Hincl. left. reflexivity.
Qed.

Lemma listTools_required_is_validated_witness :
  exists issues,
    schemaIssues (Sample.request "reply-to-conversation"
                    [("channel"%string, JString "general")])
      = Some issues
    /\ In {| path := ["message"%string]; message := "Required" |} issues.
Proof.
  apply (listTools_required_is_validated
           (nth 2 listTools (nth 0 listTools
              {| tool_name := EmptyString; tool_description := EmptyString;
                 tool_properties := []; tool_required := [] |}))
           "message" [("channel"%string, JString "general")]).
  - right. right. left. reflexivity.
  - right. left. reflexivity.
  - reflexivity.
Defined.

(** X13. The list of tools and the validation agree on what may be left
    out: for every listed tool, an object that holds a string at each
    required key and none of the other listed keys is accepted by the
    tool's schema, with no server and the channel it holds. *)
Theorem listTools_optional_may_be_omitted
  (tool : Tool) (fields : list (string * JSON)) :
  In tool listTools ->
  (forall name, In name (tool_required tool) ->
                exists s, property name fields = Some (JString s)) ->
  (forall name, In name (map fst (tool_properties tool)) ->
                ~ In name (tool_required tool) ->
                property name fields = None) ->
  exists channel,
    property "channel" fields = Some (JString channel)
    /\ requestedChannel {| request_name := tool_name tool;
                           request_arguments := Some (JObject fields) |}
       = Some (None, channel).
Proof.
  intros Htool Hreq Hopt.
  destruct Htool as [<- | [<- | [<- | []]]];
    unfold requestedChannel; cbn [request_name request_arguments tool_name].
  - destruct (Hreq "channel"%string) as [c Hc]; [simpl; tauto |].
    destruct (Hreq "message"%string) as [m Hm]; [simpl; tauto |].
    assert (Hs : property "server" fields = None).
    { apply Hopt; [simpl; tauto |].
      simpl. intros [H | [H | []]]; discriminate H. }
    exists c. split; [exact Hc |].
    change (String.eqb "send-message" "send-message") with true. cbv iota.
    unfold SendMessageSchema, object, key. rewrite Hc, Hm, Hs. reflexivity.
  - destruct (Hreq "channel"%string) as [c Hc]; [simpl; tauto |].
    assert (Hs : property "server" fields = None).
    { apply Hopt; [simpl; tauto |]. simpl. intros [H | []]; discriminate H. }
    assert (Hl : property "limit" fields = None).
    { apply Hopt; [simpl; tauto |]. simpl. intros [H | []]; discriminate H. }
    exists c. split; [exact Hc |].
    change (String.eqb "read-messages" "send-message") with false.
    change (String.eqb "read-messages" "read-messages") with true. cbv iota.
    unfold ReadMessagesSchema, object, key. rewrite Hc, Hs, Hl. reflexivity.
  - destruct (Hreq "channel"%string) as [c Hc]; [simpl; tauto |].
    destruct (Hreq "message"%string) as [m Hm]; [simpl; tauto |].
    assert (Hs : property "server" fields = None).
    { apply Hopt; [simpl; tauto |].
      simpl. intros [H | [H | []]]; discriminate H. }
    assert (Hl : property "contextSize" fields = None).
    { apply Hopt; [simpl; tauto |].
      simpl. intros [H | [H | []]]; discriminate H. }
    exists c. split; [exact Hc |].
    change (String.eqb "reply-to-conversation" "send-message") with false.
    change (String.eqb "reply-to-conversation" "read-messages") with false.
    change (String.eqb "reply-to-conversation" "reply-to-conversation")
      with true. cbv iota.
    unfold ReplyToConversationSchema, object, key.
    rewrite Hc, Hm, Hs, Hl. reflexivity.
Qed.

Lemma listTools_optional_may_be_omitted_witness :
  exists channel,
    property "channel" [("channel"%string, JString "general")]
      = Some (JString channel)
    /\ requestedChannel (Sample.request "read-messages"
                           [("channel"%string, JString "general")])
       = Some (None, channel).
Proof.
  apply (listTools_optional_may_be_omitted
           (nth 1 listTools (nth 0 listTools
              {| tool_name := EmptyString; tool_description := EmptyString;
                 tool_properties := []; tool_required := [] |}))
           [("channel"%string, JString "general")]).
  - right. left. reflexivity.
  - intros name [<- | []]. eexists. reflexivity.
  - intros name [<- | [<- | [<- | []]]] Hn; try reflexivity.
    exfalso. apply Hn. left. reflexivity.
Defined.

(** X14. The list of tools and the validation agree on the defaults: for
    every listed tool and every listed property with a default, a request
    accepted without that key asks for as many messages as the default
    says (50 for limit, 25 for contextSize). *)
Theorem listTools_default_is_applied
  (tool : Tool) (name : string) (schema : PropertySchema) (d n : Z)
  (fields : list (string * JSON)) :
  In tool listTools ->
  In (name, schema) (tool_properties tool) ->
  property_default schema = Some (JNumber d) ->
  property name fields = None ->
  requestedWindow {| request_name := tool_name tool;
                     request_arguments := Some (JObject fields) |} = Some n ->
  n = d.
Proof.
  intros Htool Hprop Hd Hmissing Hwin.
  destruct Htool as [<- | [<- | [<- | []]]]; simpl in Hprop;
    unfold requestedWindow in Hwin;
    cbn [request_name request_arguments tool_name] in Hwin.
  - destruct Hprop as [[= <- <-] | [[= <- <-] | [[= <- <-] | []]]];
      discriminate Hd.
  - destruct Hprop as [[= <- <-] | [[= <- <-] | [[= <- <-] | []]]];
      try discriminate Hd.
    injection Hd as <-.
    change (String.eqb "read-messages" "read-messages") with true in Hwin.
    cbv iota in Hwin.
    destruct (ReadMessagesSchema [] (Some (JObject fields))) as [|a] eqn:Hp;
      [discriminate Hwin |].
    injection Hwin as <-.
    unfold ReadMessagesSchema, object, key in Hp.
    apply ap_accepts in Hp as (g & m & H & Hn & ->).
    apply bounded_number_accepts in Hn; [| lia].
    rewrite Hmissing in Hn.
    destruct Hn as [[_ ->] | [H' _]]; [| discriminate H'].
    apply ap_accepts in H as (g2 & c & H & _ & ->).
    apply ap_accepts in H as (g1 & s & [= <-] & _ & ->). reflexivity.
  - destruct Hprop
      as [[= <- <-] | [[= <- <-] | [[= <- <-] | [[= <- <-] | []]]]];
      try discriminate Hd.
    injection Hd as <-.
    change (String.eqb "reply-to-conversation" "read-messages")
      with false in Hwin.
    change (String.eqb "reply-to-conversation" "reply-to-conversation")
      with true in Hwin.
    cbv iota in Hwin.
    destruct (ReplyToConversationSchema [] (Some (JObject fields)))
      as [|a] eqn:Hp; [discriminate Hwin |].
    injection Hwin as <-.
    unfold ReplyToConversationSchema, object, key in Hp.
    apply ap_accepts in Hp as (g & m & H & Hn & ->).
    apply bounded_number_accepts in Hn; [| lia].
    rewrite Hmissing in Hn.
    destruct Hn as [[_ ->] | [H' _]]; [| discriminate H'].
    apply ap_accepts in H as (g3 & x & H & _ & ->).
    apply ap_accepts in H as (g2 & c & H & _ & ->).
    apply ap_accepts in H as (g1 & s & [= <-] & _ & ->). reflexivity.
Qed.

Lemma listTools_default_is_applied_witness :
  requestedWindow (Sample.request "read-messages"
                     [("channel"%string, JString "general")]) = Some 50
  /\ 50 = 50.
Proof.
  split; [reflexivity |].
  apply (listTools_default_is_applied
           (nth 1 listTools (nth 0 listTools
              {| tool_name := EmptyString; tool_description := EmptyString;
                 tool_properties := []; tool_required := [] |}))
           "limit"
           {| property_type := "number";
              property_description := "Number of messages to fetch (max 100)";
              property_default := Some (JNumber 50) |}
           50 50 [("channel"%string, JString "general")]).
  - right. left. reflexivity.
  - right. right. left. reflexivity.
  - reflexivity.
  - reflexivity.
  - reflexivity.
Defined.

Lemma trace_bind {A B} (m : Async A) (k : A -> Async B) :
  exists rest, trace (bind m k) = trace m ++ rest.
Proof.
  destruct m as [t [a | e]]; unfold bind.
  - destruct (k a) as [t' r]. exists t'. reflexivity.
  - exists []. symmetry. apply app_nil_r.
Qed.

Lemma trace_try_catch {A} (m : Async A) (h : Thrown -> Async A) :
  exists rest, trace (try_catch m h) = trace m ++ rest.
Proof.
  destruct m as [t [a | e]]; unfold try_catch.
  - exists []. symmetry. apply app_nil_r.
  - destruct (h e) as [t' r]. exists t'. reflexivity.
Qed.

Lemma trace_bind_ret {A B} (a : A) (k : A -> Async B) :
  trace (bind (ret a) k) = trace (k a).
Proof. unfold bind, ret. destruct (k a). reflexivity. Qed.

(** A tool whose schema accepts the arguments begins with the search of the
    channel. *)
Lemma trace_found_first {A B C} (a : A) (found : A -> Async B)
  (k : A -> B -> Async C) (h : Thrown -> Async C) :
  exists rest,
    trace (try_catch (bind (ret a) (fun x => bind (found x) (k x))) h)
      = trace (found a) ++ rest.
Proof.
  destruct (trace_try_catch (bind (ret a) (fun x => bind (found x) (k x))) h)
    as (r1 & ->).
  rewrite trace_bind_ret.
  destruct (trace_bind (found a) (k a)) as (r2 & ->).
  exists (r2 ++ r1). symmetry. apply app_assoc.
Qed.

(** A request whose arguments its tool's schema refuses fails with the
    issues, before any platform call. *)
Lemma callTool_refused (client : Client) (request : CallToolRequest)
  (issues : list ZodIssue) :
  schemaIssues request = Some issues ->
  callTool client request = ([], Rejected (Error (invalidArguments issues))).
Proof.
  unfold schemaIssues, callTool. intros Hs.
  destruct (String.eqb (request_name request) "send-message");
    [| destruct (String.eqb (request_name request) "read-messages");
       [| destruct (String.eqb (request_name request)
                               "reply-to-conversation");
          [| discriminate Hs]]].
  - unfold sendMessage, parse.
    destruct (SendMessageSchema [] (request_arguments request));
      [| discriminate Hs].
    injection Hs as ->. reflexivity.
  - unfold readMessages, parse.
    destruct (ReadMessagesSchema [] (request_arguments request));
      [| discriminate Hs].
    injection Hs as ->. reflexivity.
  - unfold replyToConversation, parse.
    destruct (ReplyToConversationSchema [] (request_arguments request));
      [| discriminate Hs].
    injection Hs as ->. reflexivity.
Qed.

(** X15. A request for a tool that the list of tools does not name is
    refused with the error Unknown tool and its name, whatever its
    arguments, and no platform call is made.  A request for a listed tool is
    taken to that tool's schema: either the schema refuses the arguments,
    and the invocation fails with the issues before any platform call, or
    the schema accepts them, and the invocation begins with the search of
    the channel and the server that the accepted arguments name. *)
Theorem callTool_listed_tools (client : Client) (request : CallToolRequest) :
  (~ In (request_name request) (map tool_name listTools) ->
   callTool client request
     = ([], Rejected (Error ("Unknown tool: "%string
                               +++ request_name request))))
  /\ (In (request_name request) (map tool_name listTools) ->
      (exists issues,
          schemaIssues request = Some issues
          /\ requestedChannel request = None
          /\ callTool client request
             = ([], Rejected (Error (invalidArguments issues))))
      \/ (exists server channel rest,
             schemaIssues request = None
             /\ requestedChannel request = Some (server, channel)
             /\ trace (callTool client request)
                = trace (findChannel client channel server) ++ rest)).
Proof.
  split.
  - intros Hn. unfold callTool. simpl in Hn.
    destruct (String.eqb_spec (request_name request) "send-message") as [E|_];
      [exfalso; apply Hn; left; symmetry; exact E |].
    destruct (String.eqb_spec (request_name request) "read-messages") as [E|_];
      [exfalso; apply Hn; right; left; symmetry; exact E |].
    destruct (String.eqb_spec (request_name request) "reply-to-conversation")
      as [E|_];
      [exfalso; apply Hn; right; right; left; symmetry; exact E |].
    reflexivity.
  - intros Hin.
    destruct (schemaIssues request) as [issues |] eqn:Hissues.
    { left. exists issues. split; [reflexivity |].
      split; [| apply callTool_refused; exact Hissues].
      unfold schemaIssues in Hissues. unfold requestedChannel.
      destruct (String.eqb (request_name request) "send-message");
        [destruct (SendMessageSchema [] (request_arguments request));
           [reflexivity | discriminate Hissues] |].
      destruct (String.eqb (request_name request) "read-messages");
        [destruct (ReadMessagesSchema [] (request_arguments request));
           [reflexivity | discriminate Hissues] |].
      destruct (String.eqb (request_name request) "reply-to-conversation");
        [destruct (ReplyToConversationSchema [] (request_arguments request));
           [reflexivity | discriminate Hissues] |].
      reflexivity. }
    right. destruct request as [name args].
    unfold schemaIssues in Hissues. unfold requestedChannel, callTool.
    cbn [request_name request_arguments] in *.
    destruct Hin as [<- | [<- | [<- | []]]]; cbn [tool_name listTools] in *.
    + change (String.eqb "send-message" "send-message") with true in *.
      cbv iota in *.
      destruct (SendMessageSchema [] args) as [| a] eqn:Hp;
        [discriminate Hissues |].
      unfold sendMessage, parse. rewrite Hp.
      match goal with
      | |- context [try_catch
                      (bind (ret a) (fun x => bind (@?found x) (@?k x))) ?h] =>
          destruct (trace_found_first a found k h) as (rest & Hrest)
      end.
      exists (send_server a), (send_channel a), rest.
      split; [reflexivity |]. split; [reflexivity | exact Hrest].
    + change (String.eqb "read-messages" "send-message") with false in *.
      change (String.eqb "read-messages" "read-messages") with true in *.
      cbv iota in *.
      destruct (ReadMessagesSchema [] args) as [| a] eqn:Hp;
        [discriminate Hissues |].
      unfold readMessages, parse. rewrite Hp.
      match goal with
      | |- context [try_catch
                      (bind (ret a) (fun x => bind (@?found x) (@?k x))) ?h] =>
          destruct (trace_found_first a found k h) as (rest & Hrest)
      end.
      exists (read_server a), (read_channel a), rest.
      split; [reflexivity |]. split; [reflexivity | exact Hrest].
    + change (String.eqb "reply-to-conversation" "send-message")
        with false in *.
      change (String.eqb "reply-to-conversation" "read-messages")
        with false in *.
      change (String.eqb "reply-to-conversation" "reply-to-conversation")
        with true in *.
      cbv iota in *.
      destruct (ReplyToConversationSchema [] args) as [| a] eqn:Hp;
        [discriminate Hissues |].
      unfold replyToConversation, parse. rewrite Hp.
      match goal with
      | |- context [try_catch
                      (bind (ret a) (fun x => bind (@?found x) (@?k x))) ?h] =>
          destruct (trace_found_first a found k h) as (rest & Hrest)
      end.
      exists (reply_server a), (reply_channel a), rest.
      split; [reflexivity |]. split; [reflexivity | exact Hrest].
Qed.

(** A tool that is not listed is refused; a listed tool whose arguments are
    accepted begins with the search of the channel. *)
Lemma callTool_listed_tools_witness :
  callTool (Sample.platform [Sample.alpha] Sample.recent)
           (Sample.request "delete-message"
              [("channel"%string, JString "general")])
    = ([], Rejected (Error "Unknown tool: delete-message"))
  /\ exists rest,
       trace (callTool (Sample.platform [Sample.alpha] Sample.recent)
                (Sample.request "read-messages"
                   [("channel"%string, JString "general")]))
         = ChannelsFetch "general"%string :: rest.
Proof.
  split.
  - apply (proj1 (callTool_listed_tools
                    (Sample.platform [Sample.alpha] Sample.recent)
                    (Sample.request "delete-message"
                       [("channel"%string, JString "general")]))).
    simpl. intros [H | [H | [H | []]]]; discriminate H.
  - destruct (proj2 (callTool_listed_tools
                       (Sample.platform [Sample.alpha] Sample.recent)
                       (Sample.request "read-messages"
                          [("channel"%string, JString "general")])))
      as [(issues & Hissues & _) | (server & channel & rest & _ & Hreq & Ht)].
    + right. left. reflexivity.
    + discriminate Hissues.
    + injection Hreq as <- <-. exists rest. exact Ht.
Defined.

(** X16. Arguments that are not an object (absent, null, a string, an
    array) are refused for every listed tool before any platform call, with
    one issue at the empty path: Required when they are absent, and the
    type found otherwise. *)
Theorem callTool_arguments_not_object
  (client : Client) (request : CallToolRequest) :
  In (request_name request) (map tool_name listTools) ->
  isObject (request_arguments request) = false ->
  callTool client request
    = ([], Rejected
             (Error ("Invalid arguments: : "%string
                       +++ match request_arguments request with
                           | None => "Required"%string
                           | Some _ =>
                               "Expected object, received "%string
                                 +++ parsedType (request_arguments request)
                           end))).
Proof.
  intros Hin Hobj. unfold callTool.
  assert (Hs : forall A (shape : list string -> list (string * JSON)
                                 -> Parsed A),
             parse (object shape) (request_arguments request)
             = throw (ZodError [invalid_type "object"
                                  (request_arguments request) []])).
  { intros A shape. unfold parse, object.
    destruct (request_arguments request) as [[]|]; try reflexivity.
    discriminate Hobj. }
  destruct Hin as [<- | [<- | [<- | []]]]; simpl tool_name.
  - change (String.eqb "send-message" "send-message") with true. cbv iota.
    unfold sendMessage, SendMessageSchema. rewrite Hs.
    destruct (request_arguments request); reflexivity.
  - change (String.eqb "read-messages" "send-message") with false.
    change (String.eqb "read-messages" "read-messages") with true. cbv iota.
    unfold readMessages, ReadMessagesSchema. rewrite Hs.
    destruct (request_arguments request); reflexivity.
  - change (String.eqb "reply-to-conversation" "send-message") with false.
    change (String.eqb "reply-to-conversation" "read-messages") with false.
    change (String.eqb "reply-to-conversation" "reply-to-conversation")
      with true. cbv iota.
    unfold replyToConversation, ReplyToConversationSchema. rewrite Hs.
    destruct (request_arguments request); reflexivity.
Qed.

Lemma callTool_arguments_not_object_witness :
  callTool (Sample.platform [Sample.alpha] Sample.recent)
           {| request_name := "send-message"; request_arguments := None |}
    = ([], Rejected (Error "Invalid arguments: : Required"))
  /\ callTool (Sample.platform [Sample.alpha] Sample.recent)
              {| request_name := "read-messages";
                 request_arguments := Some (JArray []) |}
     = ([], Rejected
              (Error "Invalid arguments: : Expected object, received array")).
Proof.
  split.
  - apply (callTool_arguments_not_object
             (Sample.platform [Sample.alpha] Sample.recent)
             {| request_name := "send-message"; request_arguments := None |});
      [left; reflexivity | reflexivity].
  - apply (callTool_arguments_not_object
             (Sample.platform [Sample.alpha] Sample.recent)
             {| request_name := "read-messages";
                request_arguments := Some (JArray []) |});
      [right; left; reflexivity | reflexivity].
Defined.

(* ================================================================= *)
(** ** The three tools and the platform's answers *)

(** What send-message does once its channel is found. *)
Lemma callTool_send_found
  (client : Client) (args : option JSON) (a : SendMessageArgs)
  (channel : Channel) (t : list Event) :
  SendMessageSchema [] args = inr a ->
  findChannel client (send_channel a) (send_server a)
    = (t, Resolved (Some channel)) ->
  callTool client {| request_name := "send-message";
                     request_arguments := args |}
    = (t ++ [ChannelSend channel (send_message a)],
       match channel_send client channel (send_message a) with
       | Resolved sent =>
           Resolved
             (textResult
                ("Message sent successfully to #"%string
                   +++ channel_name channel +++ " in "%string
                   +++ channel_guild_name channel
                   +++ ". Message ID: "%string +++ message_id sent))
       | Rejected e => Rejected (rethrown e)
       end).
Proof.
  intros Hp Hfind. unfold callTool. cbn [request_name request_arguments].
  change (String.eqb "send-message" "send-message") with true. cbv iota.
  unfold sendMessage, parse. rewrite Hp.
  unfold bind at 1. unfold ret at 1.
  unfold bind at 1. rewrite Hfind.
  unfold bind, await, ret, try_catch, throw, rethrown.
  destruct (channel_send client channel (send_message a)) as [sent | [|]];
    cbn [app]; rewrite ?app_nil_r; reflexivity.
Qed.

(** What read-messages does once its channel is found. *)
Lemma callTool_read_found
  (client : Client) (args : option JSON) (a : ReadMessagesArgs)
  (channel : Channel) (t : list Event) :
  ReadMessagesSchema [] args = inr a ->
  findChannel client (read_channel a) (read_server a)
    = (t, Resolved (Some channel)) ->
  callTool client {| request_name := "read-messages";
                     request_arguments := args |}
    = (t ++ [MessagesFetch channel (read_limit a)],
       match messages_fetch client channel (read_limit a) with
       | Resolved window =>
           if validDates window
           then Resolved
                  (textResult
                     (stringifyArray (map (formatted channel) window)))
           else Rejected (Error "Invalid time value")
       | Rejected e => Rejected (rethrown e)
       end).
Proof.
  intros Hp Hfind.
  destruct (messages_fetch client channel (read_limit a))
    as [window | e] eqn:Hfetch.
  { apply (readMessages_fetched client args a channel t window
             Hp Hfind Hfetch). }
  unfold callTool. cbn [request_name request_arguments].
  change (String.eqb "read-messages" "send-message") with false.
  change (String.eqb "read-messages" "read-messages") with true. cbv iota.
  unfold readMessages, parse. rewrite Hp.
  unfold bind at 1. unfold ret at 1.
  unfold bind at 1. rewrite Hfind.
  unfold bind, await, ret, try_catch, throw, rethrown. rewrite Hfetch.
  destruct e; cbn [app]; rewrite ?app_nil_r; reflexivity.
Qed.

(** What reply-to-conversation does, once its channel is found, before the
    window is scanned. *)
Lemma callTool_reply_found
  (client : Client) (args : option JSON) (a : ReplyToConversationArgs)
  (channel : Channel) (t : list Event) :
  ReplyToConversationSchema [] args = inr a ->
  findChannel client (reply_channel a) (reply_server a)
    = (t, Resolved (Some channel)) ->
  (client_user client = None ->
   exists e,
     callTool client {| request_name := "reply-to-conversation";
                        request_arguments := args |}
       = (t, Rejected e))
  /\ (forall botUser e,
        client_user client = Some botUser ->
        messages_fetch client channel (reply_contextSize a) = Rejected e ->
        callTool client {| request_name := "reply-to-conversation";
                           request_arguments := args |}
          = (t ++ [MessagesFetch channel (reply_contextSize a)],
             Rejected (rethrown e))).
Proof.
  intros Hp Hfind.
  split; [intros Huser | intros botUser e Huser Hfetch];
    unfold callTool; cbn [request_name request_arguments];
    change (String.eqb "reply-to-conversation" "send-message") with false;
    change (String.eqb "reply-to-conversation" "read-messages") with false;
    change (String.eqb "reply-to-conversation" "reply-to-conversation")
      with true;
    cbv iota;
    unfold replyToConversation, parse; rewrite Hp;
    unfold bind at 1; unfold ret at 1; cbv zeta;
    unfold bind at 1; rewrite Hfind;
    unfold clientUserId; rewrite Huser.
  - unfold bind, throw, try_catch. cbn [app].
    eexists. rewrite !app_nil_r. reflexivity.
  - unfold bind at 1. unfold ret at 1.
    rewrite (findLastUserMessage_fetch_refused _ _ _ _ _ Hfetch).
    unfold bind, throw, try_catch, rethrown.
    destruct e; cbn [app]; rewrite ?app_nil_r; reflexivity.
Qed.

(** X17. A send-message invocation whose channel is found and whose send
    resolves makes one write to the platform, the send of the message as
    given to the channel found, and answers with a text that holds the
    channel name, the name of the channel's guild and the identifier of the
    message sent. *)
Theorem callTool_send_message
  (client : Client) (args : option JSON) (a : SendMessageArgs)
  (channel : Channel) (t : list Event) (sent : Message) :
  SendMessageSchema [] args = inr a ->
  findChannel client (send_channel a) (send_server a)
    = (t, Resolved (Some channel)) ->
  channel_send client channel (send_message a) = Resolved sent ->
  let request := {| request_name := "send-message";
                    request_arguments := args |} in
  callTool client request
    = (t ++ [ChannelSend channel (send_message a)],
       Resolved
         (textResult
            ("Message sent successfully to #"%string +++ channel_name channel
               +++ " in "%string +++ channel_guild_name channel
               +++ ". Message ID: "%string +++ message_id sent)))
  /\ filter writes (trace (callTool client request))
     = [ChannelSend channel (send_message a)].
Proof.
  intros Hp Hfind Hsend request.
  pose proof (callTool_send_found client args a channel t Hp Hfind) as Hcall.
  fold request in Hcall. rewrite Hsend in Hcall. rewrite Hcall.
  split; [reflexivity |].
  pose proof (findChannel_reads client (send_channel a) (send_server a))
    as Hreads.
  rewrite Hfind in Hreads. simpl in Hreads.
  simpl. rewrite filter_app, (filter_writes_reads t Hreads). reflexivity.
Qed.

(** Joined to Alpha alone, a message for the channel general. *)
Lemma callTool_send_message_witness :
  callTool (Sample.platform [Sample.alpha] [])
           (Sample.request "send-message"
              [("channel"%string, JString "general");
               ("message"%string, JString "hi")])
    = ([ChannelsFetch "general"%string; ChannelSend Sample.general "hi"],
       Resolved
         (textResult
            "Message sent successfully to #general in Alpha. Message ID: 3001")).
Proof.
  apply (callTool_send_message
           (Sample.platform [Sample.alpha] [])
           (Some (JObject [("channel"%string, JString "general");
                           ("message"%string, JString "hi")]))
           {| send_server := None; send_channel := "general";
              send_message := "hi" |}
           Sample.general [ChannelsFetch "general"%string]
           (Sample.text "3001" Sample.helper "hi" 1700000100000)
           eq_refl eq_refl eq_refl).
Defined.

(** X18. An error that the platform throws for the send, for the fetch of
    the messages or for the reply is the failure of the invocation, with its
    message unchanged; nothing is awaited after the call that failed, so a
    refused fetch is followed by no reply. *)
Theorem callTool_platform_error
  (client : Client) (args : option JSON) (channel : Channel)
  (t : list Event) (reason : string) :
  (forall a,
      SendMessageSchema [] args = inr a ->
      findChannel client (send_channel a) (send_server a)
        = (t, Resolved (Some channel)) ->
      channel_send client channel (send_message a)
        = Rejected (Error reason) ->
      callTool client {| request_name := "send-message";
                         request_arguments := args |}
        = (t ++ [ChannelSend channel (send_message a)],
           Rejected (Error reason)))
  /\ (forall a,
        ReadMessagesSchema [] args = inr a ->
        findChannel client (read_channel a) (read_server a)
          = (t, Resolved (Some channel)) ->
        messages_fetch client channel (read_limit a)
          = Rejected (Error reason) ->
        callTool client {| request_name := "read-messages";
                           request_arguments := args |}
          = (t ++ [MessagesFetch channel (read_limit a)],
             Rejected (Error reason)))
  /\ (forall a botUser,
        ReplyToConversationSchema [] args = inr a ->
        findChannel client (reply_channel a) (reply_server a)
          = (t, Resolved (Some channel)) ->
        client_user client = Some botUser ->
        messages_fetch client channel (reply_contextSize a)
          = Rejected (Error reason) ->
        callTool client {| request_name := "reply-to-conversation";
                           request_arguments := args |}
          = (t ++ [MessagesFetch channel (reply_contextSize a)],
             Rejected (Error reason)))
  /\ (forall a botUser r target,
        ReplyToConversationSchema [] args = inr a ->
        findChannel client (reply_channel a) (reply_server a)
          = (t, Resolved (Some channel)) ->
        client_user client = Some botUser ->
        outcome (findLastUserMessage client channel (user_id botUser)
                                     (reply_contextSize a)) = Resolved r ->
        lastUserMessage r = Some target ->
        message_reply client target (reply_message a)
          = Rejected (Error reason) ->
        callTool client {| request_name := "reply-to-conversation";
                           request_arguments := args |}
          = (t ++ [MessagesFetch channel (reply_contextSize a);
                   MessageReply target (reply_message a)],
             Rejected (Error reason))).
Proof.
  split; [| split; [| split]].
  - intros a Hp Hfind Hsend.
    rewrite (callTool_send_found client args a channel t Hp Hfind), Hsend.
    reflexivity.
  - intros a Hp Hfind Hfetch.
    rewrite (callTool_read_found client args a channel t Hp Hfind), Hfetch.
    reflexivity.
  - intros a botUser Hp Hfind Huser Hfetch.
    apply (proj2 (callTool_reply_found client args a channel t Hp Hfind)
                 botUser (Error reason) Huser Hfetch).
  - intros a botUser r target Hp Hfind Huser Hout Hsome Hreply.
    rewrite (replyToConversation_scanned client args a channel t botUser r
               Hp Hfind Huser Hout), Hsome, Hreply.
    reflexivity.
Qed.

(** The platform refuses the send and the fetch with Missing Access. *)
Lemma callTool_platform_error_witness :
  callTool (SampleMore.refusing [Sample.alpha] "Missing Access")
           (Sample.request "send-message"
              [("channel"%string, JString "general");
               ("message"%string, JString "hi")])
    = ([ChannelsFetch "general"%string; ChannelSend Sample.general "hi"],
       Rejected (Error "Missing Access"))
  /\ callTool (SampleMore.refusing [Sample.alpha] "Missing Access")
              (Sample.request "reply-to-conversation"
                 [("channel"%string, JString "general");
                  ("message"%string, JString "hi")])
     = ([ChannelsFetch "general"%string; MessagesFetch Sample.general 25],
        Rejected (Error "Missing Access")).
Proof.
  split.
  - apply (proj1 (callTool_platform_error
                    (SampleMore.refusing [Sample.alpha] "Missing Access")
                    (Some (JObject [("channel"%string, JString "general");
                                    ("message"%string, JString "hi")]))
                    Sample.general [ChannelsFetch "general"%string]
                    "Missing Access")
                 {| send_server := None; send_channel := "general";
                    send_message := "hi" |});
      reflexivity.
  - apply (proj1 (proj2 (proj2
             (callTool_platform_error
                (SampleMore.refusing [Sample.alpha] "Missing Access")
                (Some (JObject [("channel"%string, JString "general");
                                ("message"%string, JString "hi")]))
                Sample.general [ChannelsFetch "general"%string]
                "Missing Access")))
             {| reply_server := None; reply_channel := "general";
                reply_message := "hi"; reply_contextSize := 25 |}
             Sample.helper);
      reflexivity.
Defined.

(** X19. When the client has no user yet, a reply-to-conversation
    invocation whose channel is found fails on reading the identifier of
    the bot: no message is fetched and no reply is sent. *)
Theorem callTool_reply_without_user
  (client : Client) (args : option JSON) (a : ReplyToConversationArgs)
  (channel : Channel) (t : list Event) :
  ReplyToConversationSchema [] args = inr a ->
  findChannel client (reply_channel a) (reply_server a)
    = (t, Resolved (Some channel)) ->
  client_user client = None ->
  exists e,
    callTool client {| request_name := "reply-to-conversation";
                       request_arguments := args |}
      = (t, Rejected e).
Proof.
  intros Hp Hfind Huser.
  apply (proj1 (callTool_reply_found client args a channel t Hp Hfind) Huser).
Qed.

Lemma callTool_reply_without_user_witness :
  exists e,
    callTool (SampleMore.notReady [Sample.alpha] Sample.recent)
             (Sample.request "reply-to-conversation"
                [("channel"%string, JString "general");
                 ("message"%string, JString "noted")])
      = ([ChannelsFetch "general"%string], Rejected e).
Proof.
  apply (callTool_reply_without_user
           (SampleMore.notReady [Sample.alpha] Sample.recent)
           (Some (JObject [("channel"%string, JString "general");
                           ("message"%string, JString "noted")]))
           {| reply_server := None; reply_channel := "general";
              reply_message := "noted"; reply_contextSize := 25 |}
           Sample.general [ChannelsFetch "general"%string]);
    reflexivity.
Defined.

Lemma writesOnce_reads (name : string) (t : list Event) :
  filter writes t = [] -> writesOnce name t.
Proof.
  intros H. exists t, []. rewrite app_nil_r. repeat split; [exact H | left; reflexivity].
Qed.

Lemma callTool_refused_trace (client : Client) (request : CallToolRequest)
  (issues : list ZodIssue) :
  schemaIssues request = Some issues -> trace (callTool client request) = [].
Proof.
  unfold schemaIssues, callTool. intros Hs.
  destruct (String.eqb (request_name request) "send-message");
    [| destruct (String.eqb (request_name request) "read-messages");
       [| destruct (String.eqb (request_name request)
                               "reply-to-conversation");
          [| discriminate Hs]]].
  - unfold sendMessage, parse.
    destruct (SendMessageSchema [] (request_arguments request));
      [reflexivity | discriminate Hs].
  - unfold readMessages, parse.
    destruct (ReadMessagesSchema [] (request_arguments request));
      [reflexivity | discriminate Hs].
  - unfold replyToConversation, parse.
    destruct (ReplyToConversationSchema [] (request_arguments request));
      [reflexivity | discriminate Hs].
Qed.

Lemma callTool_not_found_trace
  (client : Client) (request : CallToolRequest) (server : option string)
  (channel : string) (t : list Event) :
  requestedChannel request = Some (server, channel) ->
  findChannel client channel server = (t, Resolved None) ->
  filter writes (trace (callTool client request)) = [].
Proof.
  intros Hreq Hfind.
  destruct (callTool_not_found client request server channel t Hreq Hfind)
    as (t' & text & Hnf & ->).
  destruct (channelNotFound_cases client (opening (request_name request))
              server channel) as (t'' & text' & Hnf' & Hr & _).
  rewrite Hnf in Hnf'. injection Hnf' as <- <-.
  pose proof (findChannel_reads client channel server) as Hreads.
  rewrite Hfind in Hreads. simpl in Hreads. simpl.
  rewrite filter_app, (filter_writes_reads _ Hreads),
    (filter_writes_reads _ Hr). reflexivity.
Qed.

(** X20. Every invocation, whatever the request and whatever the platform
    answers, first reads from the platform and then writes to it at most
    once: a write is the last call awaited, a send is made by send-message
    only and a reply by reply-to-conversation only, and read-messages never
    writes. *)
Theorem callTool_writes_once (client : Client) (request : CallToolRequest) :
  writesOnce (request_name request) (trace (callTool client request)).
Proof.
  destruct (schemaIssues request) as [issues|] eqn:Hissues.
  { rewrite (callTool_refused_trace client request issues Hissues).
    apply writesOnce_reads. reflexivity. }
  destruct request as [name args].
  unfold schemaIssues in Hissues.
  cbn [request_name request_arguments] in *.
  destruct (String.eqb_spec name "send-message") as [-> | Hn1].
  { destruct (SendMessageSchema [] args) as [|a] eqn:Hp;
      [discriminate Hissues |].
    destruct (findChannel_resolves client (send_channel a) (send_server a))
      as (t & [channel|] & Hfind).
    - rewrite (callTool_send_found client args a channel t Hp Hfind).
      pose proof (findChannel_reads client (send_channel a) (send_server a))
        as Hreads.
      rewrite Hfind in Hreads. simpl in Hreads.
      exists t, [ChannelSend channel (send_message a)].
      split; [reflexivity |].
      split; [apply filter_writes_reads, Hreads |].
      right. left. split; [reflexivity |]. eexists. eexists. reflexivity.
    - apply writesOnce_reads.
      apply (callTool_not_found_trace client _ (send_server a)
               (send_channel a) t); [| exact Hfind].
      unfold requestedChannel. cbn [request_name request_arguments].
      change (String.eqb "send-message" "send-message") with true.
      cbv iota. rewrite Hp. reflexivity. }
  destruct (String.eqb_spec name "read-messages") as [-> | Hn2].
  { destruct (ReadMessagesSchema [] args) as [|a] eqn:Hp;
      [discriminate Hissues |].
    destruct (findChannel_resolves client (read_channel a) (read_server a))
      as (t & [channel|] & Hfind).
    - rewrite (callTool_read_found client args a channel t Hp Hfind).
      pose proof (findChannel_reads client (read_channel a) (read_server a))
        as Hreads.
      rewrite Hfind in Hreads. simpl in Hreads.
      apply writesOnce_reads. simpl.
      rewrite filter_app, (filter_writes_reads t Hreads). reflexivity.
    - apply writesOnce_reads.
      apply (callTool_not_found_trace client _ (read_server a)
               (read_channel a) t); [| exact Hfind].
      unfold requestedChannel. cbn [request_name request_arguments].
      change (String.eqb "read-messages" "send-message") with false.
      change (String.eqb "read-messages" "read-messages") with true.
      cbv iota. rewrite Hp. reflexivity. }
  destruct (String.eqb_spec name "reply-to-conversation") as [-> | Hn3].
  { destruct (ReplyToConversationSchema [] args) as [|a] eqn:Hp;
      [discriminate Hissues |].
    destruct (findChannel_resolves client (reply_channel a) (reply_server a))
      as (t & [channel|] & Hfind).
    - pose proof (findChannel_reads client (reply_channel a)
                    (reply_server a)) as Hreads.
      rewrite Hfind in Hreads. simpl in Hreads.
      apply filter_writes_reads in Hreads.
      destruct (callTool_reply_found client args a channel t Hp Hfind)
        as [Hnouser Hrefused].
      destruct (client_user client) as [botUser|] eqn:Huser.
      + destruct (messages_fetch client channel (reply_contextSize a))
          as [window | e] eqn:Hfetch.
        * pose proof (findLastUserMessage_resolved client channel
                        (user_id botUser) _ _ Hfetch) as Hscan.
          rewrite (replyToConversation_scanned client args a channel t
                     botUser _ Hp Hfind Huser
                     (f_equal snd Hscan)).
          cbn [lastUserMessage].
          destruct (scanFrom _ _ _) as [target|].
          -- exists (t ++ [MessagesFetch channel (reply_contextSize a)]),
               [MessageReply target (reply_message a)].
             split.
             { destruct (message_reply client target (reply_message a));
                 simpl; rewrite <- app_assoc; reflexivity. }
             split; [rewrite filter_app, Hreads; reflexivity |].
             right. right. split; [reflexivity |].
             eexists. eexists. reflexivity.
          -- apply writesOnce_reads. simpl.
             rewrite filter_app, Hreads. reflexivity.
        * rewrite (Hrefused botUser e eq_refl eq_refl).
          apply writesOnce_reads. simpl.
          rewrite filter_app, Hreads. reflexivity.
      + destruct (Hnouser eq_refl) as [e ->].
        apply writesOnce_reads. exact Hreads.
    - apply writesOnce_reads.
      apply (callTool_not_found_trace client _ (reply_server a)
               (reply_channel a) t); [| exact Hfind].
      unfold requestedChannel. cbn [request_name request_arguments].
      change (String.eqb "reply-to-conversation" "send-message") with false.
      change (String.eqb "reply-to-conversation" "read-messages") with false.
      change (String.eqb "reply-to-conversation" "reply-to-conversation")
        with true.
      cbv iota. rewrite Hp. reflexivity. }
  apply writesOnce_reads. unfold callTool.
  cbn [request_name request_arguments].
  destruct (String.eqb_spec name "send-message"); [contradiction |].
  destruct (String.eqb_spec name "read-messages"); [contradiction |].
  destruct (String.eqb_spec name "reply-to-conversation"); [contradiction |].
  reflexivity.
Qed.

Lemma callTool_writes_once_witness :
  writesOnce "reply-to-conversation"
    [ChannelsFetch "general"%string;
     MessagesFetch Sample.general 3;
     MessageReply (Sample.text "2001" Sample.jane "ok" 1700000001000)
                  "noted"].
Proof.
  apply (callTool_writes_once
           (Sample.platform [Sample.alpha] Sample.recent)
           (Sample.request "reply-to-conversation"
              [("channel"%string, JString "general");
               ("message"%string, JString "noted");
               ("contextSize"%string, JNumber 3)])).
Defined.

(* ================================================================= *)
(** ** Startup *)

(** X21. [main] checks the token before anything else: with the variable
    unset or empty it throws, naming the variable, and logs in nowhere; and
    whenever it logs in, it does so once, first, with the token of the
    environment. *)
Theorem main_checks_token (p : Startup.Process) :
  (truthy (Startup.DISCORD_TOKEN p) = false ->
   Startup.main p
     = ([], Startup.Thrown_
              (Error "DISCORD_TOKEN environment variable is not set")))
  /\ (forall token,
        In (Startup.Login token) (fst (Startup.main p)) ->
        Startup.DISCORD_TOKEN p = Some token
        /\ truthy (Some token) = true
        /\ exists rest, fst (Startup.main p) = Startup.Login token :: rest
                        /\ ~ In (Startup.Login token) rest).
Proof.
  unfold Startup.main, Startup.fatal. split.
  - intros Ht. destruct (Startup.DISCORD_TOKEN p) as [[|c s]|];
      [reflexivity | discriminate Ht | reflexivity].
  - intros token Hin.
    destruct (Startup.DISCORD_TOKEN p) as [[|c s]|]; simpl in Hin;
      [destruct Hin | | destruct Hin].
    destruct (Startup.client_login p (String c s)) as [logged | e].
    + destruct (Startup.server_connect p) as [u | e]; simpl in Hin;
        (destruct Hin as [[= <-] | Hin];
         [| repeat (destruct Hin as [Hin | Hin]; [discriminate Hin |]);
            destruct Hin]);
        (split; [reflexivity |]); (split; [reflexivity |]);
        eexists; (split; [reflexivity |]);
        simpl; intros H;
        repeat (destruct H as [H | H]; [discriminate H |]); destruct H.
    + simpl in Hin.
      destruct Hin as [[= <-] | Hin];
        [| repeat (destruct Hin as [Hin | Hin]; [discriminate Hin |]);
           destruct Hin].
      split; [reflexivity |]. split; [reflexivity |].
      eexists. split; [reflexivity |].
      simpl. intros H.
      repeat (destruct H as [H | H]; [discriminate H |]). destruct H.
Qed.

Lemma main_checks_token_witness :
  Startup.main {| Startup.DISCORD_TOKEN := Some EmptyString;
                  Startup.client_login := fun token => Resolved token;
                  Startup.server_connect := Resolved tt |}
    = ([], Startup.Thrown_
             (Error "DISCORD_TOKEN environment variable is not set")).
Proof.
  apply (proj1 (main_checks_token
                  {| Startup.DISCORD_TOKEN := Some EmptyString;
                     Startup.client_login := fun token => Resolved token;
                     Startup.server_connect := Resolved tt |})).
  reflexivity.
Defined.

(** X22. With a token, [main] connects the transport only after the login
    has resolved, returns with the server running exactly when the login and
    the connection both resolve, and otherwise logs the error thrown and
    exits with code 1 as its last step. *)
Theorem main_fatal_exit (p : Startup.Process) (token : string) :
  Startup.DISCORD_TOKEN p = Some token ->
  truthy (Some token) = true ->
  (In Startup.Connect (fst (Startup.main p))
   <-> exists logged, Startup.client_login p token = Resolved logged)
  /\ (snd (Startup.main p) = Startup.Running
      <-> (exists logged, Startup.client_login p token = Resolved logged)
          /\ exists u, Startup.server_connect p = Resolved u)
  /\ (snd (Startup.main p) <> Startup.Running ->
      exists e before,
        (Startup.client_login p token = Rejected e
         \/ Startup.server_connect p = Rejected e)
        /\ snd (Startup.main p) = Startup.Exited 1
        /\ fst (Startup.main p)
           = before ++ [Startup.ConsoleError "Fatal error in main():" (Some e);
                        Startup.Exit 1]).
Proof.
  intros Htoken Htruthy. unfold Startup.main, Startup.fatal. rewrite Htoken.
  destruct token as [|c s]; [discriminate Htruthy |].
  destruct (Startup.client_login p (String c s)) as [logged | e].
  - destruct (Startup.server_connect p) as [u | e]; simpl.
    + split; [split; [eauto | tauto] |].
      split; [split; [eauto | reflexivity] |].
      intros H. exfalso. apply H. reflexivity.
    + split; [split; [eauto | tauto] |].
      split; [split; [discriminate | intros [_ [u H]]; discriminate H] |].
      intros _. exists e, [Startup.Login (String c s); Startup.Connect].
      split; [right; reflexivity | split; reflexivity].
  - simpl. split.
    + split; [| intros [logged H]; discriminate H].
      intros [H | [H | [H | []]]]; discriminate H.
    + split; [split; [discriminate | intros [[l H] _]; discriminate H] |].
      intros _. exists e, [Startup.Login (String c s)].
      split; [left; reflexivity | split; reflexivity].
Qed.

Lemma main_fatal_exit_witness :
  Startup.main {| Startup.DISCORD_TOKEN := Some "secret"%string;
                  Startup.client_login :=
                    fun _ => Rejected (Error "An invalid token was provided.");
                  Startup.server_connect := Resolved tt |}
    = ([ Startup.Login "secret";
         Startup.ConsoleError "Fatal error in main():"
           (Some (Error "An invalid token was provided."));
         Startup.Exit 1 ],
       Startup.Exited 1)
  /\ ~ In Startup.Connect
         (fst (Startup.main
                 {| Startup.DISCORD_TOKEN := Some "secret"%string;
                    Startup.client_login :=
                      fun _ =>
                        Rejected (Error "An invalid token was provided.");
                    Startup.server_connect := Resolved tt |})).
Proof.
  split; [reflexivity |].
  intros Hin.
  apply (proj1 (main_fatal_exit
                  {| Startup.DISCORD_TOKEN := Some "secret"%string;
                     Startup.client_login :=
                       fun _ =>
                         Rejected (Error "An invalid token was provided.");
                     Startup.server_connect := Resolved tt |}
                  "secret" eq_refl eq_refl)) in Hin.
  destruct Hin as [logged H]. discriminate H.
Defined.
